(** * plottr/node.py: the reactive node engine and the DataSelector node

    A shallow embedding of [plottr/node.py].  Python objects live in a heap
    (a list of node records addressed by position), methods are state
    transformers over that heap, and Qt signals are connection lists that are
    walked synchronously, in connection order, when the signal is emitted.

    Conventions.
    - A Python value that may be [None] is an [option]; [None] is Python's
      [None].
    - The recursion of [run] through sources and dependents is not
      structural; it is driven by a fuel argument that bounds the depth of
      nested calls.
    - An exception carries the heap as it was when it was raised, since the
      engine never rolls anything back.
    - [verbose] only prints; it is left out. *)

From stdpp Require Import base list strings.
From Stdlib Require Import ZArith Ascii.

Local Open Scope string_scope.
Local Open Scope list_scope.
Local Open Scope nat_scope.

(** ** Exceptions and outcomes *)

Inductive exn : Type :=
  | ValueError
  | AttributeError
  | TypeError
  | KeyError
  | IndexError
  | NotImplementedError
  | Dangling. (* an object id outside the heap; no Python run produces it *)

(** ** str.capitalize (ASCII) *)

Definition ascii_upper (c : ascii) : ascii :=
  let n := nat_of_ascii c in
  if (97 <=? n) && (n <=? 122) then ascii_of_nat (n - 32) else c.

Definition ascii_lower (c : ascii) : ascii :=
  let n := nat_of_ascii c in
  if (65 <=? n) && (n <=? 90) then ascii_of_nat (n + 32) else c.

Fixpoint str_lower (s : string) : string :=
  match s with
  | EmptyString => EmptyString
  | String c r => String (ascii_lower c) (str_lower r)
  end.

Definition capitalize (s : string) : string :=
  match s with
  | EmptyString => EmptyString
  | String c r => String (ascii_upper c) (str_lower r)
  end.

Module Engine.

Section WithData.

(** [Data] is the dataset type, [empty_dict] is the literal [{}], and [Opts]
    holds the option attributes a concrete node class adds to [NodeBase]. *)
Context {Data Opts : Type}.
Variable empty_dict : Data.

Definition pyval : Type := option Data.

(** One entry of [self._sources]: [{'ref' : ..., 'data' : ...}]. *)
Record Source : Type := mkSource {
  ref : option nat;
  data : pyval
}.

(** A node object.  [dataProcessed] lists the slots connected to this node's
    [dataProcessed] signal: each is the attribute [set<Name>Data] of a
    receiver, recorded as (receiver, capitalized name).  [dataRequested]
    lists the nodes whose [broadcastData] is connected to this node's
    [dataRequested] signal.  [optionsUpdated] is connected to the node's own
    [run] by [__init__] and to nothing else in this file. *)
Record Node : Type := mkNode {
  _sources : list (string * Source);
  _updateOnSource : bool;
  _uptodate : bool;
  _data : pyval;
  _updateOnOptionChange : bool;
  _running : bool;
  _grid : bool;
  _opts : Opts;
  dataProcessed : list (nat * string);
  dataRequested : list nat
}.

Inductive Event : Type :=
  | EvRun (n : nat)                       (* entry into n.run() *)
  | EvProcessData (n : nat)               (* n.processData() invoked *)
  | EvDataProcessed (n : nat) (v : pyval) (* n.dataProcessed.emit(v) *)
  | EvOptionsUpdated (n : nat)            (* n.optionsUpdated.emit() *)
  | EvDataRequested (n : nat).            (* n.dataRequested.emit() *)

(** The machine state: the heap and the log of what happened, newest event
    first.  The log is an observer only; no operation reads it. *)
Record State : Type := mkState {
  heap : list Node;
  trace : list Event
}.

Inductive outcome : Type :=
  | Ok (s : State)
  | Raise (e : exn) (s : State)
  | OutOfFuel.

Definition bind (o : outcome) (f : State → outcome) : outcome :=
  match o with
  | Ok s => f s
  | Raise e s => Raise e s
  | OutOfFuel => OutOfFuel
  end.

(** What the extension point returns: a value (possibly [None]) or an
    exception. *)
Inductive presult : Type :=
  | PReturn (v : pyval)
  | PRaise (e : exn).

(** [processData n nd] is [processData] of the class of object [n], applied
    to the object's current attributes. *)
Variable processData : nat → Node → presult.

(** [NodeBase.processData] raises; [Node.processData] returns the stored
    output.  Both are possible values of the parameter above. *)
Definition NodeBase_processData (nd : Node) : presult := PRaise NotImplementedError.
Definition Node_processData (nd : Node) : presult := PReturn (_data nd).

(** *** Attribute updates *)

Definition set_running (b : bool) (nd : Node) : Node :=
  mkNode (_sources nd) (_updateOnSource nd) (_uptodate nd) (_data nd)
         (_updateOnOptionChange nd) b (_grid nd) (_opts nd)
         (dataProcessed nd) (dataRequested nd).

Definition set_uptodate (b : bool) (nd : Node) : Node :=
  mkNode (_sources nd) (_updateOnSource nd) b (_data nd)
         (_updateOnOptionChange nd) (_running nd) (_grid nd) (_opts nd)
         (dataProcessed nd) (dataRequested nd).

Definition set__data (v : pyval) (nd : Node) : Node :=
  mkNode (_sources nd) (_updateOnSource nd) (_uptodate nd) v
         (_updateOnOptionChange nd) (_running nd) (_grid nd) (_opts nd)
         (dataProcessed nd) (dataRequested nd).

Definition set_sources (l : list (string * Source)) (nd : Node) : Node :=
  mkNode l (_updateOnSource nd) (_uptodate nd) (_data nd)
         (_updateOnOptionChange nd) (_running nd) (_grid nd) (_opts nd)
         (dataProcessed nd) (dataRequested nd).

Definition set_updateOnSource (b : bool) (nd : Node) : Node :=
  mkNode (_sources nd) b (_uptodate nd) (_data nd)
         (_updateOnOptionChange nd) (_running nd) (_grid nd) (_opts nd)
         (dataProcessed nd) (dataRequested nd).

Definition set_updateOnOptionChange (b : bool) (nd : Node) : Node :=
  mkNode (_sources nd) (_updateOnSource nd) (_uptodate nd) (_data nd)
         b (_running nd) (_grid nd) (_opts nd)
         (dataProcessed nd) (dataRequested nd).

Definition set_grid (b : bool) (nd : Node) : Node :=
  mkNode (_sources nd) (_updateOnSource nd) (_uptodate nd) (_data nd)
         (_updateOnOptionChange nd) (_running nd) b (_opts nd)
         (dataProcessed nd) (dataRequested nd).

Definition set_opts (o : Opts) (nd : Node) : Node :=
  mkNode (_sources nd) (_updateOnSource nd) (_uptodate nd) (_data nd)
         (_updateOnOptionChange nd) (_running nd) (_grid nd) o
         (dataProcessed nd) (dataRequested nd).

Definition set_dataProcessed (l : list (nat * string)) (nd : Node) : Node :=
  mkNode (_sources nd) (_updateOnSource nd) (_uptodate nd) (_data nd)
         (_updateOnOptionChange nd) (_running nd) (_grid nd) (_opts nd)
         l (dataRequested nd).

Definition set_dataRequested (l : list nat) (nd : Node) : Node :=
  mkNode (_sources nd) (_updateOnSource nd) (_uptodate nd) (_data nd)
         (_updateOnOptionChange nd) (_running nd) (_grid nd) (_opts nd)
         (dataProcessed nd) l.

(** *** The [_sources] dictionary *)

Definition keys (l : list (string * Source)) : list string := l.*1.

Fixpoint lookup_source (k : string) (l : list (string * Source)) : option Source :=
  match l with
  | [] => None
  | (k', s) :: r => if String.eqb k k' then Some s else lookup_source k r
  end.

Definition has_source (k : string) (l : list (string * Source)) : bool :=
  match lookup_source k l with Some _ => true | None => false end.

Fixpoint alter_source (f : Source → Source) (k : string)
    (l : list (string * Source)) : list (string * Source) :=
  match l with
  | [] => []
  | (k', s) :: r =>
      if String.eqb k k' then (k', f s) :: r else (k', s) :: alter_source f k r
  end.

Definition set_source_data (k : string) (v : pyval) :=
  alter_source (λ s, mkSource (ref s) v) k.

Definition set_source_ref (k : string) (r : option nat) :=
  alter_source (λ s, mkSource r (data s)) k.

(** The dict comprehension of [__init__]: a name listed twice in the class
    attribute [sources] yields one key, at its first position. *)
Fixpoint init_sources (names : list string) : list (string * Source) :=
  match names with
  | [] => []
  | k :: r =>
      (k, mkSource None None)
        :: filter (λ p, negb (String.eqb k p.1)) (init_sources r)
  end.

(** [NodeBase.__init__] for a class whose [sources] attribute is [names]. *)
Definition NodeBase_init (names : list string) (o : Opts) : Node :=
  mkNode (init_sources names) true false None true false false o [] [].

(** The lambdas that [__init__] stores as [set<Name>], [set<Name>Data] and
    [get<Name>Data] all read the loop variable [k] when they are called, not
    when they are created; by then the loop is over and [k] is the last key
    of [_sources]. *)
Definition closure_k (nd : Node) : option string := last (keys (_sources nd)).

(** *** Heap access *)

Definition node (n : nat) (s : State) : option Node := heap s !! n.

Definition upd (n : nat) (f : Node → Node) (s : State) : State :=
  mkState (alter f n (heap s)) (trace s).

Definition log (e : Event) (s : State) : State :=
  mkState (heap s) (e :: trace s).

(** *** setSourceData, broadcastData, the data setter, run *)

(** What [setSourceData] stores, and what [run] stores when it is done. *)
Definition ssd_write (sourceName : string) (value : pyval) (x : Node) : Node :=
  set_uptodate false (set_sources (set_source_data sourceName value (_sources x)) x).

Definition fin_write (x : Node) : Node := set_running false (set_uptodate true x).

(** [if val is None: val = {}] *)
Definition normalize (val : pyval) : pyval :=
  match val with None => Some empty_dict | Some d => Some d end.

Section WithRun.

(** [run] as seen from the callees: the recursive knot is tied in [run]
    below. *)
Variable run_rec : nat → State → outcome.

Definition setSourceData_with (self : nat) (sourceName : string) (value : pyval)
    (s : State) : outcome :=
  match node self s with
  | None => Raise Dangling s
  | Some nd =>
      if has_source sourceName (_sources nd) then
        let s1 := upd self (ssd_write sourceName value) s in
        if _updateOnSource nd then run_rec self s1 else Ok s1
      else Raise ValueError s
  end.

(** Calling the slot object [set<Name>Data] of [recv]. *)
Definition call_setfunc_with (recv : nat) (value : pyval) (s : State) : outcome :=
  match node recv s with
  | None => Raise Dangling s
  | Some nd =>
      match closure_k nd with
      | None => Raise AttributeError s
      | Some k => setSourceData_with recv k value s
      end
  end.

Fixpoint emit_dataProcessed_with (conns : list (nat * string)) (value : pyval)
    (s : State) : outcome :=
  match conns with
  | [] => Ok s
  | (recv, _) :: r =>
      bind (call_setfunc_with recv value s) (emit_dataProcessed_with r value)
  end.

Definition broadcastData_with (self : nat) (s : State) : outcome :=
  match node self s with
  | None => Raise Dangling s
  | Some nd =>
      emit_dataProcessed_with (dataProcessed nd) (_data nd)
        (log (EvDataProcessed self (_data nd)) s)
  end.

(** The setter of the [data] property. *)
Definition data_setter_with (self : nat) (val : pyval) (s : State) : outcome :=
  broadcastData_with self (upd self (set__data (normalize val)) s).

(** The loop of [run] over [self._sources.items()]. *)
Fixpoint run_sources_with (self : nat) (ks : list string) (s : State) : outcome :=
  match ks with
  | [] => Ok s
  | k :: r =>
      match node self s ≫= (λ nd, lookup_source k (_sources nd)) with
      | None => Raise Dangling s
      | Some src =>
          match ref src with
          | None => run_sources_with self r s
          | Some up => bind (run_rec up s) (run_sources_with self r)
          end
      end
  end.

(** The body of [run] once [self] has been found in the heap. *)
Definition run_body_with (self : nat) (nd : Node) (s : State) : outcome :=
  if negb (_running nd) then
    bind (run_sources_with self (keys (_sources nd)) (upd self (set_running true) s))
      (λ s2,
        match node self s2 with
        | None => Raise Dangling s2
        | Some nd2 =>
            if negb (_uptodate nd2) then
              match processData self nd2 with
              | PRaise e => Raise e (log (EvProcessData self) s2)
              | PReturn v =>
                  bind (data_setter_with self v (log (EvProcessData self) s2))
                    (λ s3, Ok (upd self fin_write s3))
              end
            else Ok s2
        end)
  else Ok (upd self (set_uptodate false) s).

End WithRun.

Fixpoint run (fuel : nat) (self : nat) (s : State) : outcome :=
  match fuel with
  | 0 => OutOfFuel
  | S fuel' =>
      match node self s with
      | None => Raise Dangling s
      | Some nd => run_body_with (run fuel') self nd (log (EvRun self) s)
      end
  end.

Definition setSourceData (fuel : nat) := setSourceData_with (run fuel).
Definition broadcastData (fuel : nat) := broadcastData_with (run fuel).
Definition data_setter (fuel : nat) := data_setter_with (run fuel).
Definition emit_dataProcessed (fuel : nat) := emit_dataProcessed_with (run fuel).
Definition run_sources (fuel : nat) := run_sources_with (run fuel).

(** *** Signal connections

    [connect] appends a connection.  [disconnect slot] removes one
    connection to [slot] and raises [TypeError] when there is none (PyQt's
    behaviour; the library is not part of this repository). *)

Fixpoint remove_first {A : Type} `{EqDecision A} (x : A) (l : list A)
    : option (list A) :=
  match l with
  | [] => None
  | y :: r =>
      if decide (x = y) then Some r
      else match remove_first x r with
           | Some r' => Some (y :: r')
           | None => None
           end
  end.

Fixpoint emit_dataRequested (fuel : nat) (conns : list nat) (s : State) : outcome :=
  match conns with
  | [] => Ok s
  | u :: r => bind (broadcastData fuel u s) (emit_dataRequested fuel r)
  end.

(** The two [disconnect] calls of [setSource], taken when the old reference
    [src] is not [None]. *)
Definition disconnect_source (self : nat) (setfunc : nat * string) (src : nat)
    (s : State) : outcome :=
  match node src s with
  | None => Raise Dangling s
  | Some snd =>
      match remove_first setfunc (dataProcessed snd) with
      | None => Raise TypeError s
      | Some l =>
          let s1 := upd src (set_dataProcessed l) s in
          match node self s1 with
          | None => Raise Dangling s1
          | Some nd1 =>
              match remove_first src (dataRequested nd1) with
              | None => Raise TypeError s1
              | Some l' => Ok (upd self (set_dataRequested l') s1)
              end
          end
      end
  end.

(** [setSource].  The attribute [set<Name>Data] fetched by [getattr] is the
    slot object identified by [(self, capitalize sourceName)].  A source
    name whose accessor names would shadow a method of the class (such as
    [source]) is outside this model. *)
Definition setSource (fuel : nat) (self : nat) (sourceName : string)
    (new_ref : option nat) (s : State) : outcome :=
  match node self s with
  | None => Raise Dangling s
  | Some nd =>
      if has_source sourceName (_sources nd) then
        let setfunc := (self, capitalize sourceName) in
        bind
          (match lookup_source sourceName (_sources nd) ≫= ref with
           | Some src => disconnect_source self setfunc src s
           | None => Ok s
           end)
          (λ s2,
            let s3 := upd self (λ x, set_sources
                        (set_source_ref sourceName new_ref (_sources x)) x) s2 in
            match new_ref with
            | None => Raise AttributeError s3
            | Some src =>
                match node src s3 with
                | None => Raise Dangling s3
                | Some _ =>
                    let s4 := upd src (λ x, set_dataProcessed
                                (dataProcessed x ++ [setfunc]) x) s3 in
                    let s5 := upd self (λ x, set_dataRequested
                                (dataRequested x ++ [src]) x) s4 in
                    match node self s5 with
                    | None => Raise Dangling s5
                    | Some nd5 =>
                        emit_dataRequested fuel (dataRequested nd5)
                          (log (EvDataRequested self) s5)
                    end
                end
            end)
      else Raise ValueError s
  end.

(** [updateOption]: [wrap(self, val)] for the raw setter [func], already
    applied to [val].  [optionsUpdated] is connected to [self.run]. *)
Definition updateOption (func : Node → Node) (fuel : nat) (self : nat)
    (s : State) : outcome :=
  match node self s with
  | None => Raise Dangling s
  | Some nd =>
      let s1 := upd self (λ x, set_uptodate false (func x)) s in
      if _updateOnOptionChange (func nd)
      then run fuel self (log (EvOptionsUpdated self) s1)
      else Ok s1
  end.

(** The raw setter of the [grid] property, and a raw setter that stores into
    the option attributes of a subclass. *)
Definition grid_func (val : bool) : Node → Node := set_grid val.
Definition opts_func (store : Opts → Opts) : Node → Node :=
  λ x, set_opts (store (_opts x)) x.

(** The setters of this file that are wrapped by [updateOption]: [grid] of
    [NodeBase], and the option setters of a subclass, each of which stores
    its argument in one attribute. *)
Inductive setter : Type :=
  | SetGrid (val : bool)
  | SetOption (store : Opts → Opts).

Definition setter_func (st : setter) : Node → Node :=
  match st with
  | SetGrid val => grid_func val
  | SetOption store => opts_func store
  end.

(** *** Sequences of calls from outside *)

Inductive Call : Type :=
  | CallRun (n : nat)
  | CallSetSourceData (n : nat) (k : string) (v : pyval)
  | CallSetSource (n : nat) (k : string) (r : option nat)
  | CallSetData (n : nat) (v : pyval)
  | CallBroadcastData (n : nat)
  | CallUpdateOption (n : nat) (func : Node → Node).

Definition exec (fuel : nat) (c : Call) (s : State) : outcome :=
  match c with
  | CallRun n => run fuel n s
  | CallSetSourceData n k v => setSourceData fuel n k v s
  | CallSetSource n k r => setSource fuel n k r s
  | CallSetData n v => data_setter fuel n v s
  | CallBroadcastData n => broadcastData fuel n s
  | CallUpdateOption n func => updateOption func fuel n s
  end.

(** A script stops at the first exception. *)
Fixpoint exec_all (fuel : nat) (cs : list Call) (s : State) : outcome :=
  match cs with
  | [] => Ok s
  | c :: r => bind (exec fuel c s) (exec_all fuel r)
  end.

(** The state an outcome leaves behind, when there is one. *)
Definition final (o : outcome) : option State :=
  match o with
  | Ok s => Some s
  | Raise _ s => Some s
  | OutOfFuel => None
  end.

(** *** Vocabulary for the statements below *)

(** [P] is connected to a slot of [U]: what [P] broadcasts reaches [U]. *)
Definition is_parent (s : State) (P U : nat) : Prop :=
  ∃ nd attr, node P s = Some nd ∧ (U, attr) ∈ dataProcessed nd.

(** [U] holds [P] as the reference of one of its sources. *)
Definition is_ref (s : State) (U P : nat) : Prop :=
  ∃ nd k src, node U s = Some nd
    ∧ lookup_source k (_sources nd) = Some src ∧ ref src = Some P.

(** Links and references agree, as [setSource] leaves them. *)
Record wired (s : State) : Prop := mkWired {
  wired_parent_ref : ∀ P U, is_parent s P U → is_ref s U P;
  wired_ref_parent : ∀ U P, is_ref s U P → is_parent s P U
}.

(** The wiring is a DAG: nodes can be ranked so that data flows upwards in
    rank. *)
Definition ranked (rank : nat → nat) (s : State) : Prop :=
  ∀ P U, is_parent s P U → rank P < rank U.

Definition acyclic (s : State) : Prop := ∃ rank, ranked rank s.

(** A node that will not recompute when triggered: it is marked running, or
    it is up to date and so is everything above it. *)
Inductive Frozen (s : State) : nat → Prop :=
  | Frozen_running U nd :
      node U s = Some nd → _running nd = true → Frozen s U
  | Frozen_settled U nd :
      node U s = Some nd → _uptodate nd = true →
      (∀ P, is_parent s P U → Frozen s P) → Frozen s U.

(** What no call of the [run] family changes in a node: the names and
    references of its sources, its policy flags, its options and its
    connections. *)
Definition wiring_of (nd : Node) : list (string * option nat) :=
  map (λ p, (p.1, ref p.2)) (_sources nd).

Record same_wiring (nd nd' : Node) : Prop := mkSameWiring {
  sw_sources : wiring_of nd' = wiring_of nd;
  sw_updateOnSource : _updateOnSource nd' = _updateOnSource nd;
  sw_updateOnOptionChange : _updateOnOptionChange nd' = _updateOnOptionChange nd;
  sw_grid : _grid nd' = _grid nd;
  sw_opts : _opts nd' = _opts nd;
  sw_dataProcessed : dataProcessed nd' = dataProcessed nd;
  sw_dataRequested : dataRequested nd' = dataRequested nd
}.

Definition static (s s' : State) : Prop :=
  ∀ n, match node n s with
       | Some nd => ∃ nd', node n s' = Some nd' ∧ same_wiring nd nd'
       | None => node n s' = None
       end.

Definition extends (s s' : State) : Prop :=
  ∃ new, trace s' = new ++ trace s.

Definition frame (s s' : State) : Prop := static s s' ∧ extends s s'.

(** A node that is marked running when a call starts is still marked
    running when the call ends, with the same output and without having
    been recomputed or having broadcast; if it was not up to date, it still
    is not. *)
Definition keeps_running (s s' : State) : Prop :=
  ∃ new, trace s' = new ++ trace s ∧
    ∀ n nd, node n s = Some nd → _running nd = true →
      ∃ nd', node n s' = Some nd' ∧ _running nd' = true
        ∧ _data nd' = _data nd
        ∧ (_uptodate nd = false → _uptodate nd' = false)
        ∧ (EvProcessData n ∉ new)
        ∧ ∀ v, EvDataProcessed n v ∉ new.

(** Node [X] keeps what makes it frozen: once running it stays running,
    and once up to date it stays up to date unless it is marked running. *)
Definition holds_status (s s' : State) (X : nat) : Prop :=
  ∀ nd, node X s = Some nd →
    ∃ nd', node X s' = Some nd'
      ∧ (_running nd = true → _running nd' = true)
      ∧ (_uptodate nd = true → _uptodate nd' = true ∨ _running nd' = true).

(** No node that is frozen when a call starts is recomputed by it or
    loses its status. *)
Definition keeps_frozen (s s' : State) : Prop :=
  ∃ new, trace s' = new ++ trace s
    ∧ ∀ X, Frozen s X → (EvProcessData X ∉ new) ∧ holds_status s s' X.

(** A call on a frozen node only enters [run] of nodes that rank no higher
    than the node. *)
Definition only_runs_above (rank : nat → nat) (m : nat) (s s' : State) : Prop :=
  ∃ new, trace s' = new ++ trace s
    ∧ ∀ e, e ∈ new → ∃ X, e = EvRun X ∧ rank X ≤ rank m.

(** Changes leave traces.  Between the start and the end of a call:
    whoever broadcast was recomputed; the source data of a node changed
    only if a node connected to it broadcast; a node lost [_uptodate] only
    if its [run] was entered or a node connected to it broadcast; its output
    changed only if it was recomputed; [_running] changed only if its [run]
    was entered. *)
Definition tracks (s s' : State) : Prop :=
  ∃ new, trace s' = new ++ trace s
    ∧ (∀ P v, EvDataProcessed P v ∈ new → EvProcessData P ∈ new)
    ∧ ∀ X nd, node X s = Some nd →
        ∃ nd', node X s' = Some nd'
          ∧ ((∀ P v, is_parent s P X → EvDataProcessed P v ∉ new) →
               _sources nd' = _sources nd)
          ∧ (_uptodate nd = true → EvRun X ∉ new →
             (∀ P v, is_parent s P X → EvDataProcessed P v ∉ new) →
               _uptodate nd' = true)
          ∧ (EvProcessData X ∉ new → _data nd' = _data nd)
          ∧ (EvRun X ∉ new → _running nd' = _running nd).

(** The number of nodes that are not marked running: the depth to which
    calls of [run] can nest. *)
Definition idle (s : State) : nat :=
  length (filter (λ nd, _running nd = false) (heap s)).

Definition stays_running (s s' : State) : Prop :=
  ∀ n nd, node n s = Some nd → _running nd = true →
    ∃ nd', node n s' = Some nd' ∧ _running nd' = true.

(** [processData] looks at nothing but the source data and the options of
    the node. *)
Definition reads_inputs_only : Prop :=
  ∀ n a b, _sources a = _sources b → _opts a = _opts b → _grid a = _grid b →
    processData n a = processData n b.

(** Event [e] was logged on the way from [s] to [s']. *)
Definition logged_between (s s' : State) (e : Event) : Prop :=
  ∃ new, trace s' = new ++ trace s ∧ e ∈ new.

(** The calls that only move data: all but [setSource] and the option
    setters. *)
Definition moves_data_only (c : Call) : bool :=
  match c with
  | CallSetSource _ _ _ | CallUpdateOption _ _ => false
  | _ => true
  end.

(** An option call made through one of the setters of this file. *)
Definition through_setter (c : Call) : Prop :=
  match c with
  | CallUpdateOption _ func => ∃ st, func = setter_func st
  | _ => True
  end.

(** A node that is marked running when a call starts is still marked
    running when the call ends, and has not been recomputed. *)
Definition stays_stuck (s s' : State) : Prop :=
  ∃ new, trace s' = new ++ trace s ∧
    ∀ n nd, node n s = Some nd → _running nd = true →
      ∃ nd', node n s' = Some nd' ∧ _running nd' = true
        ∧ (EvProcessData n ∉ new).

(** A call that reaches the sources of a node through signals only: any
    call but a direct [setSourceData]. *)
Definition through_signals (c : Call) : Prop :=
  match c with
  | CallSetSourceData _ _ _ => False
  | CallUpdateOption _ func => ∃ st, func = setter_func st
  | _ => True
  end.

(** Between [s] and [s'] no source other than the last declared one of its
    node has received data. *)
Definition fills_last_only (s s' : State) : Prop :=
  ∀ m nd, node m s = Some nd →
    ∃ nd', node m s' = Some nd'
      ∧ keys (_sources nd') = keys (_sources nd)
      ∧ ∀ k, closure_k nd ≠ Some k →
          data <$> lookup_source k (_sources nd')
          = data <$> lookup_source k (_sources nd).

(** Between [s] and [s'] no output has changed, except from [None] to
    [{}]. *)
Definition keeps_outputs (s s' : State) : Prop :=
  ∀ m nd, node m s = Some nd →
    ∃ nd', node m s' = Some nd'
      ∧ (_data nd' = _data nd
         ∨ (_data nd = None ∧ _data nd' = Some empty_dict)).



(** A command meets a relation between the state it starts in and the
    state it leaves behind, whether it returns or raises. *)
Definition sat (c : State → outcome) (R : State → State → Prop) : Prop :=
  ∀ s s', final (c s) = Some s' → R s s'.

End WithData.

End Engine.

(** ** NumPy arrays, as far as [DataSelector] uses them

    An array is its shape and its element function, which is how a NumPy
    view behaves: slicing, transposing and squeezing only change the shape
    and re-route the indices. *)

Module Np.

Local Open Scope Z_scope.

Record ndarray : Type := mkArray {
  shape : list nat;
  at_index : list nat → Z
}.

Definition ndim (a : ndarray) : nat := length (shape a).

(** A Python [slice(start, stop, step)]; [None] for an omitted part. *)
Record pyslice : Type := mkSlice {
  sl_start : option Z;
  sl_stop : option Z;
  sl_step : option Z
}.

(** [np.s_[::]] *)
Definition full_slice : pyslice := mkSlice None None None.

(** What [DataSelector.slices] maps an axis name to. *)
Inductive selector : Type :=
  | SelSlice (sl : pyslice)
  | SelInt (i : Z).

(** [slice.indices(n)] followed by the length of the range: start, step and
    number of selected positions; [None] when the step is zero. *)
Definition slice_indices (sl : pyslice) (n : nat) : option (Z * Z * nat) :=
  let len := Z.of_nat n in
  let step := default 1 (sl_step sl) in
  if step =? 0 then None else
  let lower := if step <? 0 then -1 else 0 in
  let upper := if step <? 0 then len - 1 else len in
  let clamp (v : Z) := if v <? 0 then Z.max (v + len) lower else Z.min v upper in
  let start := match sl_start sl with
               | None => if step <? 0 then upper else lower
               | Some v => clamp v
               end in
  let stop := match sl_stop sl with
              | None => if step <? 0 then lower else upper
              | Some v => clamp v
              end in
  let count :=
    if step <? 0
    then (if stop <? start then (start - stop - 1) / (- step) + 1 else 0)
    else (if start <? stop then (stop - start - 1) / step + 1 else 0) in
  Some (start, step, Z.to_nat count).

(** One axis of a resolved index: a kept range or a fixed position. *)
Inductive axsel : Type :=
  | Keep (start step : Z) (len : nat)
  | Fix (i : nat).

(** Resolve a tuple of selectors against a shape; axes beyond the tuple are
    kept whole. *)
Fixpoint resolve (sels : list selector) (sh : list nat) : exn + list axsel :=
  match sels, sh with
  | [], _ => inr (map (λ d, Keep 0 1 d) sh)
  | _ :: _, [] => inl IndexError
  | SelSlice sl :: r, d :: sh' =>
      match slice_indices sl d with
      | None => inl ValueError
      | Some (start, step, n) =>
          match resolve r sh' with
          | inl e => inl e
          | inr l => inr (Keep start step n :: l)
          end
      end
  | SelInt i :: r, d :: sh' =>
      if (- Z.of_nat d <=? i) && (i <? Z.of_nat d) then
        match resolve r sh' with
        | inl e => inl e
        | inr l => inr (Fix (Z.to_nat (i mod Z.of_nat d)) :: l)
        end
      else inl IndexError
  end.

Fixpoint kept_shape (l : list axsel) : list nat :=
  match l with
  | [] => []
  | Keep _ _ n :: r => n :: kept_shape r
  | Fix _ :: r => kept_shape r
  end.

Fixpoint route (l : list axsel) (idx : list nat) : list nat :=
  match l with
  | [] => []
  | Keep start step _ :: r =>
      match idx with
      | i :: idx' => Z.to_nat (start + Z.of_nat i * step) :: route r idx'
      | [] => Z.to_nat start :: route r []
      end
  | Fix i :: r => i :: route r idx
  end.

(** [a[sels]] for a tuple of slices and integers. *)
Definition index_tuple (sels : list selector) (a : ndarray) : exn + ndarray :=
  match resolve sels (shape a) with
  | inl e => inl e
  | inr l => inr (mkArray (kept_shape l) (λ idx, at_index a (route l idx)))
  end.

Definition is_int (s : selector) : bool :=
  match s with SelInt _ => true | SelSlice _ => false end.

Fixpoint wrap_all (d : nat) (l : list selector) : option (list nat) :=
  match l with
  | [] => Some []
  | SelInt i :: r =>
      if (- Z.of_nat d <=? i) && (i <? Z.of_nat d)
      then option_map (cons (Z.to_nat (i mod Z.of_nat d))) (wrap_all d r)
      else None
  | SelSlice _ :: _ => None
  end.

(** [a[lst]] for a Python list [lst] (NumPy before 1.23): a list holding a
    slice is used as a tuple; a list of integers only picks along the first
    axis. *)
Definition index_list (lst : list selector) (a : ndarray) : exn + ndarray :=
  if forallb is_int lst then
    match shape a with
    | [] => inl IndexError
    | d :: sh' =>
        match wrap_all d lst with
        | None => inl IndexError
        | Some picks =>
            inr (mkArray (length picks :: sh')
                   (λ idx, match idx with
                           | i :: idx' => at_index a (nth i picks O :: idx')
                           | [] => at_index a []
                           end))
        end
    end
  else index_tuple lst a.

Definition no_dup_nat (l : list nat) : bool :=
  bool_decide (NoDup l).

(** [a.transpose(axes)] *)
Definition transpose (axes : list nat) (a : ndarray) : exn + ndarray :=
  if negb (length axes =? ndim a)%nat then inl ValueError
  else if negb (forallb (λ i, i <? ndim a)%nat axes) then inl ValueError
  else if negb (no_dup_nat axes) then inl ValueError
  else inr (mkArray (map (λ i, nth i (shape a) O) axes)
              (λ idx, at_index a
                 (map (λ k, match list_find (λ i, i = k) axes with
                            | Some (j, _) => nth j idx O
                            | None => O
                            end)
                      (seq 0 (ndim a))))).

Fixpoint unsqueeze (sh : list nat) (idx : list nat) : list nat :=
  match sh with
  | [] => []
  | d :: sh' =>
      if (d =? 1)%nat then O :: unsqueeze sh' idx
      else match idx with
           | i :: idx' => i :: unsqueeze sh' idx'
           | [] => O :: unsqueeze sh' []
           end
  end.

(** [np.squeeze(a)] *)
Definition squeeze (a : ndarray) : ndarray :=
  mkArray (filter (λ d, d ≠ 1%nat) (shape a))
          (λ idx, at_index a (unsqueeze (shape a) idx)).

End Np.

(** ** Datasets

    A dataset is a dictionary from names to records; a record is itself a
    dictionary, of which the keys [values] and [axes] matter here.  The
    classes [DataDict] and [GridDataDict] live in [plottr/data/datadict.py],
    which is not part of the sources at hand; what is used of them enters as
    parameters below. *)

Module DataDicts.

Record field : Type := mkField {
  values : option Np.ndarray;    (* None: no key 'values' *)
  axes : option (list string)    (* None: no key 'axes' *)
}.

(** A dictionary value is a record or, on the path of [processData] that
    does not re-grid, a one-character string. *)
Inductive entry : Type :=
  | ERecord (f : field)
  | EStr (s : string).

Definition dict : Type := list (string * entry).

Inductive kind : Type := PlainDict | DataDict | GridDataDict.

Record dataobj : Type := mkObj {
  obj_kind : kind;
  obj_items : dict
}.

(** The literal [{}]. *)
Definition empty_dict : dataobj := mkObj PlainDict [].

Fixpoint dict_get (k : string) (d : dict) : option entry :=
  match d with
  | [] => None
  | (k', v) :: r => if String.eqb k k' then Some v else dict_get k r
  end.

(** [d[k] = v]: in place when the key exists, at the end otherwise. *)
Fixpoint dict_set (k : string) (v : entry) (d : dict) : dict :=
  match d with
  | [] => [(k, v)]
  | (k', v') :: r =>
      if String.eqb k k' then (k', v) :: r else (k', v') :: dict_set k v r
  end.

(** [del d[k]] *)
Fixpoint dict_del (k : string) (d : dict) : exn + dict :=
  match d with
  | [] => inl KeyError
  | (k', v') :: r =>
      if String.eqb k k' then inr r
      else match dict_del k r with
           | inl e => inl e
           | inr r' => inr ((k', v') :: r')
           end
  end.

Global Instance exn_bind : MBind (sum exn) := λ A B f x,
  match x with
  | inl e => inl e
  | inr a => f a
  end.

(** [d[k]] used as a record. *)
Definition get_record (d : dict) (k : string) : exn + field :=
  match dict_get k d with
  | None => inl KeyError
  | Some (EStr _) => inl TypeError
  | Some (ERecord f) => inr f
  end.

(** [d[k]['values']] and [d[k]['axes']] *)
Definition get_values (d : dict) (k : string) : exn + Np.ndarray :=
  f ← get_record d k;
  match values f with None => inl KeyError | Some a => inr a end.

Definition get_axes (d : dict) (k : string) : exn + list string :=
  f ← get_record d k;
  match axes f with None => inl KeyError | Some l => inr l end.

(** [d[k]['values'] = a] and [d[k]['axes'] = l] *)
Definition set_values (d : dict) (k : string) (a : Np.ndarray) : exn + dict :=
  f ← get_record d k;
  inr (dict_set k (ERecord (mkField (Some a) (axes f))) d).

Definition set_axes (d : dict) (k : string) (l : list string) : exn + dict :=
  f ← get_record d k;
  inr (dict_set k (ERecord (mkField (values f) (Some l))) d).

(** The argument of [get_grid]: nothing, one name, or a list of names. *)
Inductive grid_arg : Type :=
  | ArgNone
  | ArgName (n : string)
  | ArgNames (l : list string).

End DataDicts.

(** ** DataSelector *)

Module DataSelector.

Import DataDicts.

(** The option attributes [DataSelector.__init__] adds. *)
Record Options : Type := mkOptions {
  _dataName : option string;
  _slices : list (string * Np.selector);
  _axesOrder : list (string * Z);
  _squeeze : bool
}.

Definition DNode : Type := @Engine.Node dataobj Options.

(** [DataSelector.__init__]: [NodeBase.__init__] with the class attribute
    [sources = ['input']], then the attribute defaults. *)
Definition init : DNode :=
  Engine.set_grid true (Engine.NodeBase_init ["input"] (mkOptions None [] [] true)).

(** [l.index(x)] *)
Fixpoint list_index (x : string) (l : list string) : exn + nat :=
  match l with
  | [] => inl ValueError
  | y :: r =>
      if String.eqb x y then inr O
      else match list_index x r with
           | inl e => inl e
           | inr i => inr (S i)
           end
  end.

(** [l[i] = v] for a Python integer [i]. *)
Definition list_assign {A : Type} (i : Z) (v : A) (l : list A) : exn + list A :=
  let n := Z.of_nat (length l) in
  if ((- n <=? i) && (i <? n))%Z
  then inr (<[Z.to_nat (i mod n) := v]> l)
  else inl IndexError.

(** [self.getInputData()], the accessor made by [NodeBase.__init__]. *)
Definition getInputData (nd : DNode) : exn + option dataobj :=
  match Engine.closure_k nd with
  | None => inl AttributeError
  | Some k =>
      match Engine.lookup_source k (Engine._sources nd) with
      | None => inl KeyError
      | Some src => inr (Engine.data src)
      end
  end.

(** ['axes' in s] for a string [s]: the substring test. *)
Fixpoint has_substring (p s : string) : bool :=
  String.prefix p s
  || match s with
     | EmptyString => false
     | String _ r => has_substring p r
     end.

(** ['axes' in v] *)
Definition has_axes (v : entry) : bool :=
  match v with
  | ERecord f => match axes f with Some _ => true | None => false end
  | EStr s => has_substring "axes" s
  end.

(** [v['axes']] *)
Definition entry_axes (v : entry) : exn + list string :=
  match v with
  | ERecord f => match axes f with Some l => inr l | None => inl KeyError end
  | EStr _ => inl TypeError
  end.

(** [for n in ns: if n not in lst: lst.append(n)] *)
Fixpoint append_new (ns : list string) (lst : list string) : list string :=
  match ns with
  | [] => lst
  | n :: r => append_new r (if bool_decide (n ∈ lst) then lst else lst ++ [n])
  end.

(** The loop of [axesList] over [data.items()]. *)
Fixpoint axes_loop (items : dict) (lst : list string) : exn + list string :=
  match items with
  | [] => inr lst
  | (k, v) :: r =>
      if has_axes v
      then ns ← entry_axes v; axes_loop r (append_new ns lst)
      else axes_loop r lst
  end.

(** [DataSelector.axesList(data, dataName)] *)
Definition axesList (data : dict) (dataName : option string)
    : exn + list string :=
  match dataName with
  | None => axes_loop data []
  | Some name =>
      match dict_get name data with
      | Some v => if has_axes v then entry_axes v else inr []
      | None => inr []
      end
  end.

(** [slices] read as a dictionary over the axes [x] and [y]: it maps [y]
    to the slice [sly] and, when [xsel] is [Some slx], [x] to the slice
    [slx]; the two entries may have been inserted in either order. *)
Definition slices_xy (x y : string) (xsel : option Np.pyslice)
    (sly : Np.pyslice) (sl : list (string * Np.selector)) : Prop :=
  match xsel with
  | None => sl = [(y, Np.SelSlice sly)]
  | Some slx =>
      sl = [(x, Np.SelSlice slx); (y, Np.SelSlice sly)]
      ∨ sl = [(y, Np.SelSlice sly); (x, Np.SelSlice slx)]
  end.

(** [axesOrder] read as a dictionary over the axes [axs]: no name twice,
    every name an axis, every position an index into the list of axes. *)
Definition order_within (axs : list string) (ao : list (string * Z)) : Prop :=
  NoDup ao.*1
  ∧ ∀ n p, (n, p) ∈ ao →
      n ∈ axs ∧ (- Z.of_nat (length axs) ≤ p < Z.of_nat (length axs))%Z.

Section WithDatadict.

(** From [datadict.py]: whether a [GridDataDict] has a [get_grid] method,
    and what [get_grid] returns. *)
Variable grid_has_get_grid : bool.
Variable get_grid : dataobj → grid_arg → exn + dataobj.

Definition hasattr_get_grid (o : dataobj) : bool :=
  match obj_kind o with
  | PlainDict => false
  | DataDict => true
  | GridDataDict => grid_has_get_grid
  end.

(** [for k, v in data]: iterating a dictionary yields its keys, and a key
    unpacks into two targets only when it has exactly two characters. *)
Definition unpack2 (key : string) : exn + (string * string) :=
  match key with
  | String a (String b EmptyString) =>
      inr (String a EmptyString, String b EmptyString)
  | _ => inl ValueError
  end.

Fixpoint copy_axes_loop (ks : list string) (axs : exn + list string)
    (_data : dict) : exn + dict :=
  match ks with
  | [] => inr _data
  | key :: r =>
      kv ← unpack2 key;
      axs' ← axs;
      if bool_decide (kv.1 ∈ axs')
      then copy_axes_loop r axs (dict_set kv.1 (EStr kv.2) _data)
      else copy_axes_loop r axs _data
  end.

(** The branch of [processData] taken without [get_grid]. *)
Definition select_plain (name : string) (data : dataobj) : exn + dataobj :=
  match dict_get name (obj_items data) with
  | None => inl KeyError
  | Some e =>
      (* data[self.dataName].get('axes', []) *)
      let axs := match e with
                 | ERecord f => inr (default [] (axes f))
                 | EStr _ => inl AttributeError
                 end in
      _data ← copy_axes_loop ((obj_items data).*1) axs [(name, e)];
      inr (mkObj PlainDict _data)
  end.

(** The loop over [self.slices.items()]. *)
Fixpoint slices_loop (sl : list (string * Np.selector)) (_axnames : list string)
    (slices : list Np.selector) (data : dict) : exn + (list Np.selector * dict) :=
  match sl with
  | [] => inr (slices, data)
  | (n, s) :: r =>
      idx ← list_index n _axnames;
      let slices := <[idx := s]> slices in
      old ← get_values data n;
      new ← Np.index_tuple [s] old;
      data ← set_values data n new;
      slices_loop r _axnames slices data
  end.

(** The loop over [self.axesOrder.items()]. *)
Fixpoint order_loop (ao : list (string * Z)) (_axnames : list string)
    (neworder : list (option nat)) : exn + list (option nat) :=
  match ao with
  | [] => inr neworder
  | (n, newidx) :: r =>
      i ← list_index n _axnames;
      neworder ← list_assign newidx (Some i) neworder;
      order_loop r _axnames neworder
  end.

(** [del oldorder[oldorder.index(i)]] *)
Fixpoint remove_nat (i : nat) (l : list nat) : list nat :=
  match l with
  | [] => []
  | j :: r => if (i =? j)%nat then r else j :: remove_nat i r
  end.

(** [for i in neworder: if i in oldorder: del oldorder[oldorder.index(i)]] *)
Fixpoint used_loop (neworder : list (option nat)) (oldorder : list nat) : list nat :=
  match neworder with
  | [] => oldorder
  | None :: r => used_loop r oldorder
  | Some i :: r => used_loop r (remove_nat i oldorder)
  end.

(** The loop that fills the free positions of [neworder]. *)
Fixpoint fill_loop (neworder : list (option nat)) (oldorder : list nat)
    : exn + list nat :=
  match neworder with
  | [] => inr []
  | Some i :: r => l ← fill_loop r oldorder; inr (i :: l)
  | None :: r =>
      match oldorder with
      | [] => inl IndexError
      | j :: oldorder' => l ← fill_loop r oldorder'; inr (j :: l)
      end
  end.

(** [[_axnames[i] for i in neworder]] *)
Fixpoint pick_names (_axnames : list string) (neworder : list nat)
    : exn + list string :=
  match neworder with
  | [] => inr []
  | i :: r =>
      match _axnames !! i with
      | None => inl IndexError
      | Some n => l ← pick_names _axnames r; inr (n :: l)
      end
  end.

(** The loop [for i, n in enumerate(_axnames)] of the squeeze block.
    [_axnames] is the very list stored under [data[dataName]['axes']], so
    the [del] inside the loop shortens the list being enumerated: the
    iterator keeps counting and reads position [i] of the list as it is
    then.  [fuel] bounds the number of iterations by the initial length. *)
Fixpoint squeeze_loop (fuel i : nat) (_axnames : list string)
    (oldshape : list nat) (name : string) (data : dict) : exn + dict :=
  match fuel with
  | O => inr data
  | S fuel' =>
      match _axnames !! i with
      | None => inr data
      | Some n =>
          match oldshape !! i with
          | None => inl IndexError
          | Some d =>
              if (d <? 2)%nat then
                data ← set_axes data name (delete i _axnames);
                data ← dict_del n data;
                squeeze_loop fuel' (S i) (delete i _axnames) oldshape name data
              else squeeze_loop fuel' (S i) _axnames oldshape name data
          end
      end
  end.

(** The block [if self.grid:] of [processData]. *)
Definition grid_block (o : Options) (name : string) (data : dict) : exn + dict :=
  _datavals ← get_values data name;
  _axnames ← get_axes data name;
  sd ← slices_loop (_slices o) _axnames
             (map (λ _, Np.SelSlice Np.full_slice) _axnames) data;
  vals ← Np.index_list sd.1 _datavals;
  data ← set_values sd.2 name vals;
  let _datavals := vals in
  neworder ← order_loop (_axesOrder o) _axnames (map (λ _, None) _axnames);
  let oldorder := used_loop neworder (seq 0 (length _axnames)) in
  neworder ← fill_loop neworder oldorder;
  vals ← Np.transpose neworder _datavals;
  data ← set_values data name vals;
  let _datavals := vals in
  names ← pick_names _axnames neworder;
  data ← set_axes data name names;
  let _axnames := names in
  if _squeeze o then
    let oldshape := Np.shape _datavals in
    data ← set_values data name (Np.squeeze _datavals);
    squeeze_loop (length _axnames) 0 _axnames oldshape name data
  else inr data.

(** [DataSelector.validate] *)
Definition validate (data : dataobj) : bool := true.

(** [DataSelector.processData] as a function of the object's attributes.
    The records of the returned dataset are updated in place in Python; the
    sharing of those records with the input is not part of this model. *)
Definition processData_res (nd : DNode) : exn + dataobj :=
  data ← getInputData nd;
  match data with
  | None => inr empty_dict
  | Some data =>
      if negb (validate data) then inr empty_dict else
      match _dataName (Engine._opts nd) with
      | None => inr empty_dict
      | Some name =>
          data ← (if hasattr_get_grid data && Engine._grid nd
                  then get_grid data (ArgName name)
                  else select_plain name data);
          if Engine._grid nd then
            items ← grid_block (Engine._opts nd) name (obj_items data);
            inr (mkObj (obj_kind data) items)
          else inr data
      end
  end.

Definition processData (nd : DNode) : @Engine.presult dataobj :=
  match processData_res nd with
  | inl e => Engine.PRaise e
  | inr d => Engine.PReturn (Some d)
  end.

End WithDatadict.

End DataSelector.

(** ** NodeBase.asGrid *)

Module AsGrid.

Import DataDicts.

Section WithDatadict.

(** From [datadict.py]: [dependents()], [remove_unused_axes()] (which
    changes the object in place; here it returns the changed object),
    [validate()] (an exception, or nothing) and [get_grid(names)]. *)
Variable dependents : dataobj → list string.
Variable remove_unused_axes : dataobj → dataobj.
Variable validate : dataobj → option exn.
Variable get_grid : dataobj → grid_arg → exn + dataobj.

(** [for r in remove: del data[r]] *)
Fixpoint del_all (remove : list string) (d : dict) : exn + dict :=
  match remove with
  | [] => inr d
  | r :: rest => d' ← dict_del r d; del_all rest d'
  end.

(** [asGrid(data, names, makeCopy)].  [data] is [None] for any object that
    is not a dataset; the result is [None] when the function ends without
    reaching a [return].  [copy.copy] changes which object is updated, not
    what is returned, so [makeCopy] does not show in the result. *)
Definition asGrid (data : option dataobj) (names : option (list string))
    (makeCopy : bool) : exn + option dataobj :=
  match data with
  | None => inl ValueError
  | Some o =>
      match obj_kind o with
      | GridDataDict =>
          match names with
          | Some ns =>
              let remove :=
                filter (λ n, (n ∉ ns) ∧ (n ∈ dependents o)) ((obj_items o).*1) in
              items ← del_all remove (obj_items o);
              let o' := remove_unused_axes (mkObj GridDataDict items) in
              match validate o' with
              | Some e => inl e
              | None => inr (Some o')
              end
          | None => inr None
          end
      | DataDict =>
          griddata ← get_grid o (match names with
                                 | None => ArgNone
                                 | Some ns => ArgNames ns
                                 end);
          match validate griddata with
          | Some e => inl e
          | None => inr (Some griddata)
          end
      | PlainDict => inl ValueError
      end
  end.

End WithDatadict.

End AsGrid.

(** ** Sample nodes

    Concrete node classes to run the engine on: datasets are lists of
    integers and the only option attribute is an integer offset. *)

Module Samples.

Import Engine.

Definition D : Type := list Z.

(** [self.getInputData()] *)
Definition input_of (nd : @Node D Z) : option D :=
  k ← closure_k nd; src ← lookup_source k (_sources nd); data src.

(** [processData] of three subclasses of [Node]: object 0 passes its input
    on, object 1 adds its offset to every number, any other object doubles
    every number. *)
Definition processData (n : nat) (nd : @Node D Z) : @presult D :=
  match n with
  | 0 => PReturn (input_of nd)
  | 1 => PReturn (map (Z.add (_opts nd)) <$> input_of nd)
  | _ => PReturn (map (Z.mul 2) <$> input_of nd)
  end.

Definition fresh : @Node D Z := NodeBase_init ["input"] 1%Z.

(** Three objects just constructed, nothing wired. *)
Definition three : @State D Z := mkState [fresh; fresh; fresh] [].

(** One object that is up to date. *)
Definition settled_one : @State D Z := mkState [set_uptodate true fresh] [].

(** One object that is marked running. *)
Definition running_one : @State D Z := mkState [set_running true fresh] [].

(** One object with [updateOnOptionChange] switched off. *)
Definition manual_one : @State D Z :=
  mkState [set_updateOnOptionChange false fresh] [].

(** An object of a class with [sources = ['a', 'b']]. *)
Definition two_slot : @Node D Z := NodeBase_init ["a"; "b"] 1%Z.

(** A one-source object and a two-source object, nothing wired. *)
Definition pair : @State D Z := mkState [fresh; two_slot] [].

(** Wire B (object 1) to A (object 0), then C (object 2) to B. *)
Definition wire_upstream_first : list (@Call D Z) :=
  [CallSetSource 1 "input" (Some 0); CallSetSource 2 "input" (Some 1)].

(** Push the dataset [[5]] into A, then call [run] on A. *)
Definition push_and_run : list (@Call D Z) :=
  [CallSetSourceData 0 "input" (Some [5%Z]); CallRun 0].

(** Wire C (object 2) to B (object 1), then B to A (object 0). *)
Definition wire_downstream_first : list (@Call D Z) :=
  [CallSetSource 2 "input" (Some 1); CallSetSource 1 "input" (Some 0)].

Definition state_of (o : @outcome D Z) (otherwise : @State D Z) : @State D Z :=
  match o with Ok s => s | _ => otherwise end.

(** The chain A -> B -> C wired from the bottom, after [[5]] has been pushed
    into A: every node is up to date, none is running, and the outputs are
    [[5]], [[6]] and [[12]]. *)
Definition chain : @State D Z :=
  Eval vm_compute in
    state_of (exec_all [] processData 20
                (wire_downstream_first
                   ++ [CallSetSourceData 0 "input" (Some [5%Z])]) three) three.

(** The chain wired from the bottom, with [updateOnSource] of A switched
    off, before any data is pushed. *)
Definition chain_manual : @State D Z :=
  Eval vm_compute in
    upd 0 (set_updateOnSource false)
      (state_of (exec_all [] processData 20 wire_downstream_first three) three).

(** The nodes whose [processData] was invoked, oldest first. *)
Definition processed (t : list (@Event D)) : list nat :=
  omap (λ e, match e with EvProcessData n => Some n | _ => None end) (rev t).

(** The output of node [n], when the node exists. *)
Definition output_of (n : nat) (s : @State D Z) : option (option D) :=
  _data <$> node n s.

(** The data stored for source [k] of node [n]. *)
Definition slot_data (n : nat) (k : string) (s : @State D Z) : option (option D) :=
  nd ← node n s; src ← lookup_source k (_sources nd); Some (data src).

(** One object with [updateOnSource] switched off. *)
Definition hand_fed : @State D Z :=
  mkState [set_updateOnSource false fresh] [].

(** An object whose only source refers to [other] and which is linked to
    [other] in both directions. *)
Definition looped (other : nat) : @Node D Z :=
  set_dataRequested [other]
    (set_dataProcessed [(other, "Input")]
       (set_sources [("input", mkSource (Some other) None)] fresh)).

(** Two objects wired in a circle: each is the source of the other. *)
Definition ring : @State D Z := mkState [looped 1; looped 0] [].

(** The sample chain after [run] has been called on B, and after it has
    been called on B once more. *)
Definition chain_rerun : @State D Z :=
  Eval vm_compute in state_of (run [] processData 20 1 chain) chain.

Definition chain_rerun_twice : @State D Z :=
  Eval vm_compute in state_of (run [] processData 20 1 chain_rerun) chain_rerun.

(** The sample chain after A has been assigned the output it already
    has. *)
Definition chain_reassigned : @State D Z :=
  Eval vm_compute in
    state_of (data_setter [] processData 20 0 (Some [5%Z]) chain) chain.

(** Three fresh objects after B (object 1) has been wired to A (object 0). *)
Definition linked : @State D Z :=
  Eval vm_compute in
    state_of (setSource [] processData 20 1 "input" (Some 0) three) three.

(** The two-source object of [pair] after its source [a] has been wired to
    the one-source object. *)
Definition pair_linked : @State D Z :=
  Eval vm_compute in
    state_of (setSource [] processData 20 1 "a" (Some 0) pair) pair.

(** A script on one object: push data, run, set the offset. *)
Definition poke : list (@Call D Z) :=
  [CallSetSourceData 0 "input" (Some [5%Z]); CallRun 0;
   CallUpdateOption 0 (setter_func (SetOption (λ _, 3%Z)))].

Definition running_one_poked : @State D Z :=
  Eval vm_compute in
    state_of (exec_all [] processData 5 poke running_one) running_one.

(** Three fresh objects of the class [Node] itself, after [run] on the
    first. *)
Definition three_plain_run : @State D Z :=
  Eval vm_compute in
    state_of (run [] (λ _, Node_processData) 5 0 three) three.

End Samples.

(** ** A sample grid *)

Module SampleGrid.

Import DataDicts DataSelector.

(** An array of the given shape whose element at an index is read off the
    index. *)
Definition arr (sh : list nat) : Np.ndarray :=
  Np.mkArray sh (fold_right (λ i acc, Z.of_nat i + 10 * acc)%Z 0%Z).

Definition rec_of (sh : list nat) (ax : option (list string)) : entry :=
  ERecord (mkField (Some (arr sh)) ax).

(** A field [z] over the axes [x] (with [nx] points) and [y] (with [ny]
    points). *)
Definition grid (nx ny : nat) : dataobj :=
  mkObj GridDataDict
    [("x", rec_of [nx] None); ("y", rec_of [ny] None);
     ("z", rec_of [nx; ny] (Some ["x"; "y"]))].

(** A [get_grid] for data that is gridded already: the grid itself. *)
Definition get_grid (o : dataobj) (a : grid_arg) : exn + dataobj := inr o.

(** A [DataSelector] with the given input data and options. *)
Definition selector_node (input : dataobj) (o : Options) : DNode :=
  Engine.set_opts o
    (Engine.set_sources [("input", Engine.mkSource None (Some input))] init).

(** Select [z], keep index 1 of [y] only, squeeze. *)
Definition pick_y1 : Options :=
  mkOptions (Some "z")
    [("y", Np.SelSlice (Np.mkSlice (Some 1%Z) (Some 2%Z) None))] [] true.

(** Select [z], keep index 1 of [y] and the first two points of [x], put
    [y] first, squeeze. *)
Definition pick_x2_y1_swapped : Options :=
  mkOptions (Some "z")
    [("y", Np.SelSlice (Np.mkSlice (Some 1%Z) (Some 2%Z) None));
     ("x", Np.SelSlice (Np.mkSlice None (Some 2%Z) None))]
    [("y", 0%Z)] true.

(** A field [w] over the axes [x], [y] and [t]. *)
Definition cube (nx ny nt : nat) : dataobj :=
  mkObj GridDataDict
    [("x", rec_of [nx] None); ("y", rec_of [ny] None); ("t", rec_of [nt] None);
     ("w", rec_of [nx; ny; nt] (Some ["x"; "y"; "t"]))].

(** Selecting a field by name with the other options as given. *)
Definition pick (name : string) (sq : bool) : Options :=
  mkOptions (Some name) [] [] sq.

(** Slice along a name that is no axis of [z]. *)
Definition pick_t0 : Options :=
  mkOptions (Some "z") [("t", Np.SelInt 0%Z)] [] true.

(** Stand-ins for the methods of [datadict.py] that [asGrid] calls: every
    entry with axes is a dependent, nothing is unused, everything is
    valid. *)
Definition dependents (o : dataobj) : list string :=
  omap (λ p, match p.2 with
             | ERecord f => match axes f with Some _ => Some p.1 | None => None end
             | EStr _ => None
             end) (obj_items o).

Definition remove_unused_axes (o : dataobj) : dataobj := o.

Definition validate (o : dataobj) : option exn := None.

End SampleGrid.

(** * Properties of the engine *)

Import Engine.

Section EngineFacts.

Context {Data Opts : Type}.
Variable empty_dict : Data.
Variable processData : nat → @Node Data Opts → @presult Data.

Abbreviation Node := (@Node Data Opts).
Abbreviation State := (@State Data Opts).
Abbreviation outcome := (@outcome Data Opts).
Abbreviation run := (run empty_dict processData).
Abbreviation setSourceData := (setSourceData empty_dict processData).
Abbreviation broadcastData := (broadcastData empty_dict processData).
Abbreviation data_setter := (data_setter empty_dict processData).
Abbreviation emit_dataProcessed := (emit_dataProcessed empty_dict processData).
Abbreviation run_sources := (run_sources empty_dict processData).
Abbreviation setSource := (setSource empty_dict processData).
Abbreviation updateOption := (updateOption empty_dict processData).
Abbreviation exec := (exec empty_dict processData).
Abbreviation exec_all := (exec_all empty_dict processData).
Abbreviation normalize := (normalize empty_dict).

Implicit Types (s : State) (nd : Node) (n m : nat).

(** ** Heap access *)

Lemma node_upd_eq n f s : node n (upd n f s) = f <$> node n s.
Proof. unfold node, upd; simpl. apply list_lookup_alter_eq. Qed.

Lemma node_upd_ne n m f s : n ≠ m → node m (upd n f s) = node m s.
Proof. intros H. unfold node, upd; simpl. by apply list_lookup_alter_ne. Qed.

Lemma node_log n e s : node n (log e s) = node n s.
Proof. reflexivity. Qed.

Lemma trace_upd n f s : trace (upd n f s) = trace s.
Proof. reflexivity. Qed.

Lemma node_upd n m f s :
  node m (upd n f s) = if decide (n = m) then f <$> node m s else node m s.
Proof.
  destruct (decide (n = m)) as [->|Hne].
  - apply node_upd_eq.
  - by apply node_upd_ne.
Qed.

(** ** Re-entrant calls of [run] *)

(** C2. When [_running] is set, [run] logs its own entry and clears
    [_uptodate]; it calls neither [run] of a source nor [processData], and
    nothing else in the heap changes. *)
Theorem run_reentrant fuel n s nd :
  node n s = Some nd →
  _running nd = true →
  run (S fuel) n s
    = Ok (mkState (alter (set_uptodate false) n (heap s)) (EvRun n :: trace s))
  ∧ node n (mkState (alter (set_uptodate false) n (heap s)) (EvRun n :: trace s))
    = Some (mkNode (_sources nd) (_updateOnSource nd) false (_data nd)
              (_updateOnOptionChange nd) true (_grid nd) (_opts nd)
              (dataProcessed nd) (dataRequested nd))
  ∧ ∀ m, m ≠ n →
      node m (mkState (alter (set_uptodate false) n (heap s)) (EvRun n :: trace s))
      = node m s.
Proof.
  intros Hn Hr. split; [|split].
  - simpl. rewrite Hn. unfold run_body_with. rewrite Hr. reflexivity.
  - change (node n (upd n (set_uptodate false) (log (EvRun n) s)) = Some
      (mkNode (_sources nd) (_updateOnSource nd) false (_data nd)
              (_updateOnOptionChange nd) true (_grid nd) (_opts nd)
              (dataProcessed nd) (dataRequested nd))).
    rewrite node_upd_eq, node_log, Hn. simpl. unfold set_uptodate.
    by rewrite Hr.
  - intros m Hm.
    change (node m (upd n (set_uptodate false) (log (EvRun n) s)) = node m s).
    rewrite node_upd_ne by done. apply node_log.
Qed.

(** ** Option setters *)

(** C5. With [_updateOnOptionChange] off, a setter wrapped by [updateOption]
    stores the option and clears [_uptodate]; the output, the source data
    and [_running] stay as they were, no other node changes, and nothing is
    emitted or run. *)
Theorem updateOption_disabled (st : setter) fuel n s nd :
  node n s = Some nd →
  _updateOnOptionChange nd = false →
  ∃ s' nd',
    updateOption (setter_func st) fuel n s = Ok s'
    ∧ node n s' = Some nd'
    ∧ match st with
      | SetGrid val => _grid nd' = val ∧ _opts nd' = _opts nd
      | SetOption store => _opts nd' = store (_opts nd) ∧ _grid nd' = _grid nd
      end
    ∧ _uptodate nd' = false
    ∧ _data nd' = _data nd
    ∧ _sources nd' = _sources nd
    ∧ _running nd' = _running nd
    ∧ (∀ m, m ≠ n → node m s' = node m s)
    ∧ trace s' = trace s.
Proof.
  intros Hn Hf.
  exists (upd n (λ x, set_uptodate false (setter_func st x)) s),
         (set_uptodate false (setter_func st nd)).
  split.
  { unfold Engine.updateOption. rewrite Hn.
    replace (_updateOnOptionChange (setter_func st nd)) with false; [done|].
    by destruct st. }
  split; [by rewrite node_upd_eq, Hn|].
  repeat split; try (by destruct st).
  intros m Hm. by rewrite node_upd_ne.
Qed.

(** ** Wiring *)

(** C6. [setSource] with a name that is not a key of [_sources] raises
    [ValueError] at once, in the very state it was called in. *)
Theorem setSource_unrecognized fuel n k r s nd :
  node n s = Some nd →
  k ∉ keys (_sources nd) →
  setSource fuel n k r s = Raise ValueError s.
Proof.
  intros Hn Hk. unfold Engine.setSource. rewrite Hn.
  replace (has_source k (_sources nd)) with false; [done|].
  unfold has_source. symmetry.
  assert (lookup_source k (_sources nd) = None) as ->; [|done].
  revert Hk. unfold keys. induction (_sources nd) as [|[k' x] l IH]; simpl; [done|].
  intros Hk. destruct (String.eqb_spec k k') as [->|Hne].
  - exfalso. apply Hk. left.
  - apply IH. intros H. apply Hk. by right.
Qed.

(** ** The shape of an execution *)

Lemma bind_final (o : outcome) (k : State → outcome) s' :
  final (bind o k) = Some s' →
  (∃ e, o = Raise e s') ∨ (∃ s1, o = Ok s1 ∧ final (k s1) = Some s').
Proof.
  destruct o as [s1|e s1|]; simpl; intros H.
  - right. eauto.
  - left. exists e. by inversion H.
  - done.
Qed.

Lemma bind_ok (o : outcome) (k : State → outcome) s' :
  bind o k = Ok s' → ∃ s1, o = Ok s1 ∧ k s1 = Ok s'.
Proof. destruct o as [s1|e s1|]; simpl; intros H; [eauto|done..]. Qed.

Lemma final_ok (o : outcome) s' : o = Ok s' → final o = Some s'.
Proof. by intros ->. Qed.

Section Shapes.

Variable run_rec : nat → State → outcome.

(** An invariant that every call made by a loop keeps is kept by the loop. *)
Lemma emit_dataProcessed_with_inv (I : State → Prop) conns v s s' :
  I s →
  (∀ recv attr s1 s2, (recv, attr) ∈ conns → I s1 →
     final (call_setfunc_with run_rec recv v s1) = Some s2 → I s2) →
  final (emit_dataProcessed_with run_rec conns v s) = Some s' → I s'.
Proof.
  revert s. induction conns as [|[recv attr] r IH]; intros s Hs Hstep Hf.
  - simpl in Hf. by inversion Hf; subst.
  - simpl in Hf. apply bind_final in Hf as [[e He]|(s1 & H1 & Hf)].
    + apply (Hstep recv attr s s'); [left|done|]. by rewrite He.
    + apply (IH s1); [|intros r0 a0 ?? Hin; apply (Hstep r0 a0); by right|done].
      apply (Hstep recv attr s s1); [left|done|]. by rewrite H1.
Qed.

Lemma run_sources_with_inv (I : State → Prop) self ks s s' :
  I s →
  (∀ up s1 s2, is_ref s1 self up → I s1 →
     final (run_rec up s1) = Some s2 → I s2) →
  final (run_sources_with run_rec self ks s) = Some s' → I s'.
Proof.
  revert s. induction ks as [|k r IH]; intros s Hs Hstep Hf.
  - simpl in Hf. by inversion Hf; subst.
  - simpl in Hf.
    destruct (node self s) as [nd|] eqn:Hn; simpl in Hf;
      [|by inversion Hf; subst].
    destruct (lookup_source k (_sources nd)) as [src|] eqn:Hk;
      [|by inversion Hf; subst].
    destruct (ref src) as [up|] eqn:Hr; [|by apply (IH s)].
    assert (is_ref s self up) as Href by (by exists nd, k, src).
    apply bind_final in Hf as [[e He]|(s1 & H1 & Hf)].
    + apply (Hstep up s s'); [done..|]. by rewrite He.
    + apply (IH s1); [|done..].
      apply (Hstep up s s1); [done..|]. by rewrite H1.
Qed.

(** What a call of a connected slot comes down to. *)
Lemma call_setfunc_with_inv recv v s s' :
  final (call_setfunc_with run_rec recv v s) = Some s' →
  s' = s ∨
  ∃ nd k, node recv s = Some nd ∧ closure_k nd = Some k
    ∧ has_source k (_sources nd) = true
    ∧ ((_updateOnSource nd = false ∧ s' = upd recv (ssd_write k v) s)
       ∨ (_updateOnSource nd = true
          ∧ final (run_rec recv (upd recv (ssd_write k v) s)) = Some s')).
Proof.
  unfold call_setfunc_with, setSourceData_with.
  destruct (node recv s) as [nd|] eqn:Hn; [|intros [= <-]; by left].
  destruct (closure_k nd) as [k|] eqn:Hk; [|intros [= <-]; by left].
  destruct (has_source k (_sources nd)) eqn:Hh; [|intros [= <-]; by left].
  intros Hf. right. exists nd, k. repeat split; try done.
  destruct (_updateOnSource nd).
  - by right.
  - left. split; [done|]. by inversion Hf.
Qed.

End Shapes.

(** The shape of a call of [run], whatever its end. *)
Lemma run_inv fuel n s s' :
  final (run (S fuel) n s) = Some s' →
  (node n s = None ∧ s' = s) ∨
  ∃ nd, node n s = Some nd ∧
    ((_running nd = true ∧ s' = upd n (set_uptodate false) (log (EvRun n) s))
     ∨ (_running nd = false ∧ ∃ s2,
         final (run_sources fuel n (keys (_sources nd))
                  (upd n (set_running true) (log (EvRun n) s))) = Some s2
         ∧ (s' = s2
            ∨ ∃ nd2, node n s2 = Some nd2 ∧ _uptodate nd2 = false
                ∧ ((∃ e, processData n nd2 = PRaise e)
                     ∧ s' = log (EvProcessData n) s2
                   ∨ ∃ v s3, processData n nd2 = PReturn v
                       ∧ final (broadcastData fuel n
                                  (upd n (set__data (normalize v))
                                     (log (EvProcessData n) s2))) = Some s3
                       ∧ (s' = s3 ∨ s' = upd n fin_write s3))))).
Proof.
  simpl. destruct (node n s) as [nd|] eqn:Hn; [|intros [= <-]; by left].
  intros Hf. right. exists nd. split; [done|].
  unfold run_body_with in Hf.
  destruct (_running nd) eqn:Hr; simpl in Hf.
  { left. split; [done|]. by inversion Hf. }
  right. split; [done|]. unfold Engine.run_sources.
  apply bind_final in Hf as [[e He]|(s2 & H2 & Hf)].
  { exists s'. split; [by rewrite He|by left]. }
  exists s2. split; [by rewrite H2|].
  destruct (node n s2) as [nd2|] eqn:Hn2; [|left; by inversion Hf].
  destruct (_uptodate nd2) eqn:Hu; simpl in Hf; [left; by inversion Hf|].
  right. exists nd2. split; [done|]. split; [done|].
  destruct (processData n nd2) as [v|e] eqn:Hp.
  - right. exists v.
    apply bind_final in Hf as [[e He]|(s3 & H3 & Hf)].
    + exists s'. split; [done|]. split; [|by left].
      unfold data_setter_with in He.
      unfold Engine.broadcastData. by rewrite He.
    + exists s3. split; [done|]. split; [|right; by inversion Hf].
      unfold data_setter_with in H3.
      unfold Engine.broadcastData. by rewrite H3.
  - left. split; [by exists e|]. by inversion Hf.
Qed.

(** The shape of a call of [broadcastData]. *)
Lemma broadcastData_inv fuel n s s' :
  final (broadcastData fuel n s) = Some s' →
  (node n s = None ∧ s' = s) ∨
  ∃ nd, node n s = Some nd
    ∧ final (emit_dataProcessed fuel (dataProcessed nd) (_data nd)
               (log (EvDataProcessed n (_data nd)) s)) = Some s'.
Proof.
  unfold Engine.broadcastData, broadcastData_with.
  destruct (node n s) as [nd|] eqn:Hn; [|intros [= <-]; by left].
  intros Hf. right. by exists nd.
Qed.

(** ** What the [run] family leaves alone *)

Lemma same_wiring_refl nd : same_wiring nd nd.
Proof. by split. Qed.

Lemma same_wiring_trans nd1 nd2 nd3 :
  same_wiring nd1 nd2 → same_wiring nd2 nd3 → same_wiring nd1 nd3.
Proof. intros [] []. split; congruence. Qed.

Lemma frame_refl s : frame s s.
Proof.
  split.
  - intros n. destruct (node n s) as [nd|] eqn:Hn; [|done].
    exists nd. split; [done|apply same_wiring_refl].
  - by exists [].
Qed.

Lemma frame_trans s1 s2 s3 : frame s1 s2 → frame s2 s3 → frame s1 s3.
Proof.
  intros [H12 [n12 E12]] [H23 [n23 E23]]. split.
  - intros n. specialize (H12 n). specialize (H23 n).
    destruct (node n s1) as [nd1|].
    + destruct H12 as (nd2 & Hn2 & Hw12). rewrite Hn2 in H23.
      destruct H23 as (nd3 & Hn3 & Hw23). exists nd3. split; [done|].
      by eapply same_wiring_trans.
    + by rewrite H12 in H23.
  - exists (n23 ++ n12). by rewrite E23, E12, (assoc_L (++)).
Qed.

Lemma frame_log e s : frame s (log e s).
Proof.
  split.
  - intros n. rewrite node_log. destruct (node n s) as [nd|]; [|done].
    exists nd. split; [done|apply same_wiring_refl].
  - by exists [e].
Qed.

Lemma frame_upd n f s : (∀ nd, same_wiring nd (f nd)) → frame s (upd n f s).
Proof.
  intros Hf. split.
  - intros m. rewrite node_upd. destruct (node m s) as [nd|] eqn:Hm.
    + destruct (decide (n = m)); simpl.
      * exists (f nd). by split.
      * exists nd. split; [done|apply same_wiring_refl].
    + by destruct (decide (n = m)).
  - by exists [].
Qed.

Lemma wiring_of_alter_data (g : @Source Data → @Source Data) k l :
  (∀ x, ref (g x) = ref x) →
  map (λ p : string * @Source Data, (p.1, ref p.2)) (alter_source g k l)
  = map (λ p : string * @Source Data, (p.1, ref p.2)) l.
Proof.
  intros Hg. induction l as [|[k' x] r IH]; simpl; [done|].
  destruct (String.eqb k k'); simpl; [by rewrite Hg|by rewrite IH].
Qed.

Lemma same_wiring_ssd_write k v nd : same_wiring nd (ssd_write k v nd).
Proof.
  split; try done. unfold wiring_of; simpl. by apply wiring_of_alter_data.
Qed.

Local Hint Resolve frame_refl frame_log same_wiring_ssd_write : core.

Lemma frame_log_r e s x : frame s x → frame s (log e x).
Proof. intros H. eapply frame_trans; [exact H|apply frame_log]. Qed.

Lemma frame_upd_r n f s x :
  (∀ nd, same_wiring nd (f nd)) → frame s x → frame s (upd n f x).
Proof. intros Hf H. eapply frame_trans; [exact H|by apply frame_upd]. Qed.

Ltac frame_steps :=
  repeat first
    [ apply frame_log_r
    | apply frame_upd_r;
        [intros; first [by split | apply same_wiring_ssd_write]|] ];
  try first [assumption | apply frame_refl].

(** Every call of [run] keeps the wiring and only adds to the log. *)
Lemma run_frame fuel n : sat (run fuel n) frame.
Proof.
  revert n. induction fuel as [|fuel IH]; intros n s s' Hf; [done|].
  apply run_inv in Hf as [[_ ->]|(nd & Hn & [[_ ->]|(_ & s2 & H2 & Hrest)])];
    [apply frame_refl|by frame_steps|].
  assert (frame s s2) as F2.
  { eapply (run_sources_with_inv _ (frame s)); [| |exact H2].
    - by frame_steps.
    - intros up s1 s3 _ F1 H3. eapply frame_trans; [exact F1|]. by apply (IH up). }
  destruct Hrest as [->|(nd2 & Hn2 & Hu2 & [[_ ->]|(v & s3 & Hp & H3 & Hend)])];
    [done|by frame_steps| ].
  assert (frame s s3) as F3.
  { apply broadcastData_inv in H3 as [[_ ->]|(nd3 & Hn3 & H3)]; [by frame_steps|].
    eapply (emit_dataProcessed_with_inv _ (frame s)); [| |exact H3].
    + by frame_steps.
    + intros recv attr s4 s5 _ F4 H5.
      apply call_setfunc_with_inv in H5
        as [->|(nd5 & k & _ & _ & _ & [[_ ->]|[_ H5]])]; [done|by frame_steps|].
      eapply frame_trans; [|by apply (IH recv)]. by frame_steps. }
  destruct Hend as [->| ->]; [done|by frame_steps].
Qed.

Lemma static_is_parent s s' P U :
  static s s' → is_parent s' P U ↔ is_parent s P U.
Proof.
  intros Hst. specialize (Hst P). unfold is_parent. split.
  - intros (nd' & attr & Hn' & Hin).
    destruct (node P s) as [nd|]; [|congruence].
    destruct Hst as (nd'' & Hn'' & Hw). exists nd, attr. split; [done|].
    assert (nd'' = nd') as -> by congruence. by rewrite <-(sw_dataProcessed _ _ Hw).
  - intros (nd & attr & Hn & Hin). rewrite Hn in Hst.
    destruct Hst as (nd' & Hn' & Hw). exists nd', attr. split; [done|].
    by rewrite (sw_dataProcessed _ _ Hw).
Qed.

Lemma lookup_source_wiring k (l l' : list (string * @Source Data)) :
  map (λ p : string * @Source Data, (p.1, ref p.2)) l'
  = map (λ p : string * @Source Data, (p.1, ref p.2)) l →
  ref <$> lookup_source k l' = ref <$> lookup_source k l.
Proof.
  revert l'. induction l as [|[k1 x1] l IH]; intros [|[k2 x2] l'] H;
    simpl in *; try done.
  inversion H; subst. destruct (String.eqb k k1); simpl; [by f_equal|by apply IH].
Qed.

Lemma static_is_ref s s' U P :
  static s s' → is_ref s' U P ↔ is_ref s U P.
Proof.
  intros Hst. specialize (Hst U). unfold is_ref. split.
  - intros (nd' & k & src' & Hn' & Hk & Hr).
    destruct (node U s) as [nd|]; [|congruence].
    destruct Hst as (nd'' & Hn'' & Hw). assert (nd'' = nd') as -> by congruence.
    pose proof (lookup_source_wiring k _ _ (sw_sources _ _ Hw)) as Hl.
    rewrite Hk in Hl. simpl in Hl.
    destruct (lookup_source k (_sources nd)) as [src|] eqn:Hk0; [|done].
    exists nd, k, src. repeat split; try done. simpl in Hl. congruence.
  - intros (nd & k & src & Hn & Hk & Hr). rewrite Hn in Hst.
    destruct Hst as (nd' & Hn' & Hw).
    pose proof (lookup_source_wiring k _ _ (sw_sources _ _ Hw)) as Hl.
    rewrite Hk in Hl. simpl in Hl.
    destruct (lookup_source k (_sources nd')) as [src'|] eqn:Hk0; [|done].
    exists nd', k, src'. repeat split; try done. simpl in Hl. congruence.
Qed.

Lemma logged_between_log s x e : extends s x → logged_between s (log e x) e.
Proof.
  intros [new Hnew]. exists (e :: new). split; [simpl; by rewrite Hnew|left].
Qed.

Lemma logged_between_mono s x y e :
  extends x y → logged_between s x e → logged_between s y e.
Proof.
  intros [n2 H2] (n1 & H1 & Hin). exists (n2 ++ n1).
  split; [by rewrite H2, H1, (assoc_L (++))|]. apply elem_of_app. by right.
Qed.

(** ** A proof skeleton for [run]

    A relation between the state a call starts in and the states it goes
    through holds for every call of [run] as soon as it is kept by each
    write of [run], [setSourceData] and the [data] setter, under the
    conditions in which that write happens. *)

Section Skeleton.

Variable R : State → State → Prop.

Hypothesis R_refl : ∀ s, R s s.
Hypothesis R_trans : ∀ s1 s2 s3,
  frame s1 s2 → frame s2 s3 → R s1 s2 → R s2 s3 → R s1 s3.
Hypothesis R_reenter : ∀ n s nd,
  node n s = Some nd → _running nd = true →
  R s (upd n (set_uptodate false) (log (EvRun n) s)).
Hypothesis R_enter : ∀ n s nd,
  node n s = Some nd → _running nd = false →
  R s (upd n (set_running true) (log (EvRun n) s)).
Hypothesis R_process : ∀ n s nd x,
  node n s = Some nd → _running nd = false → frame s x → R s x →
  R s (log (EvProcessData n) x).
Hypothesis R_output : ∀ n s nd x v,
  node n s = Some nd → _running nd = false → frame s x → R s x →
  logged_between s x (EvProcessData n) →
  R s (log (EvDataProcessed n v) (upd n (set__data v) x)).
Hypothesis R_deliver : ∀ n s x recv k v,
  is_parent s n recv → frame s x → R s x →
  logged_between s x (EvDataProcessed n v) →
  R s (upd recv (ssd_write k v) x).
Hypothesis R_finish : ∀ n s nd x,
  node n s = Some nd → _running nd = false → frame s x → R s x →
  logged_between s x (EvProcessData n) →
  R s (upd n fin_write x).

Lemma run_skeleton fuel n : sat (run fuel n) R.
Proof.
  revert n. induction fuel as [|fuel IH]; intros n s s' Hf; [done|].
  apply run_inv in Hf as [[_ ->]|(nd & Hn & [[Hr ->]|(Hr & s2 & H2 & Hrest)])];
    [done|by eapply R_reenter|].
  assert (frame s s2 ∧ R s s2) as [F2 R2].
  { eapply (run_sources_with_inv _ (λ x, frame s x ∧ R s x)); [| |exact H2].
    - split; [by frame_steps|by eapply R_enter].
    - intros up s1 s3 _ [F1 R1] H3.
      pose proof (run_frame fuel up _ _ H3) as F13.
      split; [by eapply frame_trans|].
      eapply R_trans; [exact F1|exact F13|exact R1|by apply (IH up)]. }
  destruct Hrest as [->|(nd2 & Hn2 & Hu2 & [[_ ->]|(v & s3 & Hp & H3 & Hend)])];
    [done|by eapply R_process|].
  assert (logged_between s (log (EvProcessData n) s2) (EvProcessData n)) as L2.
  { apply logged_between_log, F2. }
  assert (frame s s3 ∧ R s s3 ∧ logged_between s s3 (EvProcessData n))
    as (F3 & R3 & L3).
  { apply broadcastData_inv in H3 as [[Hnone ->]|(nd3 & Hn3 & H3)].
    { rewrite node_upd_eq, node_log, Hn2 in Hnone. done. }
    rewrite node_upd_eq, node_log, Hn2 in Hn3. simpl in Hn3.
    inversion Hn3; subst nd3; clear Hn3. simpl in H3.
    assert (frame s (log (EvProcessData n) s2)) as F2' by frame_steps.
    assert (R s (log (EvProcessData n) s2)) as R2' by (by eapply R_process).
    set (sb := log (EvDataProcessed n (normalize v))
                 (upd n (set__data (normalize v)) (log (EvProcessData n) s2))) in *.
    assert (frame s sb) as Fb by (subst sb; frame_steps).
    enough (frame s s3 ∧ R s s3 ∧ logged_between s s3 (EvProcessData n)
            ∧ logged_between s s3 (EvDataProcessed n (normalize v)))
      as (?&?&?&?) by done.
    eapply (emit_dataProcessed_with_inv _
              (λ x, frame s x ∧ R s x ∧ logged_between s x (EvProcessData n)
                    ∧ logged_between s x (EvDataProcessed n (normalize v))));
      [| |exact H3].
    - split; [done|]. split; [subst sb; by eapply R_output|]. split.
      + eapply logged_between_mono; [|exact L2]. subst sb.
        exists [EvDataProcessed n (normalize v)]. done.
      + subst sb. apply logged_between_log.
        eapply frame_trans; [exact F2'|]. by apply frame_upd.
    - intros recv attr s4 s5 Hin (F4 & R4 & L4 & L4') H5.
      assert (is_parent s n recv) as Hpar.
      { destruct F2 as [St2 _]. specialize (St2 n). rewrite Hn in St2.
        destruct St2 as (nd2' & Hn2' & Hw).
        assert (nd2' = nd2) as -> by congruence.
        exists nd, attr. split; [done|].
        by rewrite <-(sw_dataProcessed _ _ Hw). }
      apply call_setfunc_with_inv in H5
        as [->|(nd5 & k & _ & _ & _ & [[_ ->]|[_ H5]])]; [done| |].
      + split; [by frame_steps|]. split; [by eapply R_deliver|].
        split; eapply logged_between_mono; try eassumption; by exists [].
      + pose proof (run_frame fuel recv _ _ H5) as F5.
        assert (frame s (upd recv (ssd_write k (normalize v)) s4)) as F4'
          by frame_steps.
        split; [by eapply frame_trans|]. split.
        * eapply R_trans; [exact F4'|exact F5| |by apply (IH recv)].
          by eapply R_deliver.
        * split; (eapply logged_between_mono; [apply F5|]);
            (eapply logged_between_mono; [|eassumption]); by exists []. }
  destruct Hend as [->| ->]; [done|]. by eapply R_finish.
Qed.

End Skeleton.

(** ** A node marked running is not recomputed *)

Lemma keeps_running_refl s : keeps_running s s.
Proof.
  exists []. split; [done|]. intros n nd Hn Hr. exists nd.
  repeat split; try done; intros; apply not_elem_of_nil.
Qed.

Lemma keeps_running_trans s1 s2 s3 :
  keeps_running s1 s2 → keeps_running s2 s3 → keeps_running s1 s3.
Proof.
  intros (n12 & E12 & H12) (n23 & E23 & H23). exists (n23 ++ n12).
  split; [by rewrite E23, E12, (assoc_L (++))|].
  intros n nd Hn Hr.
  destruct (H12 n nd Hn Hr) as (nd2 & Hn2 & Hr2 & Hd2 & Hu2 & Hp2 & Hb2).
  destruct (H23 n nd2 Hn2 Hr2) as (nd3 & Hn3 & Hr3 & Hd3 & Hu3 & Hp3 & Hb3).
  exists nd3. repeat split; try done; try congruence.
  - auto.
  - rewrite elem_of_app. tauto.
  - intros v. rewrite elem_of_app. specialize (Hb2 v). specialize (Hb3 v). tauto.
Qed.

(** One more step, which logs [evs] and keeps what matters of each node
    that was running at the start. *)
Lemma keeps_running_step s x y evs :
  keeps_running s x →
  trace y = evs ++ trace x →
  (∀ n nd, node n s = Some nd → _running nd = true →
     (EvProcessData n ∉ evs) ∧ (∀ v, EvDataProcessed n v ∉ evs)
     ∧ ∀ ndx, node n x = Some ndx → _running ndx = true →
         ∃ ndy, node n y = Some ndy ∧ _running ndy = true
           ∧ _data ndy = _data ndx
           ∧ (_uptodate ndx = false → _uptodate ndy = false)) →
  keeps_running s y.
Proof.
  intros (new & E & H) Ey Hstep. exists (evs ++ new).
  split; [by rewrite Ey, E, (assoc_L (++))|].
  intros n nd Hn Hr.
  destruct (H n nd Hn Hr) as (ndx & Hnx & Hrx & Hdx & Hux & Hpx & Hbx).
  destruct (Hstep n nd Hn Hr) as (Hp & Hb & Hy).
  destruct (Hy ndx Hnx Hrx) as (ndy & Hny & Hry & Hdy & Huy).
  exists ndy. repeat split; try done; try congruence.
  - auto.
  - rewrite elem_of_app. tauto.
  - intros v. rewrite elem_of_app. specialize (Hb v). specialize (Hbx v). tauto.
Qed.

Ltac kr_node :=
  intros ? ? ?;
  rewrite ?node_log, ?node_upd, ?node_log;
  repeat case_decide; subst; simplify_eq/=;
  repeat match goal with H : node _ _ = Some _ |- _ => rewrite H end;
  simpl; eauto 10.

Lemma run_keeps_running fuel n : sat (run fuel n) keeps_running.
Proof.
  apply run_skeleton.
  - apply keeps_running_refl.
  - intros ??? _ _. apply keeps_running_trans.
  - intros m s nd Hm Hr.
    eapply (keeps_running_step s s _ [EvRun m]);
      [apply keeps_running_refl|done|].
    intros k ndk Hk Hrk. split; [by intros ?%list_elem_of_singleton|].
    split; [by intros v ?%list_elem_of_singleton|]. kr_node.
  - intros m s nd Hm Hr.
    eapply (keeps_running_step s s _ [EvRun m]);
      [apply keeps_running_refl|done|].
    intros k ndk Hk Hrk. split; [by intros ?%list_elem_of_singleton|].
    split; [by intros v ?%list_elem_of_singleton|]. kr_node.
  - intros m s nd x Hm Hr _ HR.
    eapply (keeps_running_step s x _ [EvProcessData m]); [done|done|].
    intros k ndk Hk Hrk.
    assert (k ≠ m) by (intros ->; congruence).
    split; [intros ?%list_elem_of_singleton; congruence|].
    split; [by intros v ?%list_elem_of_singleton|]. kr_node.
  - intros m s nd x v Hm Hr _ HR _.
    eapply (keeps_running_step s x _ [EvDataProcessed m v]); [done|done|].
    intros k ndk Hk Hrk.
    assert (k ≠ m) by (intros ->; congruence).
    split; [by intros ?%list_elem_of_singleton|].
    split; [intros v' ?%list_elem_of_singleton; congruence|]. kr_node.
  - intros m s x recv k v _ _ HR _.
    eapply (keeps_running_step s x _ []); [done|done|].
    intros j ndj Hj Hrj. split; [apply not_elem_of_nil|].
    split; [intros; apply not_elem_of_nil|]. kr_node.
  - intros m s nd x Hm Hr _ HR _.
    eapply (keeps_running_step s x _ []); [done|done|].
    intros k ndk Hk Hrk.
    assert (k ≠ m) by (intros ->; congruence).
    split; [apply not_elem_of_nil|].
    split; [intros; apply not_elem_of_nil|]. kr_node.
Qed.

Lemma run_sources_keeps_running fuel n ks :
  sat (run_sources fuel n ks) keeps_running.
Proof.
  intros s s' Hf.
  eapply (run_sources_with_inv _ (keeps_running s)); [| |exact Hf].
  - apply keeps_running_refl.
  - intros up s1 s2 _ H1 H2. eapply keeps_running_trans; [exact H1|].
    by apply (run_keeps_running fuel up).
Qed.

Lemma exec_all_runs_keep_running fuel (ms : list nat) :
  sat (exec_all fuel (CallRun <$> ms)) keeps_running.
Proof.
  induction ms as [|m ms IH]; intros s s' Hf; simpl in Hf.
  - inversion Hf; subst. apply keeps_running_refl.
  - apply bind_final in Hf as [[e He]|(s1 & H1 & Hf)].
    + apply (run_keeps_running fuel m). by rewrite He.
    + eapply keeps_running_trans; [|by apply IH].
      apply (run_keeps_running fuel m). by rewrite H1.
Qed.

(** C3. A call of [run] on a node that is not running and that is still up
    to date once its sources have run returns with [_running] set.  From
    then on, whatever calls of [run] follow, on whichever nodes, the node
    stays marked running, keeps its output and is never recomputed: each
    further call of [run] on it only clears [_uptodate]. *)
Theorem run_noop_leaves_running fuel n s nd s2 nd2 :
  node n s = Some nd →
  _running nd = false →
  run_sources fuel n (keys (_sources nd))
    (upd n (set_running true) (log (EvRun n) s)) = Ok s2 →
  node n s2 = Some nd2 →
  _uptodate nd2 = true →
  run (S fuel) n s = Ok s2
  ∧ _running nd2 = true
  ∧ ∀ fuel' (ms : list nat) s3,
      final (exec_all fuel' (CallRun <$> ms) s2) = Some s3 →
      ∃ nd3 new,
        node n s3 = Some nd3
        ∧ _running nd3 = true
        ∧ _data nd3 = _data nd2
        ∧ trace s3 = new ++ trace s2
        ∧ (EvProcessData n ∉ new)
        ∧ ∀ fuel'', run (S fuel'') n s3
                    = Ok (upd n (set_uptodate false) (log (EvRun n) s3)).
Proof.
  intros Hn Hr H2 Hn2 Hu2.
  assert (_running nd2 = true) as Hr2.
  { pose proof (run_sources_keeps_running _ _ _ _ _ (final_ok _ _ H2))
      as (new & _ & Hk).
    destruct (Hk n (set_running true nd)) as (nd' & Hn' & Hr' & _); [|done|].
    - by rewrite node_upd_eq, node_log, Hn.
    - congruence. }
  split; [|split; [done|]].
  - simpl. rewrite Hn. unfold run_body_with. rewrite Hr. simpl.
    unfold Engine.run_sources in H2. rewrite H2. simpl. by rewrite Hn2, Hu2.
  - intros fuel' ms s3 Hf.
    destruct (exec_all_runs_keep_running _ _ _ _ Hf) as (new & E & Hk).
    destruct (Hk n nd2 Hn2 Hr2) as (nd3 & Hn3 & Hr3 & Hd3 & _ & Hp3 & _).
    exists nd3, new. repeat split; try done.
    intros fuel''. simpl. rewrite Hn3. unfold run_body_with. by rewrite Hr3.
Qed.

(** ** The data setter *)

Lemma setSourceData_frame fuel n k v : sat (setSourceData fuel n k v) frame.
Proof.
  intros s s'. unfold Engine.setSourceData, setSourceData_with.
  destruct (node n s) as [nd|]; [|intros [= <-]; apply frame_refl].
  destruct (has_source k (_sources nd)); [|intros [= <-]; apply frame_refl].
  destruct (_updateOnSource nd).
  - intros Hf. eapply frame_trans; [|by apply (run_frame fuel n)]. by frame_steps.
  - intros [= <-]. by frame_steps.
Qed.

Lemma emit_dataProcessed_frame fuel conns v :
  sat (emit_dataProcessed fuel conns v) frame.
Proof.
  intros s s' Hf.
  eapply (emit_dataProcessed_with_inv _ (frame s)); [apply frame_refl| |exact Hf].
  intros recv attr s1 s2 _ F1 H2. eapply frame_trans; [exact F1|].
  apply call_setfunc_with_inv in H2
    as [->|(nd & k & _ & _ & _ & [[_ ->]|[_ H2]])];
    [apply frame_refl|by frame_steps|].
  eapply frame_trans; [|by apply (run_frame fuel recv)]. by frame_steps.
Qed.

(** ** Changes leave traces *)

Lemma tracks_refl s : tracks s s.
Proof.
  exists []. split; [done|]. split; [by intros ?? ?%not_elem_of_nil|].
  intros X nd Hn. exists nd. by repeat split.
Qed.

Lemma tracks_trans s1 s2 s3 :
  frame s1 s2 → frame s2 s3 → tracks s1 s2 → tracks s2 s3 → tracks s1 s3.
Proof.
  intros [St12 _] _ (n12 & E12 & B12 & H12) (n23 & E23 & B23 & H23).
  exists (n23 ++ n12). split; [by rewrite E23, E12, (assoc_L (++))|]. split.
  { intros P v [Hin|Hin]%elem_of_app; apply elem_of_app; eauto. }
  intros X nd Hn.
  destruct (H12 X nd Hn) as (nd2 & Hn2 & Hs2 & Hu2 & Hd2 & Hr2).
  destruct (H23 X nd2 Hn2) as (nd3 & Hn3 & Hs3 & Hu3 & Hd3 & Hr3).
  exists nd3. split; [done|].
  repeat split.
  - intros Hno. rewrite Hs3, Hs2; [done| |].
    + intros P v HP Hin. apply (Hno P v HP), elem_of_app. by right.
    + intros P v HP Hin. apply (static_is_parent _ _ _ _ St12) in HP.
      apply (Hno P v HP), elem_of_app. by left.
  - intros Hu Hrun Hno. apply Hu3.
    + apply Hu2; [done| |].
      * intros Hin. apply Hrun, elem_of_app. by right.
      * intros P v HP Hin. apply (Hno P v HP), elem_of_app. by right.
    + intros Hin. apply Hrun, elem_of_app. by left.
    + intros P v HP Hin. apply (static_is_parent _ _ _ _ St12) in HP.
      apply (Hno P v HP), elem_of_app. by left.
  - intros Hno. rewrite Hd3, Hd2; [done| |];
      intros Hin; apply Hno, elem_of_app; auto.
  - intros Hno. rewrite Hr3, Hr2; [done| |];
      intros Hin; apply Hno, elem_of_app; auto.
Qed.

Lemma logged_between_inv s x new e :
  trace x = new ++ trace s → logged_between s x e → e ∈ new.
Proof.
  intros E (new' & E' & Hin). rewrite E in E'.
  by apply app_inv_tail in E' as ->.
Qed.

(** One more step of a tracked execution. *)
Lemma tracks_step s x y evs :
  tracks s x →
  trace y = evs ++ trace x →
  (∀ P v, EvDataProcessed P v ∈ evs →
     EvProcessData P ∈ evs ∨ logged_between s x (EvProcessData P)) →
  (∀ X nd ndx, node X s = Some nd → node X x = Some ndx →
     ∃ ndy, node X y = Some ndy
       ∧ (_sources ndy = _sources ndx
          ∨ ∃ P v, is_parent s P X ∧ logged_between s x (EvDataProcessed P v))
       ∧ (_uptodate ndx = true →
            _uptodate ndy = true ∨ EvRun X ∈ evs
            ∨ ∃ P v, is_parent s P X ∧ logged_between s x (EvDataProcessed P v))
       ∧ (_data ndy = _data ndx ∨ logged_between s x (EvProcessData X))
       ∧ (_running ndy = _running ndx ∨ EvRun X ∈ evs
          ∨ _running ndy = _running nd)) →
  tracks s y.
Proof.
  intros (new & E & B & H) Ey HB Hstep. exists (evs ++ new).
  split; [by rewrite Ey, E, (assoc_L (++))|]. split.
  { intros P v [Hin|Hin]%elem_of_app; apply elem_of_app.
    - destruct (HB P v Hin) as [?|HL]; [by left|].
      right. by eapply logged_between_inv.
    - right. eauto. }
  intros X nd Hn.
  destruct (H X nd Hn) as (ndx & Hnx & Hsx & Hux & Hdx & Hrx).
  destruct (Hstep X nd ndx Hn Hnx) as (ndy & Hny & Hsy & Huy & Hdy & Hry).
  exists ndy. split; [done|]. repeat split.
  - intros Hno. destruct Hsy as [->|(P & v & HP & HL)].
    + apply Hsx. intros P v HP Hin. apply (Hno P v HP), elem_of_app. by right.
    + exfalso. apply (Hno P v HP), elem_of_app. right.
      by eapply logged_between_inv.
  - intros Hu Hrun Hno.
    assert (_uptodate ndx = true) as Hu'.
    { apply Hux; [done| |].
      - intros Hin. apply Hrun, elem_of_app. by right.
      - intros P v HP Hin. apply (Hno P v HP), elem_of_app. by right. }
    destruct (Huy Hu') as [?|[Hin|(P & v & HP & HL)]]; [done| |].
    + exfalso. apply Hrun, elem_of_app. by left.
    + exfalso. apply (Hno P v HP), elem_of_app. right.
      by eapply logged_between_inv.
  - intros Hno. destruct Hdy as [->|HL].
    + apply Hdx. intros Hin. apply Hno, elem_of_app. by right.
    + exfalso. apply Hno, elem_of_app. right. by eapply logged_between_inv.
  - intros Hno. destruct Hry as [->|[Hin| ->]].
    + apply Hrx. intros Hin. apply Hno, elem_of_app. by right.
    + exfalso. apply Hno, elem_of_app. by left.
    + done.
Qed.

Ltac tr_node :=
  intros ? ? ? ? ?;
  rewrite ?node_log, ?node_upd, ?node_log;
  repeat case_decide; subst; simplify_eq/=;
  repeat match goal with H : node _ _ = Some _ |- _ => rewrite H end;
  simpl; eexists; (split; [done|]).

Lemma run_tracks fuel n : sat (run fuel n) tracks.
Proof.
  apply run_skeleton.
  - apply tracks_refl.
  - apply tracks_trans.
  - intros m s nd Hm Hr.
    eapply (tracks_step s s _ [EvRun m]); [apply tracks_refl|done| |].
    { by intros P v ?%list_elem_of_singleton. }
    tr_node; repeat split; auto; intros; right; left; apply list_elem_of_singleton;
      done.
  - intros m s nd Hm Hr.
    eapply (tracks_step s s _ [EvRun m]); [apply tracks_refl|done| |].
    { by intros P v ?%list_elem_of_singleton. }
    tr_node; repeat split; auto; right; left; by apply list_elem_of_singleton.
  - intros m s nd x Hm Hr _ HR.
    eapply (tracks_step s x _ [EvProcessData m]); [done|done| |].
    { by intros P v ?%list_elem_of_singleton. }
    tr_node; repeat split; auto.
  - intros m s nd x v Hm Hr _ HR HL.
    eapply (tracks_step s x _ [EvDataProcessed m v]); [done|done| |].
    { intros P v' [= -> ->]%list_elem_of_singleton. by right. }
    tr_node; repeat split; auto.
  - intros m s x recv k v Hpar _ HR HL.
    eapply (tracks_step s x _ []); [done|done| |].
    { by intros P v' ?%not_elem_of_nil. }
    tr_node; repeat split; auto; intros; right; eauto.
  - intros m s nd x Hm Hr _ HR HL.
    eapply (tracks_step s x _ []); [done|done| |].
    { by intros P v' ?%not_elem_of_nil. }
    tr_node; repeat split; auto.
Qed.

(** ** Executions that return *)

Lemma run_ok_inv fuel n s s' :
  run (S fuel) n s = Ok s' →
  ∃ nd, node n s = Some nd ∧
    ((_running nd = true ∧ s' = upd n (set_uptodate false) (log (EvRun n) s))
     ∨ (_running nd = false ∧ ∃ s2 nd2,
         run_sources fuel n (keys (_sources nd))
           (upd n (set_running true) (log (EvRun n) s)) = Ok s2
         ∧ node n s2 = Some nd2
         ∧ ((_uptodate nd2 = true ∧ s' = s2)
            ∨ (_uptodate nd2 = false ∧ ∃ v s3,
                 processData n nd2 = PReturn v
                 ∧ emit_dataProcessed fuel (dataProcessed nd2) (normalize v)
                     (log (EvDataProcessed n (normalize v))
                        (upd n (set__data (normalize v))
                           (log (EvProcessData n) s2))) = Ok s3
                 ∧ s' = upd n fin_write s3)))).
Proof.
  simpl. destruct (node n s) as [nd|] eqn:Hn; [|done].
  intros Hf. exists nd. split; [done|].
  unfold run_body_with in Hf.
  destruct (_running nd) eqn:Hr; simpl in Hf.
  { left. split; [done|]. by inversion Hf. }
  right. split; [done|]. unfold Engine.run_sources.
  apply bind_ok in Hf as (s2 & H2 & Hf).
  destruct (node n s2) as [nd2|] eqn:Hn2; [|done].
  exists s2, nd2. split; [done|]. split; [done|].
  destruct (_uptodate nd2) eqn:Hu; simpl in Hf; [left; by inversion Hf|].
  right. split; [done|].
  destruct (processData n nd2) as [v|e] eqn:Hp; [|done].
  apply bind_ok in Hf as (s3 & H3 & Hf).
  exists v, s3. split; [done|]. split; [|by inversion Hf].
  unfold data_setter_with, broadcastData_with in H3.
  rewrite node_upd_eq, node_log, Hn2 in H3. simpl in H3. exact H3.
Qed.

Section ShapesOk.

Variable run_rec : nat → State → outcome.

Lemma call_setfunc_with_ok_inv recv v s s' :
  call_setfunc_with run_rec recv v s = Ok s' →
  ∃ nd k, node recv s = Some nd ∧ closure_k nd = Some k
    ∧ ((_updateOnSource nd = false ∧ s' = upd recv (ssd_write k v) s)
       ∨ (_updateOnSource nd = true
          ∧ run_rec recv (upd recv (ssd_write k v) s) = Ok s')).
Proof.
  unfold call_setfunc_with, setSourceData_with.
  destruct (node recv s) as [nd|] eqn:Hn; [|done].
  destruct (closure_k nd) as [k|] eqn:Hk; [|done].
  destruct (has_source k (_sources nd)) eqn:Hh; [|done].
  intros Hf. exists nd, k. repeat split; try done.
  destruct (_updateOnSource nd).
  - by right.
  - left. split; [done|]. by inversion Hf.
Qed.

Lemma emit_dataProcessed_with_ok_inv (I : State → Prop) conns v s s' :
  I s →
  (∀ recv attr s1 s2, (recv, attr) ∈ conns → I s1 →
     call_setfunc_with run_rec recv v s1 = Ok s2 → I s2) →
  emit_dataProcessed_with run_rec conns v s = Ok s' → I s'.
Proof.
  revert s. induction conns as [|[recv attr] r IH]; intros s Hs Hstep Hf.
  - simpl in Hf. by inversion Hf; subst.
  - simpl in Hf. apply bind_ok in Hf as (s1 & H1 & Hf).
    apply (IH s1); [|intros r0 a0 ?? Hin; apply (Hstep r0 a0); by right|done].
    apply (Hstep recv attr s s1); [left|done|done].
Qed.

(** The loop over the sources, with an invariant that knows which keys are
    still to come. *)
Lemma run_sources_with_ok_inv (I : list string → State → Prop) self ks s s' :
  I ks s →
  (∀ k r s1 nd src, I (k :: r) s1 → node self s1 = Some nd →
     lookup_source k (_sources nd) = Some src → ref src = None → I r s1) →
  (∀ k r s1 nd src up s2, I (k :: r) s1 → node self s1 = Some nd →
     lookup_source k (_sources nd) = Some src → ref src = Some up →
     run_rec up s1 = Ok s2 → I r s2) →
  run_sources_with run_rec self ks s = Ok s' → I [] s'.
Proof.
  revert s. induction ks as [|k r IH]; intros s Hs Hnone Hsome Hf.
  - simpl in Hf. by inversion Hf; subst.
  - simpl in Hf.
    destruct (node self s) as [nd|] eqn:Hn; simpl in Hf; [|done].
    destruct (lookup_source k (_sources nd)) as [src|] eqn:Hk; [|done].
    destruct (ref src) as [up|] eqn:Hr.
    + apply bind_ok in Hf as (s1 & H1 & Hf).
      apply (IH s1); [|done..]. by eapply Hsome.
    + apply (IH s); [|done..]. by eapply Hnone.
Qed.

End ShapesOk.

(** ** Frozen nodes *)

Lemma holds_status_refl s X : holds_status s s X.
Proof. intros nd Hn. exists nd. auto. Qed.

Lemma holds_status_trans s1 s2 s3 X :
  holds_status s1 s2 X → holds_status s2 s3 X → holds_status s1 s3 X.
Proof.
  intros H12 H23 nd Hn.
  destruct (H12 nd Hn) as (nd2 & Hn2 & Hr2 & Hu2).
  destruct (H23 nd2 Hn2) as (nd3 & Hn3 & Hr3 & Hu3).
  exists nd3. split; [done|]. split; [auto|].
  intros Hu. destruct (Hu2 Hu) as [?|?]; auto.
Qed.

Lemma Frozen_mono s x :
  static s x →
  (∀ X, Frozen s X → holds_status s x X) →
  ∀ X, Frozen s X → Frozen x X.
Proof.
  intros Hst Hhs X HX. induction HX as [U nd Hn Hr|U nd Hn Hu Hpar IH].
  - destruct (Hhs U (Frozen_running s U nd Hn Hr) nd Hn) as (nd' & Hn' & Hr' & _).
    eapply Frozen_running; eauto.
  - destruct (Hhs U (Frozen_settled s U nd Hn Hu Hpar) nd Hn)
      as (nd' & Hn' & _ & Hu').
    destruct (Hu' Hu) as [Hu''|Hr''].
    + eapply Frozen_settled; [done..|].
      intros P HP. apply IH. by apply (static_is_parent s x).
    + eapply Frozen_running; eauto.
Qed.

(** A change at node [D] does not thaw the nodes that rank below [D]. *)
Lemma Frozen_below rank s x D :
  ranked rank s → static s x →
  (∀ X, X ≠ D → holds_status s x X) →
  ∀ X, rank X < rank D → Frozen s X → Frozen x X.
Proof.
  intros Hrk Hst Hhs X Hlt HX. induction HX as [U nd Hn Hr|U nd Hn Hu Hpar IH].
  - assert (U ≠ D) as Hne by (intros ->; lia).
    destruct (Hhs U Hne nd Hn) as (nd' & Hn' & Hr' & _).
    eapply Frozen_running; eauto.
  - assert (U ≠ D) as Hne by (intros ->; lia).
    destruct (Hhs U Hne nd Hn) as (nd' & Hn' & _ & Hu').
    destruct (Hu' Hu) as [Hu''|Hr''].
    + eapply Frozen_settled; [done..|].
      intros P HP. apply (static_is_parent s x) in HP; [|done].
      apply IH; [done|]. specialize (Hrk P U HP). lia.
    + eapply Frozen_running; eauto.
Qed.

Lemma keeps_frozen_refl s : keeps_frozen s s.
Proof.
  exists []. split; [done|]. intros X _.
  split; [apply not_elem_of_nil|apply holds_status_refl].
Qed.

Lemma keeps_frozen_trans s1 s2 s3 :
  static s1 s2 → keeps_frozen s1 s2 → keeps_frozen s2 s3 → keeps_frozen s1 s3.
Proof.
  intros Hst (n12 & E12 & H12) (n23 & E23 & H23). exists (n23 ++ n12).
  split; [by rewrite E23, E12, (assoc_L (++))|].
  intros X HX. destruct (H12 X HX) as [Hp2 Hs2].
  assert (Frozen s2 X) as HX2.
  { eapply Frozen_mono; [exact Hst| |exact HX]. intros Y HY. by apply H12. }
  destruct (H23 X HX2) as [Hp3 Hs3]. split.
  - rewrite elem_of_app. tauto.
  - by eapply holds_status_trans.
Qed.

Lemma keeps_frozen_Frozen s x X :
  static s x → keeps_frozen s x → Frozen s X → Frozen x X.
Proof.
  intros Hst (new & _ & H) HX.
  eapply Frozen_mono; [exact Hst| |exact HX]. intros Y HY. by apply H.
Qed.

(** One more step that keeps the status of every node frozen at the
    start. *)
Lemma keeps_frozen_step s x y evs :
  keeps_frozen s x →
  trace y = evs ++ trace x →
  (∀ X, Frozen s X →
     (EvProcessData X ∉ evs) ∧ (holds_status s x X → holds_status s y X)) →
  keeps_frozen s y.
Proof.
  intros (new & E & H) Ey Hstep. exists (evs ++ new).
  split; [by rewrite Ey, E, (assoc_L (++))|].
  intros X HX. destruct (H X HX) as [Hp Hs].
  destruct (Hstep X HX) as [Hp' Hs']. split.
  - rewrite elem_of_app. tauto.
  - auto.
Qed.

Lemma wired_static s x : static s x → wired s → wired x.
Proof.
  intros Hst [H1 H2]. split.
  - intros P U HP. apply (static_is_ref s x); [done|].
    apply H1. by apply (static_is_parent s x).
  - intros U P HR. apply (static_is_parent s x); [done|].
    apply H2. by apply (static_is_ref s x).
Qed.

Lemma ranked_static rank s x : static s x → ranked rank s → ranked rank x.
Proof.
  intros Hst Hrk P U HP. apply Hrk. by apply (static_is_parent s x).
Qed.

Lemma lookup_source_keys k (l : list (string * @Source Data)) src :
  lookup_source k l = Some src → k ∈ keys l.
Proof.
  unfold keys. induction l as [|[k' x] r IH]; simpl; [done|].
  destruct (String.eqb_spec k k') as [->|Hne]; intros H.
  - left.
  - right. by apply IH.
Qed.

Lemma holds_status_log s x e X : holds_status s x X → holds_status s (log e x) X.
Proof. intros H. exact H. Qed.

Lemma holds_status_upd_other s x D (f : Node → Node) X :
  X ≠ D → holds_status s x X → holds_status s (upd D f x) X.
Proof.
  intros Hne H nd Hn. destruct (H nd Hn) as (nd' & Hn' & ?).
  exists nd'. by rewrite node_upd_ne.
Qed.

Lemma holds_status_upd s x D (f : Node → Node) X :
  (∀ nd, (_running nd = true → _running (f nd) = true)
         ∧ (_uptodate nd = true → _uptodate (f nd) = true ∨ _running (f nd) = true)) →
  holds_status s x X → holds_status s (upd D f x) X.
Proof.
  intros Hf H nd Hn. destruct (H nd Hn) as (nd' & Hn' & Hr & Hu).
  rewrite node_upd. case_decide; subst; [|by exists nd'].
  rewrite Hn'. simpl. exists (f nd'). split; [done|].
  destruct (Hf nd') as [Hfr Hfu]. split; [auto|].
  intros Hu0. destruct (Hu Hu0); auto.
Qed.

Lemma Frozen_not_running s m nd :
  Frozen s m → node m s = Some nd → _running nd = false →
  _uptodate nd = true ∧ ∀ P, is_parent s P m → Frozen s P.
Proof.
  intros HF Hn Hr. inversion HF as [U nd' Hn' Hr'|U nd' Hn' Hu' Hpar]; subst.
  - congruence.
  - split; [congruence|done].
Qed.

Lemma static_ref_at s x m nd ndx k srcx :
  static s x → node m s = Some nd → node m x = Some ndx →
  lookup_source k (_sources ndx) = Some srcx →
  ∃ src0, lookup_source k (_sources nd) = Some src0 ∧ ref src0 = ref srcx.
Proof.
  intros Hst Hn Hnx Hk. specialize (Hst m). rewrite Hn in Hst.
  destruct Hst as (nd' & Hn' & Hw). assert (nd' = ndx) as -> by congruence.
  pose proof (lookup_source_wiring k _ _ (sw_sources _ _ Hw)) as Hl.
  rewrite Hk in Hl. simpl in Hl.
  destruct (lookup_source k (_sources nd)) as [src0|]; [|done].
  exists src0. split; [done|]. simpl in Hl. congruence.
Qed.

Lemma only_runs_above_inv rank m s x new e :
  only_runs_above rank m s x → trace x = new ++ trace s → e ∈ new →
  ∃ X, e = EvRun X ∧ rank X ≤ rank m.
Proof.
  intros (new' & E' & H) E Hin. rewrite E in E'.
  apply app_inv_tail in E' as <-. by apply H.
Qed.

(** ** What a call of [run] does to frozen nodes

    In a wiring that is consistent and ranked, a call of [run] on [m] that
    returns leaves every frozen node alone, leaves [m] frozen, and, when
    [m] was frozen already, enters only nodes at or below the rank of [m]
    and recomputes nothing. *)

Section FrozenStep.

Variable rank : nat → nat.
Variable fuel : nat.

Hypothesis IH : ∀ m s s',
  wired s → ranked rank s → run fuel m s = Ok s' →
  keeps_frozen s s' ∧ (Frozen s m → only_runs_above rank m s s') ∧ Frozen s' m.

Lemma run_sources_frozen m s nd s2 :
  wired s → ranked rank s →
  node m s = Some nd → _running nd = false →
  run_sources fuel m (keys (_sources nd))
    (upd m (set_running true) (log (EvRun m) s)) = Ok s2 →
  frame s s2 ∧ keeps_frozen s s2
  ∧ (∀ up, is_ref s m up → Frozen s2 up)
  ∧ (Frozen s m →
       only_runs_above rank m s s2
       ∧ ∃ nd2, node m s2 = Some nd2 ∧ _uptodate nd2 = true).
Proof.
  intros Hw Hrk Hn Hr H2.
  set (s1 := upd m (set_running true) (log (EvRun m) s)) in *.
  set (I := λ (ks : list string) (x : State),
    frame s x ∧ keeps_frozen s x
    ∧ (∃ dn, keys (_sources nd) = dn ++ ks
         ∧ ∀ k src up, k ∈ dn → lookup_source k (_sources nd) = Some src →
             ref src = Some up → Frozen x up)
    ∧ (Frozen s m →
         only_runs_above rank m s x
         ∧ ∃ ndx, node m x = Some ndx ∧ _uptodate ndx = true)).
  assert (I [] s2) as (F2 & K2 & (dn & Edn & Hdn) & HQ).
  { eapply (run_sources_with_ok_inv _ I); [| | |exact H2].
    - (* the state in which the loop starts *)
      split; [subst s1; frame_steps|]. split; [|split].
      + eapply (keeps_frozen_step s s _ [EvRun m]); [apply keeps_frozen_refl|done|].
        intros X HX. split; [by intros ?%list_elem_of_singleton|].
        intros HS. apply holds_status_upd; [|exact HS].
        intros nd0. simpl. auto.
      + exists []. split; [done|]. by intros k src up ?%not_elem_of_nil.
      + intros HF. destruct (Frozen_not_running _ _ _ HF Hn Hr) as [Hu _]. split.
        * exists [EvRun m]. split; [done|].
          intros e ->%list_elem_of_singleton. eauto.
        * exists (set_running true nd). split; [|done].
          subst s1. by rewrite node_upd_eq, node_log, Hn.
    - (* a source without reference *)
      intros k r x ndx srcx (Fx & Kx & (dn & Edn & Hdn) & HQ) Hnx Hk Href.
      split; [done|]. split; [done|]. split; [|done].
      exists (dn ++ [k]). split; [by rewrite <-(assoc_L (++))|].
      intros k' src up [Hin| ->%list_elem_of_singleton]%elem_of_app Hk' Hup.
      + by eapply Hdn.
      + destruct (static_ref_at _ _ _ _ _ _ _ (proj1 Fx) Hn Hnx Hk)
          as (src0 & Hk0 & Hr0). congruence.
    - (* a source with a reference: its [run] is called *)
      intros k r x ndx srcx up x2 (Fx & Kx & (dn & Edn & Hdn) & HQ) Hnx Hk Href Hup.
      destruct (static_ref_at _ _ _ _ _ _ _ (proj1 Fx) Hn Hnx Hk)
        as (src0 & Hk0 & Hr0).
      assert (is_ref s m up) as Hisref.
      { exists nd, k, src0. repeat split; [done..|congruence]. }
      assert (rank up < rank m) as Hlt.
      { apply Hrk. by apply (wired_ref_parent s Hw). }
      destruct (IH up x x2 (wired_static _ _ (proj1 Fx) Hw)
                  (ranked_static _ _ _ (proj1 Fx) Hrk) Hup) as (Kup & Qup & Fup).
      pose proof (run_frame fuel up _ _ (final_ok _ _ Hup)) as Fx2.
      split; [by eapply frame_trans|]. split; [|split].
      + eapply keeps_frozen_trans; [apply Fx|done..].
      + exists (dn ++ [k]). split; [by rewrite <-(assoc_L (++))|].
        intros k' src up' [Hin| ->%list_elem_of_singleton]%elem_of_app Hk' Hup'.
        * eapply keeps_frozen_Frozen; [apply Fx2|exact Kup|]. by eapply Hdn.
        * assert (up' = up) as -> by congruence. done.
      + intros HF. destruct (HQ HF) as [(nx & Ex & Hnx') (ndx' & Hnx'' & Hux)].
        assert (ndx' = ndx) as -> by congruence.
        destruct (Frozen_not_running _ _ _ HF Hn Hr) as [_ Hpar].
        assert (Frozen x up) as HFup.
        { eapply keeps_frozen_Frozen; [apply Fx|exact Kx|].
          apply Hpar. by apply (wired_ref_parent s Hw). }
        destruct (Qup HFup) as (n2 & E2 & Hn2).
        split.
        * exists (n2 ++ nx). split; [by rewrite E2, Ex, (assoc_L (++))|].
          intros e [Hin|Hin]%elem_of_app; [|by apply Hnx'].
          destruct (Hn2 e Hin) as (X & -> & HX). exists X. split; [done|lia].
        * destruct (run_tracks fuel up _ _ (final_ok _ _ Hup))
            as (n2' & E2' & _ & Htr).
          assert (n2' = n2) as ->.
          { rewrite E2 in E2'. by apply app_inv_tail in E2'. }
          destruct (Htr m ndx Hnx) as (ndy & Hny & _ & Huy & _).
          exists ndy. split; [done|]. apply Huy; [done| |].
          -- intros Hin. destruct (Hn2 _ Hin) as (X & [= <-] & HX). lia.
          -- intros P v _ Hin. by destruct (Hn2 _ Hin) as (X & [=] & _). }
  split; [done|]. split; [done|]. split; [|done].
  intros up (nd' & k & src & Hn' & Hk & Hup).
  assert (nd' = nd) as -> by congruence.
  eapply Hdn; [|done..]. rewrite app_nil_r in Edn. rewrite <-Edn.
  by eapply lookup_source_keys.
Qed.

Lemma emit_frozen m s x conns v s3 :
  wired s → ranked rank s →
  frame s x → keeps_frozen s x →
  (Frozen s m → False) →
  (∀ recv attr, (recv, attr) ∈ conns → is_parent s m recv) →
  (∀ P, is_parent s P m → Frozen x P) →
  emit_dataProcessed fuel conns v x = Ok s3 →
  frame s s3 ∧ keeps_frozen s s3 ∧ (∀ P, is_parent s P m → Frozen s3 P).
Proof.
  intros Hw Hrk Fx Kx NF Hconns Hpar H3.
  eapply (emit_dataProcessed_with_ok_inv _
            (λ y, frame s y ∧ keeps_frozen s y
                  ∧ ∀ P, is_parent s P m → Frozen y P)); [done| |exact H3].
  clear x Fx Kx Hpar H3.
  intros recv attr x x2 Hin (Fx & Kx & Hpar) Hcall.
  pose proof (Hconns recv attr Hin) as Hchild.
  assert (rank m < rank recv) as Hlt by (by apply Hrk).
  apply call_setfunc_with_ok_inv in Hcall as (ndr & k & Hnr & Hk & Hcall).
  set (x1 := upd recv (ssd_write k v) x) in *.
  assert (frame s x1) as F1 by (subst x1; frame_steps).
  assert (frame x x1) as Fx1 by (subst x1; frame_steps; apply frame_refl).
  assert (keeps_frozen s x1) as K1.
  { eapply (keeps_frozen_step s x _ []); [done|done|].
    intros X HX. split; [apply not_elem_of_nil|].
    intros HS. destruct (decide (X = recv)) as [->|Hne];
      [|by apply holds_status_upd_other].
    intros nd0 Hn0. destruct (HS nd0 Hn0) as (ndx & Hnx & Hrx & Hux).
    exists (ssd_write k v ndx). split; [subst x1; by rewrite node_upd_eq, Hnx|].
    destruct (_running nd0) eqn:Hr0.
    - simpl. split; [auto|]. intros _. right. auto.
    - exfalso. apply NF.
      destruct (Frozen_not_running _ _ _ HX Hn0 Hr0) as [_ Hp]. by apply Hp. }
  assert (∀ P, is_parent s P m → Frozen x1 P) as Hpar1.
  { intros P HP.
    eapply (Frozen_below rank x x1 recv);
      [by eapply ranked_static; [apply Fx|]|apply Fx1| | |by apply Hpar].
    - intros X Hne. apply holds_status_upd_other; [done|apply holds_status_refl].
    - specialize (Hrk P m HP). lia. }
  destruct Hcall as [[_ ->]|[_ Hrun]]; [done|].
  destruct (IH recv x1 x2 (wired_static _ _ (proj1 F1) Hw)
              (ranked_static _ _ _ (proj1 F1) Hrk) Hrun) as (K2 & _ & _).
  pose proof (run_frame fuel recv _ _ (final_ok _ _ Hrun)) as F12.
  split; [by eapply frame_trans|]. split.
  - eapply keeps_frozen_trans; [apply F1|done..].
  - intros P HP. eapply keeps_frozen_Frozen; [apply F12|exact K2|]. by apply Hpar1.
Qed.

End FrozenStep.

Lemma run_frozen rank fuel m s s' :
  wired s → ranked rank s → run fuel m s = Ok s' →
  keeps_frozen s s' ∧ (Frozen s m → only_runs_above rank m s s') ∧ Frozen s' m.
Proof.
  revert m s s'. induction fuel as [|fuel IH]; intros m s s' Hw Hrk Hrun; [done|].
  apply run_ok_inv in Hrun
    as (nd & Hn & [[Hr ->]|(Hr & s2 & nd2 & H2 & Hn2 & Hrest)]).
  { (* re-entrant *)
    split; [|split].
    - eapply (keeps_frozen_step s s _ [EvRun m]); [apply keeps_frozen_refl|done|].
      intros X HX. split; [by intros ?%list_elem_of_singleton|].
      intros HS. destruct (decide (X = m)) as [->|Hne];
        [|by apply holds_status_upd_other].
      intros nd0 Hn0. assert (nd0 = nd) as -> by congruence.
      exists (set_uptodate false nd). split; [by rewrite node_upd_eq, node_log, Hn|].
      simpl. auto.
    - intros _. exists [EvRun m]. split; [done|].
      intros e ->%list_elem_of_singleton. eauto.
    - eapply Frozen_running; [by rewrite node_upd_eq, node_log, Hn|done]. }
  destruct (run_sources_frozen rank fuel IH m s nd s2 Hw Hrk Hn Hr H2)
    as (F2 & K2 & Hrefs & HQ).
  assert (∃ nd1, node m s2 = Some nd1 ∧ _running nd1 = true) as (nd1 & Hn1 & Hr1).
  { destruct (run_sources_keeps_running _ _ _ _ _ (final_ok _ _ H2))
      as (new & _ & Hk).
    destruct (Hk m (set_running true nd)) as (nd' & Hn' & Hr' & _); [|done|eauto].
    by rewrite node_upd_eq, node_log, Hn. }
  assert (nd1 = nd2) as -> by congruence.
  destruct Hrest as [[Hu ->]|(Hu & v & s3 & Hp & H3 & ->)].
  { (* nothing to recompute *)
    split; [done|]. split; [intros HF; by apply HQ|].
    by eapply Frozen_running. }
  (* [m] is recomputed, so it was not frozen *)
  assert (Frozen s m → False) as NF.
  { intros HF. destruct (HQ HF) as [_ (nd' & Hn' & Hu')]. congruence. }
  set (sb := log (EvDataProcessed m (normalize v))
               (upd m (set__data (normalize v)) (log (EvProcessData m) s2))) in *.
  assert (frame s sb) as Fb by (subst sb; frame_steps).
  assert (frame s2 sb) as F2b by (subst sb; frame_steps; apply frame_refl).
  assert (∀ X, X ≠ m → holds_status s2 sb X) as Hsb.
  { intros X Hne. subst sb. apply holds_status_log.
    apply holds_status_upd_other; [done|].
    apply holds_status_log, holds_status_refl. }
  assert (keeps_frozen s sb) as Kb.
  { eapply (keeps_frozen_step s s2 _
              [EvDataProcessed m (normalize v); EvProcessData m]); [done|done|].
    intros X HX. assert (X ≠ m) as Hne by (intros ->; by apply NF).
    split.
    - intros [?|?%list_elem_of_singleton]%elem_of_cons; [done|congruence].
    - intros HS. eapply holds_status_trans; [exact HS|by apply Hsb]. }
  assert (∀ P, is_parent s P m → Frozen sb P) as Hparb.
  { intros P HP.
    eapply (Frozen_below rank s2 sb m);
      [by eapply ranked_static; [apply F2|]|apply F2b|done|by apply Hrk|].
    apply Hrefs. by apply (wired_parent_ref s Hw). }
  assert (dataProcessed nd2 = dataProcessed nd) as Hconns.
  { destruct F2 as [St2 _]. specialize (St2 m). rewrite Hn in St2.
    destruct St2 as (nd' & Hn' & Hsw). assert (nd' = nd2) as -> by congruence.
    apply Hsw. }
  destruct (emit_frozen rank fuel IH m s sb (dataProcessed nd2) (normalize v) s3
              Hw Hrk Fb Kb NF) as (F3 & K3 & Hpar3); [|done|exact H3|].
  { intros recv attr Hin. exists nd, attr. split; [done|]. by rewrite <-Hconns. }
  assert (frame s3 (upd m fin_write s3)) as F3' by (frame_steps; apply frame_refl).
  split; [|split].
  - eapply (keeps_frozen_step s s3 _ []); [done|done|].
    intros X HX. assert (X ≠ m) as Hne by (intros ->; by apply NF).
    split; [apply not_elem_of_nil|]. intros HS. by apply holds_status_upd_other.
  - intros HF. by destruct (NF HF).
  - pose proof (proj1 F3 m) as St3. rewrite Hn in St3.
    destruct St3 as (nd3 & Hn3 & _).
    eapply (Frozen_settled _ m (fin_write nd3));
      [by rewrite node_upd_eq, Hn3|done|].
    intros P HP.
    assert (is_parent s P m) as HP0.
    { apply (static_is_parent s (upd m fin_write s3)); [|done].
      apply (frame_trans _ _ _ F3 F3'). }
    eapply (Frozen_below rank s3 _ m);
      [by eapply ranked_static; [apply F3|]|apply F3'| |by apply Hrk|by apply Hpar3].
    intros X Hne. apply holds_status_upd_other; [done|apply holds_status_refl].
Qed.


(** ** A triggered node is recomputed from the inputs it ends up with *)

Lemma running_after_sources fuel n s nd s2 nd2 :
  node n s = Some nd →
  run_sources fuel n (keys (_sources nd))
    (upd n (set_running true) (log (EvRun n) s)) = Ok s2 →
  node n s2 = Some nd2 →
  _running nd2 = true ∧ _data nd2 = _data nd
  ∧ (_uptodate nd = false → _uptodate nd2 = false).
Proof.
  intros Hn H2 Hn2.
  destruct (run_sources_keeps_running _ _ _ _ _ (final_ok _ _ H2))
    as (new & _ & Hk).
  destruct (Hk n (set_running true nd)) as (nd' & Hn' & Hr' & Hd' & Hu' & _);
    [by rewrite node_upd_eq, node_log, Hn|done|].
  assert (nd' = nd2) as -> by congruence. done.
Qed.

Lemma run_recomputes rank fuel n s nd s' :
  wired s → ranked rank s →
  node n s = Some nd → _running nd = false → _uptodate nd = false →
  run fuel n s = Ok s' →
  ∃ nd' v,
    node n s' = Some nd'
    ∧ _uptodate nd' = true ∧ _running nd' = false
    ∧ same_wiring nd nd'
    ∧ processData n (set__data (_data nd)
                       (set_running true (set_uptodate false nd'))) = PReturn v
    ∧ _data nd' = normalize v
    ∧ logged_between s s' (EvProcessData n).
Proof.
  intros Hw Hrk Hn Hr Hu Hrun. destruct fuel as [|fuel]; [done|].
  apply run_ok_inv in Hrun
    as (nd0 & Hn0 & [[Hr0 _]|(_ & s2 & nd2 & H2 & Hn2 & Hrest)]);
    assert (nd0 = nd) as -> by congruence; [congruence|].
  destruct (running_after_sources _ _ _ _ _ _ Hn H2 Hn2) as (Hr2 & Hd2 & Hu2).
  destruct Hrest as [[Hu' _]|(_ & v & s3 & Hp & H3 & ->)];
    [rewrite Hu2 in Hu'; done|].
  destruct (run_sources_frozen rank fuel (run_frozen rank fuel) n s nd s2
              Hw Hrk Hn Hr H2) as (F2 & _ & Hrefs & _).
  set (sb := log (EvDataProcessed n (normalize v))
               (upd n (set__data (normalize v)) (log (EvProcessData n) s2))) in *.
  assert (frame s2 sb) as F2b by (subst sb; frame_steps; apply frame_refl).
  assert (frame s sb) as Fb by (by eapply frame_trans).
  assert (∀ P, is_parent s P n → Frozen sb P) as Hparb.
  { intros P HP.
    eapply (Frozen_below rank s2 sb n);
      [by eapply ranked_static; [apply F2|]|apply F2b| |by apply Hrk|].
    - intros X Hne. subst sb. apply holds_status_log.
      apply holds_status_upd_other; [done|].
      apply holds_status_log, holds_status_refl.
    - apply Hrefs. by apply (wired_parent_ref s Hw). }
  assert (dataProcessed nd2 = dataProcessed nd) as Hconns.
  { destruct F2 as [St2 _]. specialize (St2 n). rewrite Hn in St2.
    destruct St2 as (nd' & Hn' & Hsw). assert (nd' = nd2) as -> by congruence.
    apply Hsw. }
  (* the broadcast leaves the sources and the output of [n] alone *)
  assert (frame s s3
          ∧ (∀ P, is_parent s P n → Frozen s3 P)
          ∧ ∃ nd3, node n s3 = Some nd3 ∧ _sources nd3 = _sources nd2
              ∧ _data nd3 = normalize v ∧ _running nd3 = true
              ∧ logged_between s s3 (EvProcessData n))
    as (F3 & _ & nd3 & Hn3 & Hs3 & Hd3 & Hr3 & HL3).
  { eapply (emit_dataProcessed_with_ok_inv _
              (λ y, frame s y
                    ∧ (∀ P, is_parent s P n → Frozen y P)
                    ∧ ∃ ndy, node n y = Some ndy ∧ _sources ndy = _sources nd2
                        ∧ _data ndy = normalize v ∧ _running ndy = true
                        ∧ logged_between s y (EvProcessData n)));
      [| |exact H3].
    - split; [done|]. split; [done|].
      exists (set__data (normalize v) nd2). split.
      { subst sb. by rewrite node_log, node_upd_eq, node_log, Hn2. }
      repeat split; try done.
      destruct F2 as [_ [new2 E2]].
      exists (EvDataProcessed n (normalize v) :: EvProcessData n :: new2).
      split; [subst sb; simpl; by rewrite E2|]. right. left.
    - intros recv attr x x2 Hin (Fx & Hpar & ndx & Hnx & Hsx & Hdx & Hrx & HLx) Hcall.
      assert (is_parent s n recv) as Hchild.
      { exists nd, attr. split; [done|]. by rewrite <-Hconns. }
      assert (rank n < rank recv) as Hlt by (by apply Hrk).
      assert (recv ≠ n) as Hne by (intros ->; lia).
      apply call_setfunc_with_ok_inv in Hcall as (ndr & k & Hnr & Hk & Hcall).
      set (x1 := upd recv (ssd_write k (normalize v)) x) in *.
      assert (frame x x1) as Fx1 by (subst x1; frame_steps; apply frame_refl).
      assert (frame s x1) as F1 by (by eapply frame_trans).
      assert (node n x1 = Some ndx) as Hnx1 by (subst x1; by rewrite node_upd_ne).
      assert (∀ P, is_parent s P n → Frozen x1 P) as Hpar1.
      { intros P HP.
        eapply (Frozen_below rank x x1 recv);
          [by eapply ranked_static; [apply Fx|]|apply Fx1| | |by apply Hpar].
        - intros X HX. apply holds_status_upd_other; [done|apply holds_status_refl].
        - specialize (Hrk P n HP). lia. }
      destruct Hcall as [[_ ->]|[_ Hrun]].
      { split; [done|]. split; [done|]. by exists ndx. }
      pose proof (run_frame fuel recv _ _ (final_ok _ _ Hrun)) as F12.
      destruct (run_frozen rank fuel recv x1 x2
                  (wired_static _ _ (proj1 F1) Hw)
                  (ranked_static _ _ _ (proj1 F1) Hrk) Hrun) as (K2 & _ & _).
      split; [by eapply frame_trans|]. split.
      { intros P HP. eapply keeps_frozen_Frozen; [apply F12|exact K2|].
        by apply Hpar1. }
      destruct (run_keeps_running fuel recv _ _ (final_ok _ _ Hrun))
        as (new & E & Hkr).
      destruct (Hkr n ndx Hnx1 Hrx) as (ndy & Hny & Hry & Hdy & _).
      exists ndy. split; [done|].
      destruct (run_tracks fuel recv _ _ (final_ok _ _ Hrun))
        as (new' & E' & HB & Htr).
      assert (new' = new) as ->.
      { rewrite E in E'. by apply app_inv_tail in E'. }
      destruct (Htr n ndx Hnx1) as (ndy' & Hny' & Hsy & _).
      assert (ndy' = ndy) as -> by congruence.
      destruct K2 as (new'' & E'' & HK2).
      assert (new'' = new) as ->.
      { rewrite E in E''. by apply app_inv_tail in E''. }
      repeat split; try congruence.
      + rewrite Hsy; [done|]. intros P v' HP Hin'.
        apply (static_is_parent s x1) in HP; [|apply F1].
        apply (HK2 P (Hpar1 P HP)). by apply (HB P v').
      + eapply logged_between_mono; [apply F12|].
        eapply logged_between_mono; [apply Fx1|done]. }
  exists (fin_write nd3), v.
  split; [by rewrite node_upd_eq, Hn3|]. split; [done|]. split; [done|].
  assert (same_wiring nd nd3) as Hw3.
  { destruct F3 as [St3 _]. specialize (St3 n). rewrite Hn in St3.
    destruct St3 as (nd' & Hn' & Hsw). by assert (nd' = nd3) as -> by congruence. }
  assert (same_wiring nd nd2) as Hw2.
  { destruct F2 as [St2 _]. specialize (St2 n). rewrite Hn in St2.
    destruct St2 as (nd' & Hn' & Hsw). by assert (nd' = nd2) as -> by congruence. }
  split; [by destruct Hw3|]. split.
  - replace (set__data (_data nd) (set_running true (set_uptodate false (fin_write nd3))))
      with nd2; [done|].
    specialize (Hu2 Hu). clear Hn2 Hn3 Hp H3 HL3 H2.
    destruct Hw2 as [_ A1 A2 A3 A4 A5 A6], Hw3 as [_ B1 B2 B3 B4 B5 B6].
    destruct nd2, nd3; simpl in *.
    unfold set__data, set_running, set_uptodate, fin_write; simpl.
    f_equal; congruence.
  - split; [done|]. eapply logged_between_mono; [|exact HL3]. by exists [].
Qed.

(** ** Enough fuel: [run] returns *)

Lemma stays_running_refl s : stays_running s s.
Proof. intros n nd Hn Hr. eauto. Qed.

Lemma stays_running_trans s1 s2 s3 :
  stays_running s1 s2 → stays_running s2 s3 → stays_running s1 s3.
Proof.
  intros H12 H23 n nd Hn Hr. destruct (H12 n nd Hn Hr) as (nd2 & Hn2 & Hr2).
  eauto.
Qed.

Lemma keeps_running_stays s x : keeps_running s x → stays_running s x.
Proof.
  intros (new & _ & H) n nd Hn Hr.
  destruct (H n nd Hn Hr) as (nd' & Hn' & Hr' & _). eauto.
Qed.

Lemma stays_running_upd s n (f : Node → Node) :
  (∀ nd, _running nd = true → _running (f nd) = true) →
  stays_running s (upd n f s).
Proof.
  intros Hf m nd Hm Hr. rewrite node_upd. case_decide; subst; [|eauto].
  rewrite Hm. simpl. eauto.
Qed.

Lemma idle_list_le (l l' : list Node) :
  (∀ i, match l !! i with
        | Some nd => ∃ nd', l' !! i = Some nd'
                       ∧ (_running nd = true → _running nd' = true)
        | None => l' !! i = None
        end) →
  length (filter (λ nd, _running nd = false) l')
  ≤ length (filter (λ nd, _running nd = false) l).
Proof.
  revert l'. induction l as [|y r IH]; intros l' H.
  - specialize (H 0). simpl in H. destruct l'; [done|]. done.
  - pose proof (H 0) as H0. simpl in H0. destruct H0 as (y' & Hy' & Hr).
    destruct l' as [|y'' r']; [done|]. simpl in Hy'. inversion Hy'; subst y''.
    specialize (IH r' (λ i, H (S i))).
    rewrite !filter_cons. repeat case_decide; simpl; try lia.
    destruct (_running y) eqn:E; [|done]. rewrite Hr in *; done.
Qed.

Lemma idle_le s x : static s x → stays_running s x → idle x ≤ idle s.
Proof.
  intros Hst Hsr. apply idle_list_le. intros i. specialize (Hst i).
  unfold node in *. destruct (heap s !! i) as [nd|] eqn:Hi; [|done].
  destruct Hst as (nd' & Hn' & _). exists nd'. split; [done|].
  intros Hr. destruct (Hsr i nd Hi Hr) as (nd'' & Hn'' & Hr'').
  unfold node in Hn''. congruence.
Qed.

Lemma idle_list_enter (l : list Node) i nd :
  l !! i = Some nd → _running nd = false →
  length (filter (λ nd, _running nd = false) (alter (set_running true) i l))
  < length (filter (λ nd, _running nd = false) l).
Proof.
  revert i. induction l as [|y r IH]; intros [|i] Hi Hr; simpl in *; try done.
  - inversion Hi; subst y. rewrite !filter_cons.
    repeat case_decide; simpl in *; first [done|lia|congruence].
  - specialize (IH i Hi Hr).
    change (list_alter (set_running true) i r)
      with (alter (set_running true) i r).
    rewrite !filter_cons. repeat case_decide; simpl; lia.
Qed.

Lemma idle_enter n s nd e :
  node n s = Some nd → _running nd = false →
  idle (upd n (set_running true) (log e s)) < idle s.
Proof. intros Hn Hr. by apply (idle_list_enter (heap s) n nd). Qed.

Lemma keys_lookup_source k (l : list (string * @Source Data)) :
  k ∈ keys l → is_Some (lookup_source k l).
Proof.
  unfold keys. induction l as [|[k' x] r IH]; simpl.
  - by intros ?%not_elem_of_nil.
  - intros Hin. destruct (String.eqb_spec k k') as [->|Hne]; [by eexists|].
    apply IH. apply elem_of_cons in Hin as [?|?]; [done|done].
Qed.

Lemma wiring_of_keys nd nd' : same_wiring nd nd' → keys (_sources nd') = keys (_sources nd).
Proof.
  intros [Hs _ _ _ _ _ _]. unfold wiring_of, keys in *.
  apply (f_equal (fmap fst)) in Hs.
  rewrite <-!list_fmap_compose in Hs. exact Hs.
Qed.

Section Returns.

Variable run_rec : nat → State → outcome.

Lemma run_sources_with_returns (I : State → Prop) self ks s :
  I s →
  (∀ x, I x → ∃ nd, node self x = Some nd
                ∧ ∀ k, k ∈ ks → is_Some (lookup_source k (_sources nd))) →
  (∀ up x, I x → is_ref x self up → ∃ x', run_rec up x = Ok x' ∧ I x') →
  ∃ s', run_sources_with run_rec self ks s = Ok s' ∧ I s'.
Proof.
  intros Hs Hnode Hstep. revert s Hs.
  induction ks as [|k r IH]; intros s Hs; simpl; [eauto|].
  destruct (Hnode s Hs) as (nd & Hn & Hks). rewrite Hn. simpl.
  destruct (Hks k) as [src Hk]; [left|]. rewrite Hk.
  assert (∀ x, I x → ∃ nd, node self x = Some nd
                      ∧ ∀ k, k ∈ r → is_Some (lookup_source k (_sources nd)))
    as Hnode'.
  { intros x Hx. destruct (Hnode x Hx) as (ndx & Hnx & Hkx).
    exists ndx. split; [done|]. intros k' Hk'. apply Hkx. by right. }
  destruct (ref src) as [up|] eqn:Href; [|by apply IH].
  destruct (Hstep up s Hs) as (x' & Hrun & Hx'); [by exists nd, k, src|].
  rewrite Hrun. simpl. by apply IH.
Qed.

Lemma emit_dataProcessed_with_returns (I : State → Prop) conns v s :
  I s →
  (∀ recv attr x, (recv, attr) ∈ conns → I x →
     ∃ x', call_setfunc_with run_rec recv v x = Ok x' ∧ I x') →
  ∃ s', emit_dataProcessed_with run_rec conns v s = Ok s' ∧ I s'.
Proof.
  revert s. induction conns as [|[recv attr] r IH]; intros s Hs Hstep; simpl;
    [eauto|].
  destruct (Hstep recv attr s) as (x' & Hcall & Hx'); [left|done|].
  rewrite Hcall. simpl. apply IH; [done|].
  intros r0 a0 x Hin. apply (Hstep r0 a0). by right.
Qed.

End Returns.

Lemma has_source_closure_k nd k :
  closure_k nd = Some k → has_source k (_sources nd) = true.
Proof.
  intros Hk. apply last_Some_elem_of, keys_lookup_source in Hk as [src Hsrc].
  unfold has_source. by rewrite Hsrc.
Qed.

Lemma closure_k_is_Some nd k src :
  lookup_source k (_sources nd) = Some src → is_Some (closure_k nd).
Proof.
  intros Hk%lookup_source_keys. apply last_is_Some. intros E.
  rewrite E in Hk. by apply not_elem_of_nil in Hk.
Qed.

Lemma static_node s x n nd :
  static s x → node n s = Some nd → ∃ nd', node n x = Some nd' ∧ same_wiring nd nd'.
Proof. intros Hst Hn. specialize (Hst n). by rewrite Hn in Hst. Qed.

(** With no exception from [processData] and consistent wiring, [run]
    returns as soon as the fuel exceeds the number of idle nodes. *)
Lemma run_returns fuel n s :
  (∀ m nd, ∃ v, processData m nd = PReturn v) →
  wired s → is_Some (node n s) → idle s < fuel →
  ∃ s', run fuel n s = Ok s'.
Proof.
  intros Htotal. revert n s.
  induction fuel as [|fuel IH]; intros n s Hw [nd Hn] Hlt; [lia|].
  simpl. rewrite Hn. unfold run_body_with.
  destruct (_running nd) eqn:Hr; simpl; [eauto|].
  set (s1 := upd n (set_running true) (log (EvRun n) s)).
  assert (frame s s1) as F1 by (subst s1; frame_steps).
  assert (idle s1 < fuel) as Hlt1.
  { pose proof (idle_enter n s nd (EvRun n) Hn Hr). subst s1. lia. }
  assert (node n s1 = Some (set_running true nd)) as Hn1.
  { subst s1. by rewrite node_upd_eq, node_log, Hn. }
  set (I := λ x : State, frame s1 x ∧ stays_running s1 x).
  assert (∀ x, I x → wired x ∧ idle x < fuel) as HI.
  { intros x [Fx Sx]. split.
    - eapply wired_static; [|exact Hw]. apply (frame_trans _ _ _ F1 Fx).
    - pose proof (idle_le s1 x (proj1 Fx) Sx). lia. }
  assert (∀ up x x', I x → run fuel up x = Ok x' → I x') as Hrun.
  { intros up x x' [Fx Sx] Hup. split.
    - eapply frame_trans; [exact Fx|]. by apply (run_frame fuel up), final_ok.
    - eapply stays_running_trans; [exact Sx|].
      by apply keeps_running_stays, (run_keeps_running fuel up), final_ok. }
  destruct (run_sources_with_returns (run fuel) I n (keys (_sources nd)) s1)
    as (s2 & H2 & I2).
  { split; [apply frame_refl|apply stays_running_refl]. }
  { intros x [Fx Sx].
    destruct (static_node _ _ _ _ (proj1 Fx) Hn1) as (ndx & Hnx & Hsw).
    exists ndx. split; [done|]. intros k Hk. apply keys_lookup_source.
    by rewrite (wiring_of_keys _ _ Hsw). }
  { intros up x Ix Href. destruct (HI x Ix) as [Hwx Hltx].
    destruct (IH up x Hwx) as (x' & Hup); [|done|eauto].
    apply (wired_ref_parent x Hwx) in Href as (ndu & attr & Hnu & _). eauto. }
  rewrite H2. simpl.
  destruct (static_node _ _ _ _ (proj1 (proj1 I2)) Hn1) as (nd2 & Hn2 & Hsw2).
  rewrite Hn2. destruct (_uptodate nd2); simpl; [eauto|].
  destruct (Htotal n nd2) as [v ->].
  unfold data_setter_with, broadcastData_with.
  rewrite node_upd_eq, node_log, Hn2. simpl.
  set (sb := log _ _).
  destruct (emit_dataProcessed_with_returns (run fuel) I (dataProcessed nd2)
              (normalize v) sb) as (s3 & H3 & I3).
  { destruct I2 as [F2 S2]. split.
    - subst sb. by frame_steps.
    - eapply stays_running_trans; [exact S2|]. subst sb.
      intros m ndm Hm Hrm. rewrite node_log, node_upd, node_log.
      case_decide; subst; [|eauto]. rewrite Hm. simpl. eauto. }
  { intros recv attr x Hin Ix. destruct (HI x Ix) as [Hwx Hltx].
    destruct Ix as [Fx Sx].
    destruct (static_node _ _ _ _ (proj1 Fx) Hn1) as (ndx & Hnx & Hswx).
    assert (is_parent x n recv) as Hpar.
    { exists ndx, attr. split; [done|].
      rewrite (sw_dataProcessed _ _ Hswx).
      by rewrite <-(sw_dataProcessed _ _ Hsw2). }
    apply (wired_parent_ref x Hwx) in Hpar as (ndr & k & src & Hnr & Hk & _).
    unfold call_setfunc_with, setSourceData_with. rewrite Hnr.
    destruct (closure_k_is_Some _ _ _ Hk) as [k' Hk']. rewrite Hk'.
    rewrite (has_source_closure_k _ _ Hk').
    set (x1 := upd recv (ssd_write k' (normalize v)) x).
    assert (I x1) as I1.
    { split.
      - subst x1. by frame_steps.
      - eapply stays_running_trans; [exact Sx|].
        by apply stays_running_upd. }
    destruct (_updateOnSource ndr); [|eauto].
    destruct (HI x1 I1) as [Hw1 Hlt1'].
    destruct (IH recv x1 Hw1) as (x' & Hup); [|done|eauto].
    subst x1. rewrite node_upd_eq, Hnr. by eexists. }
  rewrite H3. simpl. eauto.
Qed.

(** ** Option setters with recomputation *)

Lemma is_parent_upd n (f : Node → Node) s P U :
  (∀ nd, dataProcessed (f nd) = dataProcessed nd) →
  is_parent (upd n f s) P U ↔ is_parent s P U.
Proof.
  intros Hf. unfold is_parent. setoid_rewrite node_upd.
  case_decide; subst; [|done]. split.
  - intros (nd' & attr & Hn & Hin).
    destruct (node P s) as [nd|]; [|done]. simpl in Hn. inversion Hn; subst.
    rewrite Hf in Hin. eauto.
  - intros (nd & attr & Hn & Hin). rewrite Hn. simpl.
    exists (f nd), attr. by rewrite Hf.
Qed.

Lemma is_ref_upd n (f : Node → Node) s U P :
  (∀ nd, _sources (f nd) = _sources nd) →
  is_ref (upd n f s) U P ↔ is_ref s U P.
Proof.
  intros Hf. unfold is_ref. setoid_rewrite node_upd.
  case_decide; subst; [|done]. split.
  - intros (nd' & k & src & Hn & Hk & Hr).
    destruct (node U s) as [nd|]; [|done]. simpl in Hn. inversion Hn; subst.
    rewrite Hf in Hk. eauto 10.
  - intros (nd & k & src & Hn & Hk & Hr). rewrite Hn. simpl.
    exists (f nd), k, src. by rewrite Hf.
Qed.

Lemma wired_upd n (f : Node → Node) s e :
  (∀ nd, dataProcessed (f nd) = dataProcessed nd) →
  (∀ nd, _sources (f nd) = _sources nd) →
  wired s → wired (log e (upd n f s)).
Proof.
  intros Hd Hs [H1 H2]. split.
  - intros P U HP. apply (is_ref_upd n f s); [done|].
    apply H1. by apply (is_parent_upd n f s P U).
  - intros U P HR. apply (is_parent_upd n f s P U); [done|].
    apply H2. by apply (is_ref_upd n f s U P).
Qed.

Lemma ranked_upd rank n (f : Node → Node) s e :
  (∀ nd, dataProcessed (f nd) = dataProcessed nd) →
  ranked rank s → ranked rank (log e (upd n f s)).
Proof.
  intros Hd Hrk P U HP. apply Hrk. by apply (is_parent_upd n f s P U).
Qed.

(** ** Consistent wiring is what [setSource] builds *)

Lemma lookup_alter_source (g : @Source Data → @Source Data) k k' l :
  lookup_source k' (alter_source g k l)
  = if String.eqb k' k then g <$> lookup_source k l else lookup_source k' l.
Proof.
  induction l as [|[k1 x1] r IH]; simpl; [by destruct (String.eqb k' k)|].
  destruct (String.eqb_spec k k1) as [->|Hne]; simpl.
  - by destruct (String.eqb_spec k' k1).
  - rewrite IH. destruct (String.eqb_spec k' k1) as [->|Hne']; [|done].
    by destruct (String.eqb_spec k1 k) as [->|_].
Qed.

Lemma broadcastData_frame fuel n : sat (broadcastData fuel n) frame.
Proof.
  intros s s' Hf.
  apply broadcastData_inv in Hf as [[_ ->]|(nd & Hn & Hf)]; [apply frame_refl|].
  eapply frame_trans; [apply frame_log|]. by apply emit_dataProcessed_frame in Hf.
Qed.

Lemma emit_dataRequested_frame fuel conns :
  sat (Engine.emit_dataRequested empty_dict processData fuel conns) frame.
Proof.
  induction conns as [|u r IH]; intros s s' Hf; simpl in Hf.
  - inversion Hf; subst. apply frame_refl.
  - apply bind_final in Hf as [[e He]|(s1 & H1 & Hf)].
    + apply (broadcastData_frame fuel u). by rewrite He.
    + eapply frame_trans; [|by apply IH].
      apply (broadcastData_frame fuel u). by rewrite H1.
Qed.

(** Nodes that have just been constructed are wired consistently: there
    are no links and no references. *)
Lemma wired_unwired s :
  (∀ n nd, node n s = Some nd →
     dataProcessed nd = []
     ∧ ∀ k src, lookup_source k (_sources nd) = Some src → ref src = None) →
  wired s.
Proof.
  intros H. split.
  - intros P U (nd & attr & Hn & Hin). destruct (H P nd Hn) as [E _].
    rewrite E in Hin. by apply not_elem_of_nil in Hin.
  - intros U P (nd & k & src & Hn & Hk & Hr). destruct (H U nd Hn) as [_ E].
    rewrite (E k src Hk) in Hr. done.
Qed.

(** Wiring a source that has no reference yet keeps the wiring
    consistent. *)
Lemma setSource_wired fuel n k u s s' nd src :
  wired s →
  node n s = Some nd →
  lookup_source k (_sources nd) = Some src → ref src = None →
  setSource fuel n k (Some u) s = Ok s' →
  wired s'.
Proof.
  intros [Hw1 Hw2] Hn Hk Href Hrun. unfold Engine.setSource in Hrun.
  rewrite Hn in Hrun. unfold has_source in Hrun. rewrite Hk in Hrun.
  simpl in Hrun. rewrite Href in Hrun. simpl in Hrun.
  set (s3 := upd n _ s) in Hrun.
  destruct (node u s3) as [ndu3|] eqn:Hu3; [|done].
  set (s4 := upd u _ s3) in Hrun. set (s5 := upd n _ s4) in Hrun.
  destruct (node n s5) as [nd5|] eqn:Hn5; [|done].
  apply final_ok, emit_dataRequested_frame in Hrun as [Hst _].
  eapply wired_static; [exact Hst|]. clear Hst s' nd5 Hn5.
  assert (∀ P U, is_parent s3 P U ↔ is_parent s P U) as HP3.
  { intros P U. subst s3. by apply is_parent_upd. }
  assert (∀ P U, is_parent s5 P U ↔ is_parent s P U ∨ (P = u ∧ U = n)) as HP.
  { intros P U. subst s5. rewrite (is_parent_upd n _ s4 P U) by done.
    rewrite <-HP3. subst s4. unfold is_parent. setoid_rewrite node_upd.
    case_decide as Hup; subst.
    - rewrite Hu3. simpl. split.
      + intros (nd' & attr & [= <-] & Hin). simpl in Hin.
        apply elem_of_app in Hin as [Hin|Hin%list_elem_of_singleton].
        * left. by exists ndu3, attr.
        * right. by inversion Hin.
      + intros [(nd' & attr & Hn' & Hin)|[_ ->]].
        * inversion Hn'; subst nd'. eexists _, attr. split; [done|].
          simpl. apply elem_of_app. by left.
        * eexists _, _. split; [done|]. simpl. apply elem_of_app. right. left.
    - split; [intros H; left; exact H|].
      intros [H|[? _]]; [exact H|congruence]. }
  assert (∀ U P, is_ref s5 U P ↔ is_ref s U P ∨ (U = n ∧ P = u)) as HR.
  { intros U P. subst s5. rewrite (is_ref_upd n _ s4 U P) by done.
    subst s4. rewrite (is_ref_upd u _ s3 U P) by done.
    subst s3. unfold is_ref at 1. setoid_rewrite node_upd.
    case_decide as Hup; subst;
      [|split; [intros H; left; exact H|intros [H|[? _]]; [exact H|congruence]]].
    rewrite Hn. simpl. split.
    - intros (nd' & k' & src' & [= <-] & Hk' & Hr'). simpl in Hk'.
      unfold set_source_ref in Hk'. rewrite lookup_alter_source in Hk'.
      destruct (String.eqb_spec k' k) as [->|Hne].
      + rewrite Hk in Hk'. simpl in Hk'. inversion Hk'; subst. simpl in Hr'.
        right. split; [done|congruence].
      + left. by exists nd, k', src'.
    - intros [(nd' & k' & src' & Hn' & Hk' & Hr')|[_ ->]].
      + assert (nd' = nd) as -> by congruence.
        assert (k' ≠ k) as Hne by (intros ->; congruence).
        eexists _, k', src'. split; [done|]. split; [|done]. simpl.
        unfold set_source_ref. rewrite lookup_alter_source.
        by destruct (String.eqb_spec k' k).
      + eexists _, k, _. split; [done|]. simpl.
        unfold set_source_ref. rewrite lookup_alter_source, String.eqb_refl, Hk.
        simpl. split; reflexivity. }
  split.
  - intros P U [HPU|[-> ->]]%HP; apply HR; [left; by apply Hw1|by right].
  - intros U P [HUP|[-> ->]]%HR; apply HP; [left; by apply Hw2|by right].
Qed.

(** C4. In a wiring that is consistent and free of cycles, a setter
    wrapped by [updateOption], used on a node that is not running while
    [_updateOnOptionChange] is on, stores the option and runs the node at
    once.  The call returns (given enough fuel and a [processData] that never
    raises), and whenever it returns the node is up to date, not running,
    holds the new option, and its output is what [processData] returned for
    the node with the source data and options it has at the end (and the
    flags and the old output it had while computing).  When [processData]
    reads the source data and options only, that is [processData] of the
    node as the call leaves it. *)
Theorem updateOption_recomputes (st : setter) n s nd :
  wired s → acyclic s →
  node n s = Some nd →
  _running nd = false →
  _updateOnOptionChange nd = true →
  ((∀ m nd0, ∃ v, processData m nd0 = PReturn v) →
   ∃ fuel s', updateOption (setter_func st) fuel n s = Ok s')
  ∧ ∀ fuel s', updateOption (setter_func st) fuel n s = Ok s' →
      ∃ nd' v,
        node n s' = Some nd'
        ∧ match st with
          | SetGrid val => _grid nd' = val ∧ _opts nd' = _opts nd
          | SetOption store => _opts nd' = store (_opts nd) ∧ _grid nd' = _grid nd
          end
        ∧ _uptodate nd' = true
        ∧ _running nd' = false
        ∧ processData n (set__data (_data nd)
                           (set_running true (set_uptodate false nd')))
          = PReturn v
        ∧ _data nd' = normalize v
        ∧ (reads_inputs_only processData → processData n nd' = PReturn v)
        ∧ logged_between s s' (EvOptionsUpdated n)
        ∧ logged_between s s' (EvProcessData n).
Proof.
  intros Hw [rank Hrk] Hn Hr Hflag.
  set (func := setter_func st).
  set (sb := log (EvOptionsUpdated n) (upd n (λ x, set_uptodate false (func x)) s)).
  assert (∀ nd0, dataProcessed (set_uptodate false (func nd0)) = dataProcessed nd0)
    as Hd by (intros; subst func; by destruct st).
  assert (∀ nd0, _sources (set_uptodate false (func nd0)) = _sources nd0)
    as Hs by (intros; subst func; by destruct st).
  assert (wired sb) as Hwb by (by apply wired_upd).
  assert (ranked rank sb) as Hrkb by (by apply ranked_upd).
  assert (node n sb = Some (set_uptodate false (func nd))) as Hnb.
  { subst sb. by rewrite node_log, node_upd_eq, Hn. }
  assert (∀ fuel, updateOption func fuel n s = run fuel n sb) as Heq.
  { intros fuel. unfold Engine.updateOption. rewrite Hn.
    replace (_updateOnOptionChange (func nd)) with true; [done|].
    subst func. by destruct st. }
  split.
  - intros Htotal. exists (S (idle sb)).
    destruct (run_returns (S (idle sb)) n sb Htotal Hwb) as [s' Hs'];
      [by eexists|lia|].
    exists s'. by rewrite Heq.
  - intros fuel s' Hrun. rewrite Heq in Hrun.
    destruct (run_recomputes rank fuel n sb _ s' Hwb Hrkb Hnb)
      as (nd' & v & Hn' & Hu' & Hr' & Hsw & Hp & Hd' & HL);
      [subst func; by destruct st|done|done|].
    exists nd', v. split; [done|]. split.
    { destruct Hsw as [_ _ _ Hg Ho _ _]. subst func.
      destruct st; simpl in *; by rewrite Hg, Ho. }
    split; [done|]. split; [done|]. split.
    { rewrite <-Hp. f_equal. subst func. by destruct st. }
    split; [done|]. split.
    { intros Hpure. rewrite <-Hp. by apply Hpure. }
    pose proof (run_frame fuel n _ _ (final_ok _ _ Hrun)) as [_ [new E]].
    split.
    + exists (new ++ [EvOptionsUpdated n]). split.
      * rewrite E. subst sb. simpl. by rewrite <-(assoc_L (++)).
      * apply elem_of_app. right. left.
    + destruct HL as (new' & E' & Hin). exists (new' ++ [EvOptionsUpdated n]).
      split.
      * rewrite E'. subst sb. simpl. by rewrite <-(assoc_L (++)).
      * apply elem_of_app. by left.
Qed.

(** * Further properties of the engine *)

(** ** A node as [__init__] leaves it *)

Lemma init_sources_elem (names : list string) k (src : @Source Data) :
  (k, src) ∈ init_sources names → k ∈ names ∧ src = mkSource None None.
Proof.
  induction names as [|k0 r IH]; simpl; [by intros ?%not_elem_of_nil|].
  intros [Heq|Hin]%elem_of_cons.
  - inversion Heq; subst. split; [left|done].
  - apply list_elem_of_filter in Hin as [_ Hin]. destruct (IH Hin) as [? ?].
    split; [by right|done].
Qed.

Lemma init_sources_keys (names : list string) k :
  k ∈ keys (@init_sources Data names) ↔ k ∈ names.
Proof.
  unfold keys. induction names as [|k0 r IH]; simpl; [done|].
  rewrite !elem_of_cons, <-IH, !list_elem_of_fmap.
  destruct (decide (k = k0)) as [->|Hne]; [by split; left|].
  split.
  - intros [?|([k1 x1] & -> & Hin)]; [done|].
    apply list_elem_of_filter in Hin as [_ Hin]. right. by exists (k1, x1).
  - intros [?|([k1 x1] & -> & Hin)]; [done|]. right. exists (k1, x1).
    split; [done|]. apply list_elem_of_filter. split; [|done]. simpl in *.
    apply negb_prop_intro. intros E%Is_true_eq_true%String.eqb_eq. congruence.
Qed.

Lemma filter_keys_NoDup (P : string * @Source Data → Prop)
    `{∀ p, Decision (P p)} (l : list (string * @Source Data)) :
  NoDup (keys l) → NoDup (keys (filter P l)).
Proof.
  unfold keys. induction l as [|[k x] r IH]; simpl; [done|].
  intros [Hk Hr]%NoDup_cons. rewrite filter_cons. case_decide; [|by apply IH].
  simpl. apply NoDup_cons. split; [|by apply IH].
  intros ([k1 x1] & E & Hin%list_elem_of_filter)%list_elem_of_fmap.
  simpl in E. subst k1. apply Hk. apply list_elem_of_fmap. exists (k, x1).
  by destruct Hin.
Qed.

Lemma init_sources_NoDup (names : list string) :
  NoDup (keys (@init_sources Data names)).
Proof.
  induction names as [|k0 r IH]; simpl; [apply NoDup_nil_2|].
  change (NoDup (k0 :: keys (filter (λ p : string * @Source Data,
                                       negb (String.eqb k0 p.1))
                               (init_sources r)))).
  apply NoDup_cons. split; [|by apply filter_keys_NoDup].
  intros ([k1 x1] & E & Hin%list_elem_of_filter)%list_elem_of_fmap.
  simpl in E. subst k1. destruct Hin as [Hne _]. simpl in Hne.
  by rewrite String.eqb_refl in Hne.
Qed.

Lemma lookup_source_elem k (l : list (string * @Source Data)) src :
  lookup_source k l = Some src → (k, src) ∈ l.
Proof.
  induction l as [|[k1 x1] r IH]; simpl; [done|].
  destruct (String.eqb_spec k k1) as [->|Hne].
  - intros [= ->]. left.
  - intros H. right. by apply IH.
Qed.

Lemma filter_all (P : string * @Source Data → Prop) `{∀ p, Decision (P p)}
    (l : list (string * @Source Data)) :
  (∀ p, p ∈ l → P p) → filter P l = l.
Proof.
  induction l as [|p r IH]; intros Hall; [done|].
  rewrite filter_cons. case_decide as Hp.
  - f_equal. apply IH. intros q Hq. apply Hall. by right.
  - exfalso. apply Hp, Hall. left.
Qed.

(** X1. [NodeBase.__init__] gives the node one source per name of the
    class attribute [sources], each exactly once and with neither a
    reference nor data; when the names are distinct the keys are the names
    in their order. *)
Theorem NodeBase_init_sources (names : list string) (o : Opts) :
  NoDup (keys (_sources (@NodeBase_init Data Opts names o)))
  ∧ (∀ k, k ∈ keys (_sources (@NodeBase_init Data Opts names o)) ↔ k ∈ names)
  ∧ (∀ k, k ∈ names →
       lookup_source k (_sources (@NodeBase_init Data Opts names o))
       = Some (mkSource None None))
  ∧ (NoDup names → keys (_sources (@NodeBase_init Data Opts names o)) = names).
Proof.
  simpl. split; [apply init_sources_NoDup|]. split; [apply init_sources_keys|].
  split.
  - intros k Hk. apply init_sources_keys, keys_lookup_source in Hk as [src Hsrc].
    rewrite Hsrc. f_equal.
    by apply lookup_source_elem, init_sources_elem in Hsrc as [_ ->].
  - induction names as [|k0 r IH]; simpl; [done|].
    intros [Hk Hr]%NoDup_cons. unfold keys in *. simpl. f_equal.
    rewrite filter_all; [by apply IH|].
    intros [k1 x1] Hin. simpl. apply negb_prop_intro.
    intros E%Is_true_eq_true%String.eqb_eq. subst k1.
    apply Hk. by apply init_sources_elem in Hin as [? _].
Qed.

(** ** [setSourceData] *)

Lemma has_source_not_key k (l : list (string * @Source Data)) :
  k ∉ keys l → has_source k l = false.
Proof.
  intros Hk. unfold has_source.
  destruct (lookup_source k l) as [src|] eqn:E; [|done].
  by apply lookup_source_keys in E.
Qed.

(** X2. [setSourceData] with a name that is not a key of [_sources] raises
    [ValueError] before anything is stored or run. *)
Theorem setSourceData_unrecognized fuel n k v s nd :
  node n s = Some nd →
  k ∉ keys (_sources nd) →
  setSourceData fuel n k v s = Raise ValueError s.
Proof.
  intros Hn Hk. unfold Engine.setSourceData, setSourceData_with.
  by rewrite Hn, has_source_not_key.
Qed.

(** X3. With [updateOnSource] off, [setSourceData] stores the value in the
    named source and clears [_uptodate], and that is all: the reference of
    the source, the other sources, the output and [_running] are as before,
    no other node changes, and nothing is run or emitted. *)
Theorem setSourceData_manual fuel n k v s nd src :
  node n s = Some nd →
  lookup_source k (_sources nd) = Some src →
  _updateOnSource nd = false →
  ∃ s' nd',
    setSourceData fuel n k v s = Ok s'
    ∧ node n s' = Some nd'
    ∧ lookup_source k (_sources nd') = Some (mkSource (ref src) v)
    ∧ (∀ k', k' ≠ k →
         lookup_source k' (_sources nd') = lookup_source k' (_sources nd))
    ∧ keys (_sources nd') = keys (_sources nd)
    ∧ _uptodate nd' = false
    ∧ _data nd' = _data nd
    ∧ _running nd' = _running nd
    ∧ (∀ m, m ≠ n → node m s' = node m s)
    ∧ trace s' = trace s.
Proof.
  intros Hn Hk Hflag.
  exists (upd n (ssd_write k v) s), (ssd_write k v nd). split.
  { unfold Engine.setSourceData, setSourceData_with, has_source.
    by rewrite Hn, Hk, Hflag. }
  split; [by rewrite node_upd_eq, Hn|].
  split.
  { simpl. unfold set_source_data.
    by rewrite lookup_alter_source, String.eqb_refl, Hk. }
  split.
  { intros k' Hk'. simpl. unfold set_source_data.
    rewrite lookup_alter_source. by destruct (String.eqb_spec k' k). }
  split; [apply wiring_of_keys, same_wiring_ssd_write|].
  repeat split. intros m Hm. by rewrite node_upd_ne.
Qed.

(** ** What the data calls leave alone *)

(** X4. [run], [setSourceData], the [data] setter and [broadcastData]
    never touch the wiring: whether they return or raise, every node still
    has the same source names and references, the same policy flags, grid
    flag and options, and the same connections; no node appears or
    disappears; and the log only grows. *)
Theorem data_calls_preserve_wiring fuel (c : Call) s s' :
  moves_data_only c = true →
  final (exec fuel c s) = Some s' →
  (∀ m nd, node m s = Some nd →
     ∃ nd', node m s' = Some nd' ∧ same_wiring nd nd')
  ∧ (∀ m, node m s = None → node m s' = None)
  ∧ ∃ new, trace s' = new ++ trace s.
Proof.
  intros Hc Hf.
  assert (frame s s') as [Hst Hex].
  { destruct c as [n|n k v|n k r|n v|n|n func]; simpl in Hc, Hf; try done.
    - by apply (run_frame fuel n).
    - by apply (setSourceData_frame fuel n k v).
    - eapply frame_trans; [|by apply (broadcastData_frame fuel n) in Hf].
      by apply frame_upd.
    - by apply (broadcastData_frame fuel n). }
  split; [|split; [|done]].
  - intros m nd Hm. specialize (Hst m). by rewrite Hm in Hst.
  - intros m Hm. specialize (Hst m). by rewrite Hm in Hst.
Qed.

(** ** Termination *)

Section Terminates.

Variable run_rec : nat → State → outcome.

Lemma run_sources_with_fuel (I : State → Prop) self ks s :
  I s →
  (∀ up x, I x → run_rec up x ≠ OutOfFuel) →
  (∀ up x x', I x → run_rec up x = Ok x' → I x') →
  run_sources_with run_rec self ks s ≠ OutOfFuel.
Proof.
  intros Hs Hne Hstep. revert s Hs.
  induction ks as [|k r IH]; intros s Hs; simpl; [done|].
  destruct (node self s ≫= _) as [src|]; [|done].
  destruct (ref src) as [up|]; [|by apply IH].
  destruct (run_rec up s) as [x'|e x'|] eqn:E; simpl; [|done|].
  - apply IH. by apply (Hstep up s).
  - by apply Hne in E.
Qed.

Lemma emit_dataProcessed_with_fuel (I : State → Prop) conns v s :
  I s →
  (∀ recv x, I x → call_setfunc_with run_rec recv v x ≠ OutOfFuel) →
  (∀ recv x x', I x → call_setfunc_with run_rec recv v x = Ok x' → I x') →
  emit_dataProcessed_with run_rec conns v s ≠ OutOfFuel.
Proof.
  intros Hs Hne Hstep. revert s Hs.
  induction conns as [|[recv attr] r IH]; intros s Hs; simpl; [done|].
  destruct (call_setfunc_with run_rec recv v s) as [x'|e x'|] eqn:E; simpl;
    [|done|].
  - apply IH. by apply (Hstep recv s).
  - by apply Hne in E.
Qed.

End Terminates.

Lemma run_fuel_enough fuel n s : idle s < fuel → run fuel n s ≠ OutOfFuel.
Proof.
  revert n s. induction fuel as [|fuel IH]; intros n s Hlt; [lia|].
  simpl. destruct (node n s) as [nd|] eqn:Hn; [|done].
  unfold run_body_with. destruct (_running nd) eqn:Hr; simpl; [done|].
  set (s1 := upd n (set_running true) (log (EvRun n) s)).
  assert (frame s s1) as F1 by (subst s1; frame_steps).
  assert (idle s1 < fuel) as Hlt1.
  { pose proof (idle_enter n s nd (EvRun n) Hn Hr). subst s1. lia. }
  set (I := λ x : State, frame s1 x ∧ stays_running s1 x).
  assert (∀ x, I x → idle x < fuel) as HI.
  { intros x [Fx Sx]. pose proof (idle_le s1 x (proj1 Fx) Sx). lia. }
  assert (∀ up x x', I x → run fuel up x = Ok x' → I x') as Hrun.
  { intros up x x' [Fx Sx] Hup. split.
    - eapply frame_trans; [exact Fx|]. by apply (run_frame fuel up), final_ok.
    - eapply stays_running_trans; [exact Sx|].
      by apply keeps_running_stays, (run_keeps_running fuel up), final_ok. }
  assert (I s1) as I1 by (split; [apply frame_refl|apply stays_running_refl]).
  destruct (run_sources_with (run fuel) n (keys (_sources nd)) s1)
    as [s2|e s2|] eqn:H2; simpl; [|done|].
  2: { exfalso.
       refine (run_sources_with_fuel (run fuel) I n _ s1 I1 _ Hrun H2).
       intros up x Ix. by apply IH, HI. }
  assert (I s2) as I2.
  { apply (run_sources_with_ok_inv (run fuel) (λ _, I) n
             (keys (_sources nd)) s1 s2); try done.
    intros k r x ndx src up x' Ix _ _ _. by apply Hrun. }
  destruct (node n s2) as [nd2|] eqn:Hn2; [|done].
  destruct (_uptodate nd2); simpl; [done|].
  destruct (processData n nd2) as [v|e]; [|done].
  unfold data_setter_with, broadcastData_with.
  rewrite node_upd_eq, node_log, Hn2. simpl.
  set (sb := log _ _).
  assert (∀ recv x k, I x → I (upd recv (ssd_write k (normalize v)) x)) as Hw.
  { intros recv x k [Fx Sx]. split; [by frame_steps|].
    eapply stays_running_trans; [exact Sx|]. by apply stays_running_upd. }
  destruct (emit_dataProcessed_with (run fuel) (dataProcessed nd2)
              (normalize v) sb) as [s3|e s3|] eqn:H3; simpl; [done|done|].
  exfalso.
  refine (emit_dataProcessed_with_fuel (run fuel) I _ _ sb _ _ _ H3).
  - destruct I2 as [F2 S2]. split; [subst sb; by frame_steps|].
    eapply stays_running_trans; [exact S2|]. subst sb.
    intros m ndm Hm Hrm. rewrite node_log, node_upd, node_log.
    case_decide; subst; [|eauto]. rewrite Hm. simpl. eauto.
  - intros recv x Ix. unfold call_setfunc_with, setSourceData_with.
    destruct (node recv x) as [ndr|]; [|done].
    destruct (closure_k ndr) as [k|]; [|done].
    destruct (has_source k (_sources ndr)); [|done].
    destruct (_updateOnSource ndr); [|done].
    by apply IH, HI, Hw.
  - intros recv x x' Ix Hcall.
    apply call_setfunc_with_ok_inv in Hcall
      as (ndr & k & Hnr & Hk & [[_ ->]|[_ Hrun']]); [by apply Hw|].
    eapply Hrun; [|exact Hrun']. by apply Hw.
Qed.

(** X5. [run] terminates on every heap, cyclic wiring included: calls of
    [run] nest no deeper than the number of nodes that are not marked
    running, so with more fuel than that the model never runs dry.  When
    moreover the wiring is consistent and [processData] never raises, the
    call returns normally. *)
Theorem run_terminates fuel n s :
  idle s < fuel →
  run fuel n s ≠ OutOfFuel
  ∧ ((∀ m nd, ∃ v, processData m nd = PReturn v) →
     wired s → is_Some (node n s) →
     ∃ s', run fuel n s = Ok s').
Proof.
  intros Hlt. split; [by apply run_fuel_enough|].
  intros Htotal Hw Hn. by apply run_returns.
Qed.

(** ** Nothing from outside clears [_running] *)

Lemma stays_stuck_refl s : stays_stuck s s.
Proof.
  exists []. split; [done|]. intros n nd Hn Hr. exists nd.
  repeat split; try done. apply not_elem_of_nil.
Qed.

Lemma stays_stuck_trans s1 s2 s3 :
  stays_stuck s1 s2 → stays_stuck s2 s3 → stays_stuck s1 s3.
Proof.
  intros (new1 & E1 & H1) (new2 & E2 & H2). exists (new2 ++ new1). split.
  { rewrite E2, E1. by rewrite (assoc_L (++)). }
  intros n nd Hn Hr. destruct (H1 n nd Hn Hr) as (nd2 & Hn2 & Hr2 & Hp1).
  destruct (H2 n nd2 Hn2 Hr2) as (nd3 & Hn3 & Hr3 & Hp2).
  exists nd3. repeat split; try done. by intros [?|?]%elem_of_app.
Qed.

Lemma keeps_running_stuck s x : keeps_running s x → stays_stuck s x.
Proof.
  intros (new & E & H). exists new. split; [done|]. intros n nd Hn Hr.
  destruct (H n nd Hn Hr) as (nd' & ? & ? & _ & _ & ? & _). eauto.
Qed.

Lemma stays_stuck_upd s n (f : Node → Node) :
  (∀ nd, _running nd = true → _running (f nd) = true) →
  stays_stuck s (upd n f s).
Proof.
  intros Hf. exists []. split; [done|]. intros m nd Hm Hr. rewrite node_upd.
  case_decide; subst; rewrite ?Hm; simpl; eexists; (split; [done|]);
    split; auto using not_elem_of_nil.
Qed.

Lemma stays_stuck_log s e : (∀ n, e ≠ EvProcessData n) → stays_stuck s (log e s).
Proof.
  intros He. exists [e]. split; [done|]. intros n nd Hn Hr. exists nd.
  rewrite node_log. repeat split; try done.
  intros E%list_elem_of_singleton. by apply (He n).
Qed.

Local Hint Resolve stays_stuck_refl : core.

Ltac stuck_steps :=
  repeat first
    [ eapply stays_stuck_trans; [|apply stays_stuck_log; done]
    | eapply stays_stuck_trans; [|apply stays_stuck_upd; done] ];
  try first [assumption | apply stays_stuck_refl].

Lemma run_stuck fuel n : sat (run fuel n) stays_stuck.
Proof. intros s s' Hf. by apply keeps_running_stuck, (run_keeps_running fuel n). Qed.

Lemma setSourceData_stuck fuel n k v : sat (setSourceData fuel n k v) stays_stuck.
Proof.
  intros s s'. unfold Engine.setSourceData, setSourceData_with.
  destruct (node n s) as [nd|]; [|by intros [= <-]].
  destruct (has_source k (_sources nd)); [|by intros [= <-]].
  destruct (_updateOnSource nd).
  - intros Hf. eapply stays_stuck_trans; [|by apply (run_stuck fuel n)].
    by apply stays_stuck_upd.
  - intros [= <-]. by apply stays_stuck_upd.
Qed.

Lemma emit_dataProcessed_stuck fuel conns v :
  sat (emit_dataProcessed fuel conns v) stays_stuck.
Proof.
  intros s s' Hf.
  eapply (emit_dataProcessed_with_inv _ (stays_stuck s)); [done| |exact Hf].
  intros recv attr s1 s2 _ F1 H2. eapply stays_stuck_trans; [exact F1|].
  apply call_setfunc_with_inv in H2
    as [->|(nd & k & _ & _ & _ & [[_ ->]|[_ H2]])];
    [done|by apply stays_stuck_upd|].
  eapply stays_stuck_trans; [|by apply (run_stuck fuel recv)].
  by apply stays_stuck_upd.
Qed.

Lemma broadcastData_stuck fuel n : sat (broadcastData fuel n) stays_stuck.
Proof.
  intros s s' Hf.
  apply broadcastData_inv in Hf as [[_ ->]|(nd & Hn & Hf)]; [done|].
  eapply stays_stuck_trans; [|by apply emit_dataProcessed_stuck in Hf].
  by apply stays_stuck_log.
Qed.

Lemma data_setter_stuck fuel n v : sat (data_setter fuel n v) stays_stuck.
Proof.
  intros s s' Hf. eapply stays_stuck_trans; [|by apply broadcastData_stuck in Hf].
  by apply stays_stuck_upd.
Qed.

Lemma emit_dataRequested_stuck fuel conns :
  sat (Engine.emit_dataRequested empty_dict processData fuel conns) stays_stuck.
Proof.
  induction conns as [|u r IH]; intros s s' Hf; simpl in Hf.
  - by inversion Hf; subst.
  - apply bind_final in Hf as [[e He]|(s1 & H1 & Hf)].
    + apply (broadcastData_stuck fuel u). by rewrite He.
    + eapply stays_stuck_trans; [|by apply IH].
      apply (broadcastData_stuck fuel u). by rewrite H1.
Qed.

Lemma disconnect_source_stuck self setfunc src :
  sat (@disconnect_source Data Opts self setfunc src) stays_stuck.
Proof.
  intros s s'. unfold disconnect_source.
  destruct (node src s) as [snd|]; [|by intros [= <-]].
  destruct (remove_first setfunc (dataProcessed snd)) as [l|]; [|by intros [= <-]].
  destruct (node self _) as [nd1|]; [|intros [= <-]; by apply stays_stuck_upd].
  destruct (remove_first src (dataRequested nd1)) as [l'|];
    intros [= <-]; by stuck_steps.
Qed.

Lemma setSource_stuck fuel n k r : sat (setSource fuel n k r) stays_stuck.
Proof.
  intros s s' Hf. unfold Engine.setSource in Hf.
  destruct (node n s) as [nd|]; [|by inversion Hf; subst].
  destruct (has_source k (_sources nd)); [|by inversion Hf; subst].
  apply bind_final in Hf as [[e He]|(s2 & H2 & Hf)].
  { destruct (lookup_source k (_sources nd) ≫= ref) as [src|]; [|done].
    apply (disconnect_source_stuck n (n, capitalize k) src). by rewrite He. }
  assert (stays_stuck s s2) as S2.
  { destruct (lookup_source k (_sources nd) ≫= ref) as [src|].
    - apply (disconnect_source_stuck n (n, capitalize k) src). by rewrite H2.
    - by inversion H2; subst. }
  eapply stays_stuck_trans; [exact S2|]. clear S2 H2.
  set (s3 := upd n _ s2) in Hf.
  assert (stays_stuck s2 s3) as S3 by (by apply stays_stuck_upd).
  eapply stays_stuck_trans; [exact S3|]. clearbody s3. clear S3.
  destruct r as [u|]; [|by inversion Hf; subst].
  destruct (node u s3) as [ndu|]; [|by inversion Hf; subst].
  set (s4 := upd u _ s3) in Hf. set (s5 := upd n _ s4) in Hf.
  assert (stays_stuck s3 s5) as S5 by (subst s5 s4; by stuck_steps).
  eapply stays_stuck_trans; [exact S5|]. clearbody s5. clear S5.
  destruct (node n s5) as [nd5|]; [|by inversion Hf; subst].
  eapply stays_stuck_trans; [|by apply emit_dataRequested_stuck in Hf].
  by apply stays_stuck_log.
Qed.

Lemma updateOption_stuck (st : setter) fuel n :
  sat (updateOption (setter_func st) fuel n) stays_stuck.
Proof.
  intros s s'. unfold Engine.updateOption.
  destruct (node n s) as [nd|]; [|by intros [= <-]].
  assert (stays_stuck s (upd n (λ x, set_uptodate false (setter_func st x)) s))
    as S1 by (apply stays_stuck_upd; intros ?; by destruct st).
  destruct (_updateOnOptionChange (setter_func st nd)); [|by intros [= <-]].
  intros Hf. eapply stays_stuck_trans; [|by apply (run_stuck fuel n) in Hf].
  eapply stays_stuck_trans; [exact S1|]. by apply stays_stuck_log.
Qed.

Lemma exec_stuck fuel (c : Call) :
  through_setter c → sat (exec fuel c) stays_stuck.
Proof.
  destruct c as [n|n k v|n k r|n v|n|n func]; simpl; intros Hc.
  - apply run_stuck.
  - apply setSourceData_stuck.
  - apply setSource_stuck.
  - apply data_setter_stuck.
  - apply broadcastData_stuck.
  - destruct Hc as [st ->]. apply updateOption_stuck.
Qed.

(** X6. Whatever is called from outside, on whichever nodes and in
    whichever order ([run], [setSourceData], [setSource], the [data]
    setter, [broadcastData], the option setters), a node that is marked
    running stays marked running and is not recomputed: only the call of
    [run] that set the flag ever clears it. *)
Theorem running_flag_is_never_cleared fuel (cs : list Call) s s' n nd :
  Forall through_setter cs →
  final (exec_all fuel cs s) = Some s' →
  node n s = Some nd →
  _running nd = true →
  ∃ nd' new,
    node n s' = Some nd'
    ∧ _running nd' = true
    ∧ trace s' = new ++ trace s
    ∧ (EvProcessData n ∉ new).
Proof.
  intros Hcs Hf Hn Hr.
  assert (stays_stuck s s') as (new & E & H).
  { clear Hn Hr. revert s Hf. induction Hcs as [|c cs Hc Hcs IH]; intros s Hf; simpl in Hf.
    - by inversion Hf; subst.
    - apply bind_final in Hf as [[e He]|(s1 & H1 & Hf)].
      + apply (exec_stuck fuel c Hc). by rewrite He.
      + eapply stays_stuck_trans; [|by apply IH].
        apply (exec_stuck fuel c Hc). by rewrite H1. }
  destruct (H n nd Hn Hr) as (nd' & Hn' & Hr' & Hp). by exists nd', new.
Qed.

(** ** Exceptions *)

Lemma bind_raise (o : outcome) (k : State → outcome) e s' :
  bind o k = Raise e s' →
  o = Raise e s' ∨ ∃ s1, o = Ok s1 ∧ k s1 = Raise e s'.
Proof. destruct o as [s1|e1 s1|]; simpl; intros H; [eauto|by left|done]. Qed.

(** X7. [run] has no cleanup: when a call of [run] on a node that was not
    running ends with an exception (of [processData], of a source, or of
    a dependent), the node is left marked running. *)
Theorem run_raise_leaves_running fuel n s e s' nd :
  run fuel n s = Raise e s' →
  node n s = Some nd →
  ∃ nd', node n s' = Some nd' ∧ _running nd' = true.
Proof.
  intros Hrun Hn. destruct fuel as [|fuel]; [done|]. simpl in Hrun.
  rewrite Hn in Hrun. unfold run_body_with in Hrun.
  destruct (_running nd) eqn:Hr; simpl in Hrun; [done|].
  set (s1 := upd n (set_running true) (log (EvRun n) s)) in Hrun.
  assert (node n s1 = Some (set_running true nd)) as Hn1.
  { subst s1. by rewrite node_upd_eq, node_log, Hn. }
  assert (∀ x, final (run_sources fuel n (keys (_sources nd)) s1) = Some x →
            ∃ ndx, node n x = Some ndx ∧ _running ndx = true) as Hsrc.
  { intros x Hx. apply run_sources_keeps_running in Hx as (new & _ & Hx).
    destruct (Hx n _ Hn1 eq_refl) as (ndx & ? & ? & _). eauto. }
  apply bind_raise in Hrun as [Hrun|(s2 & H2 & Hrun)].
  { apply Hsrc. unfold Engine.run_sources. by rewrite Hrun. }
  destruct (Hsrc s2) as (nd2 & Hn2 & Hr2).
  { unfold Engine.run_sources. by rewrite H2. }
  rewrite Hn2 in Hrun. destruct (_uptodate nd2); simpl in Hrun; [done|].
  destruct (processData n nd2) as [v|e'].
  - apply bind_raise in Hrun as [Hrun|(s3 & _ & Hrun)]; [|done].
    assert (final (data_setter fuel n v (log (EvProcessData n) s2)) = Some s')
      as Hf by (unfold Engine.data_setter; by rewrite Hrun).
    apply data_setter_stuck in Hf as (new & _ & Hf).
    destruct (Hf n nd2) as (nd' & ? & ? & _); [by rewrite node_log|done|eauto].
  - inversion Hrun; subst. exists nd2. by rewrite node_log.
Qed.

(** ** Recomputation on demand and on new data *)

Lemma run_sources_unchanged fuel n s s' nd nd' :
  final (run fuel n s) = Some s' →
  node n s = Some nd → node n s' = Some nd' →
  (∀ P, ¬ is_parent s P n) →
  _sources nd' = _sources nd.
Proof.
  intros Hf Hn Hn' Hroot.
  apply run_tracks in Hf as (new & _ & _ & Hf).
  destruct (Hf n nd Hn) as (nd1 & Hn1 & Hsrc & _).
  assert (nd1 = nd') as -> by congruence.
  apply Hsrc. intros P v HP. by apply Hroot in HP.
Qed.

(** X8. [run] called by hand on a node that is neither running nor up to
    date, in a wiring that is consistent and free of cycles: the call
    returns (given a [processData] that never raises), and whenever it
    returns the node is up to date, not running, and its output is what
    [processData] returned for the node as it stands at the end; a node
    to whose slots no [dataProcessed] signal is connected computed it from
    the very source data it had when the call started. *)
Theorem run_recomputes_stale_node n s nd :
  wired s → acyclic s →
  node n s = Some nd →
  _running nd = false →
  _uptodate nd = false →
  ((∀ m nd0, ∃ v, processData m nd0 = PReturn v) →
   ∃ s', run (S (idle s)) n s = Ok s')
  ∧ ∀ fuel s', run fuel n s = Ok s' →
      ∃ nd' v,
        node n s' = Some nd'
        ∧ _uptodate nd' = true
        ∧ _running nd' = false
        ∧ processData n (set__data (_data nd)
                           (set_running true (set_uptodate false nd')))
          = PReturn v
        ∧ _data nd' = normalize v
        ∧ (reads_inputs_only processData → processData n nd' = PReturn v)
        ∧ ((∀ P, ¬ is_parent s P n) → _sources nd' = _sources nd)
        ∧ logged_between s s' (EvProcessData n).
Proof.
  intros Hw [rank Hrk] Hn Hr Hu. split.
  - intros Htotal. apply run_returns; [done|done|by eexists|lia].
  - intros fuel s' Hrun.
    destruct (run_recomputes rank fuel n s nd s' Hw Hrk Hn Hr Hu Hrun)
      as (nd' & v & Hn' & Hu' & Hr' & Hsw & Hp & Hd' & HL).
    exists nd', v. repeat split; try done.
    + intros Hpure. rewrite <-Hp. by apply Hpure.
    + intros Hroot. eapply run_sources_unchanged; [by apply final_ok| | |]; done.
Qed.

(** X9. [setSourceData] on a node with [updateOnSource] on that is not
    running, in a wiring that is consistent and free of cycles: the call
    returns (given a [processData] that never raises), and whenever it
    returns the node is up to date, not running, and its output is what
    [processData] returned for the node as it stands at the end; for a node
    to whose slots no [dataProcessed] signal is connected, that is the node
    with the new value stored in the named source. *)
Theorem setSourceData_recomputes n k v s nd src :
  wired s → acyclic s →
  node n s = Some nd →
  _running nd = false →
  _updateOnSource nd = true →
  lookup_source k (_sources nd) = Some src →
  ((∀ m nd0, ∃ w, processData m nd0 = PReturn w) →
   ∃ fuel s', setSourceData fuel n k v s = Ok s')
  ∧ ∀ fuel s', setSourceData fuel n k v s = Ok s' →
      ∃ nd' w,
        node n s' = Some nd'
        ∧ _uptodate nd' = true
        ∧ _running nd' = false
        ∧ processData n (set__data (_data nd)
                           (set_running true (set_uptodate false nd')))
          = PReturn w
        ∧ _data nd' = normalize w
        ∧ (reads_inputs_only processData → processData n nd' = PReturn w)
        ∧ ((∀ P, ¬ is_parent s P n) →
             _sources nd' = set_source_data k v (_sources nd))
        ∧ logged_between s s' (EvProcessData n).
Proof.
  intros Hw [rank Hrk] Hn Hr Hflag Hk.
  set (s1 := upd n (ssd_write k v) s).
  assert (frame s s1) as [Hst1 _].
  { apply frame_upd. intros. apply same_wiring_ssd_write. }
  assert (wired s1) as Hw1 by (by eapply wired_static).
  assert (ranked rank s1) as Hrk1 by (by eapply ranked_static).
  assert (node n s1 = Some (ssd_write k v nd)) as Hn1.
  { subst s1. by rewrite node_upd_eq, Hn. }
  assert (∀ fuel, setSourceData fuel n k v s = run fuel n s1) as Heq.
  { intros fuel. unfold Engine.setSourceData, setSourceData_with, has_source.
    by rewrite Hn, Hk, Hflag. }
  split.
  - intros Htotal. exists (S (idle s1)).
    destruct (run_returns (S (idle s1)) n s1 Htotal Hw1) as [s' Hs'];
      [by eexists|lia|].
    exists s'. by rewrite Heq.
  - intros fuel s' Hrun. rewrite Heq in Hrun.
    destruct (run_recomputes rank fuel n s1 _ s' Hw1 Hrk1 Hn1 Hr eq_refl Hrun)
      as (nd' & w & Hn' & Hu' & Hr' & Hsw & Hp & Hd' & HL).
    exists nd', w. repeat split; try done.
    + intros Hpure. rewrite <-Hp. by apply Hpure.
    + intros Hroot.
      apply (run_sources_unchanged fuel n s1 s' (ssd_write k v nd) nd');
        [by apply final_ok|done|done|].
      intros P HP. apply (Hroot P).
      by apply (is_parent_upd n (ssd_write k v) s P n).
Qed.

(** X10. Calling [run] again on a node right after [run] has returned on
    it, in a wiring that is consistent and free of cycles, recomputes and
    broadcasts nothing: the second call only enters [run] of nodes, no
    output and no source data changes, and the node ends up marked
    running. *)
Theorem run_again_is_quiet fuel1 fuel2 n s s1 s2 :
  wired s → acyclic s →
  run fuel1 n s = Ok s1 →
  run fuel2 n s1 = Ok s2 →
  (∃ new, trace s2 = new ++ trace s1 ∧ ∀ e, e ∈ new → ∃ X, e = EvRun X)
  ∧ (∀ m nd1, node m s1 = Some nd1 →
       ∃ nd2, node m s2 = Some nd2
         ∧ _data nd2 = _data nd1 ∧ _sources nd2 = _sources nd1)
  ∧ ∃ nd2, node n s2 = Some nd2 ∧ _running nd2 = true.
Proof.
  intros Hw [rank Hrk] H1 H2.
  destruct (run_frozen rank fuel1 n s s1 Hw Hrk H1) as (_ & _ & Hfz).
  pose proof (run_frame fuel1 n s s1 (final_ok _ _ H1)) as [Hst1 _].
  assert (wired s1) as Hw1 by (by eapply wired_static).
  assert (ranked rank s1) as Hrk1 by (by eapply ranked_static).
  destruct (run_frozen rank fuel2 n s1 s2 Hw1 Hrk1 H2) as (_ & Hq & _).
  destruct (Hq Hfz) as (new & E & Hnew).
  assert (∀ X, EvProcessData X ∉ new) as Hnp.
  { intros X Hin. by destruct (Hnew _ Hin) as (Y & ? & _). }
  assert (∀ X v, EvDataProcessed X v ∉ new) as Hnb.
  { intros X v Hin. by destruct (Hnew _ Hin) as (Y & ? & _). }
  split; [|split].
  - exists new. split; [done|]. intros e He.
    destruct (Hnew e He) as (X & ? & _). eauto.
  - intros m nd1 Hm.
    pose proof (run_tracks fuel2 n s1 s2 (final_ok _ _ H2)) as (new' & E' & _ & Ht).
    assert (new' = new) as -> by (eapply app_inv_tail; by rewrite <-E, <-E').
    destruct (Ht m nd1 Hm) as (nd2 & Hm2 & Hsrc & _ & Hdata & _).
    exists nd2. split; [done|]. split; [by apply Hdata|].
    apply Hsrc. intros P v _. apply Hnb.
  - destruct fuel2 as [|fuel2]; [done|].
    apply run_ok_inv in H2
      as (nd1 & Hn1 & [[Hr ->]|(Hr & x & ndx & Hx & Hnx & Hrest)]).
    { eexists. rewrite node_upd_eq, node_log, Hn1. simpl. split; [done|].
      exact Hr. }
    destruct (running_after_sources fuel2 n s1 nd1 x ndx Hn1 Hx Hnx)
      as (Hrx & _ & _).
    destruct Hrest as [[_ ->]|(_ & v & s3 & _ & H3 & ->)]; [eauto|].
    exfalso. apply (Hnp n).
    apply (logged_between_inv s1 (upd n fin_write s3) new _ E).
    pose proof (run_sources_keeps_running fuel2 n _ _ x (final_ok _ _ Hx))
      as (newx & Ex & _).
    apply final_ok, emit_dataProcessed_frame in H3 as [_ E3].
    eapply (logged_between_mono s1 _ _ _ E3).
    eapply (logged_between_mono s1 (log (EvProcessData n) x)).
    { by exists [EvDataProcessed n (normalize v)]. }
    apply logged_between_log.
    exists (newx ++ [EvRun n]). rewrite Ex. simpl. by rewrite <-(assoc_L (++)).
Qed.

(** X11. Whatever [run] changes leaves a trace in the log, whether it
    returns or raises: a node broadcast only if it was recomputed; the
    source data of a node changed only if a node linked to it broadcast;
    an output changed only if its node was recomputed; [_running] changed
    only for nodes whose [run] was entered; and a node lost [_uptodate]
    only if its [run] was entered or a node linked to it broadcast. *)
Theorem run_changes_are_logged fuel n s s' :
  final (run fuel n s) = Some s' → tracks s s'.
Proof. apply run_tracks. Qed.

(** ** [setSource] *)

Lemma logged_between_after s x y e :
  extends s x → logged_between x y e → logged_between s y e.
Proof.
  intros [n1 E1] (n2 & E2 & Hin). exists (n2 ++ n1). split.
  - by rewrite E2, E1, (assoc_L (++)).
  - apply elem_of_app. by left.
Qed.

Lemma emit_dataRequested_broadcasts fuel conns u s s' :
  Engine.emit_dataRequested empty_dict processData fuel conns s = Ok s' →
  u ∈ conns →
  ∃ v, logged_between s s' (EvDataProcessed u v).
Proof.
  revert s. induction conns as [|u0 r IH]; intros s Hrun Hin;
    [by apply not_elem_of_nil in Hin|].
  simpl in Hrun. apply bind_ok in Hrun as (s1 & H1 & Hrun).
  pose proof (final_ok _ _ H1) as Hf1.
  pose proof (broadcastData_frame fuel u0 s s1 Hf1) as [_ E1].
  apply elem_of_cons in Hin as [->|Hin].
  - apply broadcastData_inv in Hf1 as [[Hnone _]|(nd & Hn & Hf1)].
    { unfold Engine.broadcastData, broadcastData_with in H1.
      by rewrite Hnone in H1. }
    exists (_data nd).
    apply emit_dataProcessed_frame in Hf1 as [_ E2].
    apply final_ok, emit_dataRequested_frame in Hrun as [_ E3].
    eapply logged_between_mono; [exact E3|].
    eapply logged_between_mono; [exact E2|].
    apply logged_between_log. by exists [].
  - destruct (IH s1 Hrun Hin) as [v Hv]. exists v.
    by eapply logged_between_after.
Qed.

Lemma disconnect_source_ok self setfunc src s s2 :
  @disconnect_source Data Opts self setfunc src s = Ok s2 →
  trace s2 = trace s
  ∧ ∀ m nd, node m s = Some nd →
      ∃ nd2, node m s2 = Some nd2 ∧ _sources nd2 = _sources nd.
Proof.
  unfold disconnect_source. destruct (node src s) as [snd|]; [|done].
  destruct (remove_first setfunc (dataProcessed snd)) as [l|]; [|done].
  destruct (node self _) as [nd1|]; [|done].
  destruct (remove_first src (dataRequested nd1)) as [l'|]; [|done].
  intros [= <-]. split; [done|].
  intros m nd Hm. rewrite !node_upd.
  repeat case_decide; subst; rewrite ?Hm; simpl; eauto.
Qed.

(** X12. When [setSource(name, ref)] returns, the named source refers to
    [ref], the slot of the node is connected to [dataProcessed] of [ref],
    [broadcastData] of [ref] is connected to [dataRequested] of the node,
    [dataRequested] has been emitted and [ref] has broadcast its output. *)
Theorem setSource_connects fuel n k u s s' :
  setSource fuel n k (Some u) s = Ok s' →
  ∃ nd' src' ndu,
    node n s' = Some nd'
    ∧ lookup_source k (_sources nd') = Some src'
    ∧ ref src' = Some u
    ∧ u ∈ dataRequested nd'
    ∧ node u s' = Some ndu
    ∧ (n, capitalize k) ∈ dataProcessed ndu
    ∧ logged_between s s' (EvDataRequested n)
    ∧ ∃ v, logged_between s s' (EvDataProcessed u v).
Proof.
  intros Hrun. unfold Engine.setSource in Hrun.
  destruct (node n s) as [nd|] eqn:Hn; [|done].
  unfold has_source in Hrun.
  destruct (lookup_source k (_sources nd)) as [src|] eqn:Hk; [|done].
  apply bind_ok in Hrun as (s2 & H2 & Hrun).
  assert (trace s2 = trace s
          ∧ ∃ nd2, node n s2 = Some nd2 ∧ _sources nd2 = _sources nd)
    as (E2 & nd2 & Hn2 & Hs2).
  { simpl in H2. destruct (ref src) as [old|].
    - apply disconnect_source_ok in H2 as [? H2]. split; [done|]. by apply H2.
    - inversion H2; subst. eauto. }
  simpl in Hrun. set (s3 := upd n _ s2) in Hrun.
  destruct (node u s3) as [ndu3|] eqn:Hu3; [|done].
  set (s4 := upd u _ s3) in Hrun. set (s5 := upd n _ s4) in Hrun.
  destruct (node n s5) as [nd5|] eqn:Hn5; [|done].
  assert (lookup_source k (_sources nd5) = Some (mkSource (Some u) (data src))
          ∧ u ∈ dataRequested nd5) as [Hk5 Hreq5].
  { subst s5 s4 s3. rewrite node_upd_eq, node_upd, node_upd_eq, Hn2 in Hn5.
    case_decide; simpl in Hn5; inversion Hn5; subst nd5; simpl;
      rewrite Hs2; unfold set_source_ref;
      rewrite lookup_alter_source, String.eqb_refl, Hk; simpl;
      (split; [done|]); apply elem_of_app; right; left. }
  assert (∃ ndu5, node u s5 = Some ndu5
                  ∧ (n, capitalize k) ∈ dataProcessed ndu5) as (ndu5 & Hu5 & Hp5).
  { subst s5 s4. rewrite node_upd, node_upd_eq, Hu3.
    case_decide; simpl; eexists; (split; [done|]); simpl;
      apply elem_of_app; right; left. }
  pose proof (emit_dataRequested_frame fuel _ _ _ (final_ok _ _ Hrun)) as [Hst Hex].
  destruct (static_node _ _ n nd5 Hst Hn5) as (nd' & Hn' & Hsw).
  destruct (static_node _ _ u ndu5 Hst Hu5) as (ndu & Hu' & Hswu).
  pose proof (lookup_source_wiring k _ _ (sw_sources _ _ Hsw)) as Hl.
  rewrite Hk5 in Hl. simpl in Hl.
  destruct (lookup_source k (_sources nd')) as [src'|] eqn:Hk'; [|done].
  simpl in Hl. inversion Hl as [Href].
  exists nd', src', ndu. split; [done|]. split; [done|]. split; [done|].
  split; [by rewrite (sw_dataRequested _ _ Hsw)|]. split; [done|].
  split; [by rewrite (sw_dataProcessed _ _ Hswu)|].
  assert (extends s s5) as E5 by (exists []; simpl; by rewrite E2).
  split.
  - eapply logged_between_mono; [exact Hex|]. by apply logged_between_log.
  - destruct (emit_dataRequested_broadcasts fuel _ u _ _ Hrun Hreq5) as [v Hv].
    exists v. eapply logged_between_after; [|exact Hv].
    destruct E5 as [new E5]. exists (EvDataRequested n :: new).
    change (EvDataRequested n :: trace s5 = (EvDataRequested n :: new) ++ trace s).
    by rewrite E5.
Qed.

Lemma remove_first_elem {A : Type} `{EqDecision A} (x : A) (l : list A) :
  x ∈ l → is_Some (remove_first x l).
Proof.
  induction l as [|y r IH]; [by intros ?%not_elem_of_nil|].
  intros Hin. simpl. case_decide; [by eexists|].
  apply elem_of_cons in Hin as [?|Hin]; [done|].
  destruct (IH Hin) as [r' ->]. by eexists.
Qed.

Lemma alter_source_same (g : @Source Data → @Source Data) k l src :
  lookup_source k l = Some src → g src = src → alter_source g k l = l.
Proof.
  intros Hk Hg. induction l as [|[k1 x1] r IH]; [done|]. simpl in *.
  destruct (String.eqb k k1).
  - inversion Hk; subst. by rewrite Hg.
  - f_equal. by apply IH.
Qed.

Lemma upd_same n (f : Node → Node) s nd :
  node n s = Some nd → f nd = nd → upd n f s = s.
Proof.
  intros Hn Hf. destruct s as [h t]. unfold upd, node in *. simpl in *.
  f_equal. apply list_eq. intros i. destruct (decide (i = n)) as [->|Hne].
  - by rewrite list_lookup_alter_eq, Hn; simpl; rewrite Hf.
  - by rewrite list_lookup_alter_ne.
Qed.

(** X13. [setSource(name, None)] never returns: after the reference has
    been set to [None], connecting to it raises [AttributeError].  For a
    source without a reference nothing has changed by then; for a source
    that was wired, the old links have been removed and the reference is
    cleared when the exception is raised. *)
Theorem setSource_None fuel n k s nd src :
  node n s = Some nd →
  lookup_source k (_sources nd) = Some src →
  (∀ s', setSource fuel n k None s ≠ Ok s')
  ∧ (ref src = None → setSource fuel n k None s = Raise AttributeError s)
  ∧ (∀ o ndo, ref src = Some o → node o s = Some ndo →
       (n, capitalize k) ∈ dataProcessed ndo → o ∈ dataRequested nd →
       ∃ s' nd' ndo',
         setSource fuel n k None s = Raise AttributeError s'
         ∧ node n s' = Some nd'
         ∧ lookup_source k (_sources nd') = Some (mkSource None (data src))
         ∧ remove_first o (dataRequested nd) = Some (dataRequested nd')
         ∧ node o s' = Some ndo'
         ∧ remove_first (n, capitalize k) (dataProcessed ndo)
           = Some (dataProcessed ndo')).
Proof.
  intros Hn Hk. split; [|split].
  - intros s' Hrun. unfold Engine.setSource, has_source in Hrun.
    rewrite Hn, Hk in Hrun. by apply bind_ok in Hrun as (s2 & _ & ?).
  - intros Href. unfold Engine.setSource, has_source. rewrite Hn, Hk. simpl.
    rewrite Href. simpl. f_equal. apply (upd_same n _ s nd Hn).
    destruct nd as [srcs ? ? ? ? ? ? ? ? ?]. unfold set_sources. simpl in *.
    f_equal. apply (alter_source_same _ k srcs src Hk).
    destruct src as [r d]. simpl in *. by rewrite Href.
  - intros o ndo Href Ho Hlink Hreq.
    unfold Engine.setSource, has_source. rewrite Hn, Hk. simpl.
    rewrite Href. simpl. unfold disconnect_source. rewrite Ho.
    destruct (remove_first_elem _ _ Hlink) as [l Hl]. rewrite Hl.
    destruct (remove_first_elem _ _ Hreq) as [l' Hl'].
    rewrite node_upd. destruct (decide (o = n)) as [->|Hne].
    + assert (ndo = nd) as -> by congruence.
      rewrite Hn. simpl. rewrite Hl'. simpl.
      eexists _, _, _. split; [done|].
      rewrite !node_upd_eq, Hn. simpl. split; [done|]. simpl.
      unfold set_source_ref. rewrite lookup_alter_source, String.eqb_refl, Hk.
      done.
    + rewrite Hn. rewrite Hl'. simpl.
      eexists _, _, _. split; [done|].
      rewrite !node_upd_eq, node_upd_ne, Hn by done. simpl. split; [done|].
      simpl. unfold set_source_ref.
      rewrite lookup_alter_source, String.eqb_refl, Hk. simpl.
      split; [done|]. split; [done|].
      rewrite !node_upd_ne, node_upd_eq, Ho by done. done.
Qed.

(** X14. Wiring keeps links and references in step: when [setSource]
    returns after wiring a source that had no reference, in a heap where
    every link has its reference and every reference its link, the same
    holds afterwards. *)
Theorem first_wiring_is_consistent fuel n k u s s' nd src :
  wired s →
  node n s = Some nd →
  lookup_source k (_sources nd) = Some src →
  ref src = None →
  setSource fuel n k (Some u) s = Ok s' →
  wired s'.
Proof. apply setSource_wired. Qed.

(** ** Where broadcast data ends up *)

Lemma alter_source_keys (g : @Source Data → @Source Data) k l :
  keys (alter_source g k l) = keys l.
Proof.
  unfold keys. induction l as [|[k1 x1] l IHl]; simpl; [done|].
  destruct (String.eqb k k1); simpl; [done|]. by f_equal.
Qed.

Lemma fills_last_only_refl s : fills_last_only s s.
Proof. intros m nd Hm. by exists nd. Qed.

Lemma fills_last_only_trans s1 s2 s3 :
  fills_last_only s1 s2 → fills_last_only s2 s3 → fills_last_only s1 s3.
Proof.
  intros H12 H23 m nd Hm. destruct (H12 m nd Hm) as (nd2 & Hm2 & Hk2 & Hd2).
  destruct (H23 m nd2 Hm2) as (nd3 & Hm3 & Hk3 & Hd3).
  exists nd3. split; [done|]. split; [congruence|].
  intros k Hk. rewrite Hd3, Hd2; [done|done|].
  unfold closure_k in *. by rewrite Hk2.
Qed.

Lemma fills_last_only_upd s n (f : Node → Node) :
  (∀ nd, keys (_sources (f nd)) = keys (_sources nd)
         ∧ ∀ k, data <$> lookup_source k (_sources (f nd))
                = data <$> lookup_source k (_sources nd)) →
  fills_last_only s (upd n f s).
Proof.
  intros Hf m nd Hm. rewrite node_upd. case_decide; subst; [|by exists nd].
  rewrite Hm. simpl. exists (f nd). destruct (Hf nd) as [? ?]. eauto.
Qed.

Lemma fills_last_only_log s e : fills_last_only s (log e s).
Proof. intros m nd Hm. by exists nd. Qed.

Lemma fills_last_only_write s recv k v nd :
  node recv s = Some nd → closure_k nd = Some k →
  fills_last_only s (upd recv (ssd_write k v) s).
Proof.
  intros Hn Hk m ndm Hm. rewrite node_upd. case_decide; subst; [|by exists ndm].
  rewrite Hm. simpl. eexists. split; [done|].
  assert (ndm = nd) as -> by congruence.
  split; [apply wiring_of_keys, same_wiring_ssd_write|].
  intros k' Hk'. simpl. unfold set_source_data. rewrite lookup_alter_source.
  destruct (String.eqb_spec k' k) as [->|_]; [congruence|done].
Qed.

Local Hint Resolve fills_last_only_refl fills_last_only_log : core.

Ltac last_steps :=
  repeat first
    [ eapply fills_last_only_trans; [|apply fills_last_only_log]
    | eapply fills_last_only_trans;
        [|apply fills_last_only_upd; intros; by split] ];
  try first [assumption | apply fills_last_only_refl].

Lemma call_setfunc_fills_last fuel recv v s s' :
  (∀ n, sat (run fuel n) fills_last_only) →
  final (call_setfunc_with (run fuel) recv v s) = Some s' →
  fills_last_only s s'.
Proof.
  intros IH Hf.
  apply call_setfunc_with_inv in Hf
    as [->|(nd & k & Hn & Hk & _ & [[_ ->]|[_ Hf]])]; [done| |].
  - by eapply fills_last_only_write.
  - eapply fills_last_only_trans; [by eapply fills_last_only_write|].
    by apply (IH recv).
Qed.

Lemma run_fills_last fuel n : sat (run fuel n) fills_last_only.
Proof.
  revert n. induction fuel as [|fuel IH]; intros n s s' Hf; [done|].
  apply run_inv in Hf as [[_ ->]|(nd & Hn & [[_ ->]|(_ & s2 & H2 & Hrest)])];
    [done|by last_steps|].
  assert (fills_last_only s s2) as F2.
  { eapply (run_sources_with_inv _ (fills_last_only s)); [| |exact H2].
    - by last_steps.
    - intros up s1 s3 _ F1 H3. eapply fills_last_only_trans; [exact F1|].
      by apply (IH up). }
  destruct Hrest as [->|(nd2 & Hn2 & Hu2 & [[_ ->]|(v & s3 & Hp & H3 & Hend)])];
    [done|by last_steps| ].
  assert (fills_last_only s s3) as F3.
  { apply broadcastData_inv in H3 as [[_ ->]|(nd3 & Hn3 & H3)]; [by last_steps|].
    eapply (emit_dataProcessed_with_inv _ (fills_last_only s)); [| |exact H3].
    + by last_steps.
    + intros recv attr s4 s5 _ F4 H5.
      eapply fills_last_only_trans; [exact F4|].
      eapply call_setfunc_fills_last; [exact IH|exact H5]. }
  destruct Hend as [->| ->]; [done|by last_steps].
Qed.

Lemma emit_dataProcessed_fills_last fuel conns v :
  sat (emit_dataProcessed fuel conns v) fills_last_only.
Proof.
  intros s s' Hf.
  eapply (emit_dataProcessed_with_inv _ (fills_last_only s));
    [apply fills_last_only_refl| |exact Hf].
  intros recv attr s1 s2 _ F1 H2. eapply fills_last_only_trans; [exact F1|].
  apply (call_setfunc_fills_last fuel recv v); [|done].
  intros n. apply run_fills_last.
Qed.

Lemma broadcastData_fills_last fuel n : sat (broadcastData fuel n) fills_last_only.
Proof.
  intros s s' Hf.
  apply broadcastData_inv in Hf as [[_ ->]|(nd & Hn & Hf)]; [done|].
  eapply fills_last_only_trans; [|by apply emit_dataProcessed_fills_last in Hf].
  done.
Qed.

Lemma emit_dataRequested_fills_last fuel conns :
  sat (Engine.emit_dataRequested empty_dict processData fuel conns)
    fills_last_only.
Proof.
  induction conns as [|u r IH]; intros s s' Hf; simpl in Hf.
  - by inversion Hf; subst.
  - apply bind_final in Hf as [[e He]|(s1 & H1 & Hf)].
    + apply (broadcastData_fills_last fuel u). by rewrite He.
    + eapply fills_last_only_trans; [|by apply IH].
      apply (broadcastData_fills_last fuel u). by rewrite H1.
Qed.

Lemma disconnect_source_fills_last self setfunc src :
  sat (@disconnect_source Data Opts self setfunc src) fills_last_only.
Proof.
  intros s s'. unfold disconnect_source.
  destruct (node src s) as [snd|]; [|by intros [= <-]].
  destruct (remove_first setfunc (dataProcessed snd)) as [l|]; [|by intros [= <-]].
  destruct (node self _) as [nd1|]; [|intros [= <-]; by last_steps].
  destruct (remove_first src (dataRequested nd1)) as [l'|];
    intros [= <-]; by last_steps.
Qed.

Lemma setSource_fills_last fuel n k r : sat (setSource fuel n k r) fills_last_only.
Proof.
  intros s s' Hf. unfold Engine.setSource in Hf.
  destruct (node n s) as [nd|]; [|by inversion Hf; subst].
  destruct (has_source k (_sources nd)); [|by inversion Hf; subst].
  apply bind_final in Hf as [[e He]|(s2 & H2 & Hf)].
  { destruct (lookup_source k (_sources nd) ≫= ref) as [src|]; [|done].
    apply (disconnect_source_fills_last n (n, capitalize k) src). by rewrite He. }
  assert (fills_last_only s s2) as S2.
  { destruct (lookup_source k (_sources nd) ≫= ref) as [src|].
    - apply (disconnect_source_fills_last n (n, capitalize k) src).
      by rewrite H2.
    - by inversion H2; subst. }
  eapply fills_last_only_trans; [exact S2|]. clear S2 H2.
  set (s3 := upd n _ s2) in Hf.
  assert (fills_last_only s2 s3) as S3.
  { apply fills_last_only_upd. intros x. simpl. unfold set_source_ref. split.
    - apply alter_source_keys.
    - intros k'. rewrite lookup_alter_source.
      destruct (String.eqb_spec k' k) as [->|_]; [|done].
      by destruct (lookup_source k (_sources x)). }
  eapply fills_last_only_trans; [exact S3|]. clearbody s3. clear S3.
  destruct r as [u|]; [|by inversion Hf; subst].
  destruct (node u s3) as [ndu|]; [|by inversion Hf; subst].
  set (s4 := upd u _ s3) in Hf. set (s5 := upd n _ s4) in Hf.
  assert (fills_last_only s3 s5) as S5 by (subst s5 s4; by last_steps).
  eapply fills_last_only_trans; [exact S5|]. clearbody s5. clear S5.
  destruct (node n s5) as [nd5|]; [|by inversion Hf; subst].
  eapply fills_last_only_trans; [|by apply emit_dataRequested_fills_last in Hf].
  done.
Qed.

(** X15. No signal ever delivers data to a source other than the last
    declared one of the receiving node: the slot objects made by
    [__init__] read the loop variable when they are called.  Whatever is
    called ([run], [setSource], the [data] setter, [broadcastData], an
    option setter) and however the nodes are wired, every source that is
    not the last key of its node's [_sources] holds the same data
    afterwards as before. *)
Theorem signals_fill_only_the_last_source fuel (c : Call) s s' m nd k :
  through_signals c →
  final (exec fuel c s) = Some s' →
  node m s = Some nd →
  closure_k nd ≠ Some k →
  ∃ nd', node m s' = Some nd'
    ∧ keys (_sources nd') = keys (_sources nd)
    ∧ data <$> lookup_source k (_sources nd')
      = data <$> lookup_source k (_sources nd).
Proof.
  intros Hc Hf Hm Hk.
  assert (fills_last_only s s') as H.
  { destruct c as [n|n k0 v|n k0 r|n v|n|n func]; simpl in Hc, Hf.
    - by apply (run_fills_last fuel n).
    - done.
    - by apply (setSource_fills_last fuel n k0 r).
    - eapply fills_last_only_trans;
        [|by apply (broadcastData_fills_last fuel n) in Hf].
      by last_steps.
    - by apply (broadcastData_fills_last fuel n).
    - destruct Hc as [st ->]. unfold Engine.updateOption in Hf.
      destruct (node n s) as [ndn|]; [|by inversion Hf; subst].
      assert (fills_last_only s
                (upd n (λ x, set_uptodate false (setter_func st x)) s)) as S1.
      { apply fills_last_only_upd. intros x. by destruct st. }
      destruct (_updateOnOptionChange (setter_func st ndn));
        [|by inversion Hf; subst].
      eapply fills_last_only_trans; [|by apply (run_fills_last fuel n) in Hf].
      eapply fills_last_only_trans; [exact S1|]. done. }
  destruct (H m nd Hm) as (nd' & Hm' & Hk' & Hd). exists nd'. eauto.
Qed.

(** ** The data setter *)















End EngineFacts.

(** * The two base classes *)

Section BaseClasses.

Context {Data Opts : Type}.
Variable empty_dict : Data.

Implicit Types (s : @State Data Opts) (nd : @Node Data Opts) (n m : nat).

Abbreviation base_run := (run empty_dict (λ _, NodeBase_processData)).
Abbreviation node_run := (run empty_dict (λ _, Node_processData)).
Abbreviation keeps_outputs := (keeps_outputs empty_dict).

Lemma run_sources_unwired (run_rec : nat → @State Data Opts → outcome)
    n ks s nd :
  node n s = Some nd →
  (∀ k src, lookup_source k (_sources nd) = Some src → ref src = None) →
  (∀ k, k ∈ ks → is_Some (lookup_source k (_sources nd))) →
  run_sources_with run_rec n ks s = Ok s.
Proof.
  intros Hn Hnone. induction ks as [|k r IH]; intros Hks; simpl; [done|].
  rewrite Hn. simpl. destruct (Hks k) as [src Hsrc]; [left|].
  rewrite Hsrc, (Hnone k src Hsrc). apply IH. intros k' Hk'. apply Hks. by right.
Qed.

(** X16. [NodeBase.processData] raises, so [run] on an object of a class
    that does not override it cannot return when the node is due for
    recomputation; on a node without references it raises
    [NotImplementedError] right after marking the node running, and
    leaves it so. *)
Theorem NodeBase_run_raises fuel n s nd :
  node n s = Some nd →
  _running nd = false →
  _uptodate nd = false →
  (∀ s', base_run fuel n s ≠ Ok s')
  ∧ ((∀ k src, lookup_source k (_sources nd) = Some src → ref src = None) →
     base_run (S fuel) n s
     = Raise NotImplementedError
         (log (EvProcessData n) (upd n (set_running true) (log (EvRun n) s)))).
Proof.
  intros Hn Hr Hu. split.
  - intros s' Hrun. destruct fuel as [|fuel]; [done|].
    apply run_ok_inv in Hrun
      as (nd0 & Hn0 & [[Hr0 _]|(_ & s2 & nd2 & H2 & Hn2 & Hrest)]).
    { congruence. }
    assert (nd0 = nd) as -> by congruence.
    destruct (running_after_sources _ _ fuel n s nd s2 nd2 Hn H2 Hn2)
      as (_ & _ & Hu2).
    destruct Hrest as [[Hu2' _]|(_ & v & s3 & Hp & _)]; [|done].
    rewrite Hu2 in Hu2'; done.
  - intros Hnone. simpl. rewrite Hn. unfold run_body_with. rewrite Hr. simpl.
    set (s1 := upd n (set_running true) (log (EvRun n) s)).
    assert (node n s1 = Some (set_running true nd)) as Hn1.
    { subst s1. by rewrite node_upd_eq, node_log, Hn. }
    rewrite (run_sources_unwired _ n _ s1 _ Hn1); simpl.
    + by rewrite Hn1; simpl; rewrite Hu.
    + exact Hnone.
    + intros k Hk. by apply keys_lookup_source.
Qed.

Lemma keeps_outputs_refl s : keeps_outputs s s.
Proof. intros m nd Hm. exists nd. by split; [|left]. Qed.

Lemma keeps_outputs_trans s1 s2 s3 :
  keeps_outputs s1 s2 → keeps_outputs s2 s3 → keeps_outputs s1 s3.
Proof.
  intros H12 H23 m nd Hm. destruct (H12 m nd Hm) as (nd2 & Hm2 & Hd2).
  destruct (H23 m nd2 Hm2) as (nd3 & Hm3 & Hd3).
  exists nd3. split; [done|].
  destruct Hd2 as [E2|[E2 E2']], Hd3 as [E3|[E3 E3']]; try (left; congruence).
  - right. split; congruence.
  - right. split; congruence.
Qed.

Lemma keeps_outputs_upd s n (f : @Node Data Opts → @Node Data Opts) :
  (∀ nd, _data (f nd) = _data nd) → keeps_outputs s (upd n f s).
Proof.
  intros Hf m nd Hm. rewrite node_upd. case_decide; subst.
  - rewrite Hm. simpl. exists (f nd). split; [done|]. left. apply Hf.
  - exists nd. by split; [|left].
Qed.

Lemma keeps_outputs_log s e : keeps_outputs s (log e s).
Proof. intros m nd Hm. exists nd. by split; [|left]. Qed.

Lemma keeps_outputs_store s n nd :
  node n s = Some nd →
  keeps_outputs s (upd n (set__data (normalize empty_dict (_data nd))) s).
Proof.
  intros Hn m ndm Hm. rewrite node_upd. case_decide; subst.
  - rewrite Hm. simpl. eexists. split; [done|]. simpl.
    assert (ndm = nd) as -> by congruence.
    destruct (_data nd); [by left|by right].
  - exists ndm. by split; [|left].
Qed.

Ltac out_steps :=
  repeat first
    [ eapply keeps_outputs_trans; [|apply keeps_outputs_log]
    | eapply keeps_outputs_trans; [|apply keeps_outputs_upd; done] ];
  try first [assumption | apply keeps_outputs_refl].

(** X17. [Node.processData] returns the stored output, so in a graph of
    plain [Node] objects [run] never changes what a node holds as output,
    except that a first recomputation turns [None] into [{}]; the source
    data plays no part. *)
Theorem Node_run_keeps_outputs fuel n s s' m nd :
  final (node_run fuel n s) = Some s' →
  node m s = Some nd →
  ∃ nd', node m s' = Some nd'
    ∧ (_data nd' = _data nd
       ∨ (_data nd = None ∧ _data nd' = Some empty_dict)).
Proof.
  intros Hf. revert m nd. change (keeps_outputs s s'). revert n s s' Hf.
  induction fuel as [|fuel IH]; intros n s s' Hf; [done|].
  apply run_inv in Hf as [[_ ->]|(nd & Hn & [[_ ->]|(_ & s2 & H2 & Hrest)])];
    [apply keeps_outputs_refl|by out_steps|].
  assert (keeps_outputs s s2) as F2.
  { eapply (run_sources_with_inv _ (keeps_outputs s)); [| |exact H2].
    - by out_steps.
    - intros up s1 s3 _ F1 H3. eapply keeps_outputs_trans; [exact F1|].
      by apply (IH up). }
  destruct Hrest as [->|(nd2 & Hn2 & Hu2 & [[_ ->]|(v & s3 & Hp & H3 & Hend)])];
    [done|by out_steps| ].
  inversion Hp; subst v.
  assert (keeps_outputs s s3) as F3.
  { apply broadcastData_inv in H3 as [[_ ->]|(nd3 & Hn3 & H3)].
    { eapply keeps_outputs_trans; [|apply keeps_outputs_store; by rewrite node_log].
      by out_steps. }
    eapply (emit_dataProcessed_with_inv _ (keeps_outputs s)); [| |exact H3].
    + eapply keeps_outputs_trans; [|apply keeps_outputs_log].
      eapply keeps_outputs_trans; [|apply keeps_outputs_store; by rewrite node_log].
      by out_steps.
    + intros recv attr s4 s5 _ F4 H5.
      eapply keeps_outputs_trans; [exact F4|].
      apply call_setfunc_with_inv in H5
        as [->|(nd5 & k & _ & _ & _ & [[_ ->]|[_ H5]])];
        [apply keeps_outputs_refl|by out_steps|].
      eapply keeps_outputs_trans; [|by apply (IH recv)]. by out_steps. }
  destruct Hend as [->| ->]; [done|by out_steps].
Qed.

End BaseClasses.

(** * The engine on the sample nodes *)

Section EngineSamples.

Import Samples.

Abbreviation run := (run [] processData).
Abbreviation exec_all := (exec_all [] processData).
Abbreviation setSource := (setSource [] processData).
Abbreviation updateOption := (updateOption [] processData).
Abbreviation data_setter := (data_setter [] processData).

Lemma run_reentrant_witness :
  node 0 running_one = Some (set_running true fresh)
  ∧ _running (set_running true fresh) = true
  ∧ run 1 0 running_one
    = Ok (mkState (alter (set_uptodate false) 0 (heap running_one))
            (EvRun 0 :: trace running_one)).
Proof.
  split; [reflexivity|]. split; [reflexivity|].
  exact (proj1 (run_reentrant [] processData 0 0 running_one
                  (set_running true fresh) eq_refl eq_refl)).
Defined.

Lemma run_noop_leaves_running_witness :
  _running fresh = false
  ∧ _uptodate (set_running true (set_uptodate true fresh)) = true
  ∧ run 1 0 settled_one
    = Ok (upd 0 (set_running true) (log (EvRun 0) settled_one)).
Proof.
  split; [reflexivity|]. split; [reflexivity|].
  exact (proj1 (run_noop_leaves_running [] processData 0 0 settled_one
                  (set_uptodate true fresh)
                  (upd 0 (set_running true) (log (EvRun 0) settled_one))
                  (set_running true (set_uptodate true fresh))
                  eq_refl eq_refl eq_refl eq_refl eq_refl)).
Defined.

Lemma updateOption_disabled_witness :
  _updateOnOptionChange (set_updateOnOptionChange false fresh) = false
  ∧ ∃ s' nd',
      updateOption (setter_func (SetOption (λ _, 5%Z))) 0 0 manual_one = Ok s'
      ∧ node 0 s' = Some nd'
      ∧ _opts nd' = 5%Z
      ∧ _uptodate nd' = false
      ∧ trace s' = trace manual_one.
Proof.
  split; [reflexivity|].
  destruct (updateOption_disabled [] processData (SetOption (λ _, 5%Z)) 0 0
              manual_one (set_updateOnOptionChange false fresh) eq_refl eq_refl)
    as (s' & nd' & H1 & H2 & [H3 _] & H4 & _ & _ & _ & _ & H5).
  exists s', nd'. repeat split; assumption.
Defined.

Lemma setSource_unrecognized_witness :
  ("output" ∉ keys (_sources fresh))
  ∧ setSource 5 0 "output" (Some 1) three = Raise ValueError three.
Proof.
  assert ("output" ∉ keys (_sources fresh)) as H.
  { intros Hin. apply list_elem_of_singleton in Hin. discriminate. }
  split; [exact H|].
  exact (setSource_unrecognized [] processData 5 0 "output" (Some 1) three fresh
           eq_refl H).
Defined.


(** On the sample chain: assigning to A the output it already has is
    broadcast all the same, and B and C are recomputed. *)
Example chain_same_output_rebroadcast :
  output_of 0 chain = Some (Some [5%Z])
  ∧ data_setter 20 0 (Some [5%Z]) chain = Ok chain_reassigned
  ∧ processed (trace chain_reassigned) = processed (trace chain) ++ [1; 2]
  ∧ slot_data 1 "input" chain_reassigned = Some (Some [5%Z]).
Proof. split; [reflexivity|]. split; [vm_compute; reflexivity|]. by split. Qed.

Lemma chain_wired : wired chain.
Proof.
  split.
  - intros P U (nd & attr & Hn & Hin).
    destruct P as [|[|[|P]]]; simpl in Hn; inversion Hn; subst; simpl in Hin.
    + apply list_elem_of_singleton in Hin. inversion Hin; subst.
      by eexists _, "input", _.
    + apply list_elem_of_singleton in Hin. inversion Hin; subst.
      by eexists _, "input", _.
    + by apply not_elem_of_nil in Hin.
  - intros U P (nd & k & src & Hn & Hk & Hr).
    destruct U as [|[|[|U]]]; simpl in Hn; inversion Hn; subst; simpl in Hk;
      destruct (String.eqb k "input"); inversion Hk; subst; simpl in Hr;
      inversion Hr; subst.
    + eexists _, "Input". split; [reflexivity|left].
    + eexists _, "Input". split; [reflexivity|left].
Qed.

Lemma chain_acyclic : acyclic chain.
Proof.
  exists (λ n, n). intros P U (nd & attr & Hn & Hin).
  destruct P as [|[|[|P]]]; simpl in Hn; inversion Hn; subst; simpl in Hin.
  - apply list_elem_of_singleton in Hin. inversion Hin. lia.
  - apply list_elem_of_singleton in Hin. inversion Hin. lia.
  - by apply not_elem_of_nil in Hin.
Qed.

Lemma updateOption_recomputes_witness :
  (_running <$> node 1 chain) = Some false
  ∧ (_updateOnOptionChange <$> node 1 chain) = Some true
  ∧ ∃ fuel s', updateOption (setter_func (SetOption (λ _, 5%Z))) fuel 1 chain = Ok s'.
Proof.
  split; [reflexivity|]. split; [reflexivity|].
  refine (proj1 (updateOption_recomputes [] processData (SetOption (λ _, 5%Z)) 1
                   chain (default fresh (node 1 chain))
                   chain_wired chain_acyclic eq_refl eq_refl eq_refl) _).
  intros m nd0. unfold processData. destruct m as [|[|m]]; eauto.
Defined.

(** On the sample chain: setting the offset of B to 5 recomputes B from
    [[5]] and then C from the new output of B. *)
Example chain_option_change :
  ∃ s', updateOption (setter_func (SetOption (λ _, 5%Z))) 20 1 chain = Ok s'
    ∧ output_of 0 s' = Some (Some [5%Z])
    ∧ output_of 1 s' = Some (Some [10%Z])
    ∧ output_of 2 s' = Some (Some [20%Z])
    ∧ (_uptodate <$> node 1 s') = Some true
    ∧ (_uptodate <$> node 2 s') = Some true.
Proof. eexists. split; [vm_compute; reflexivity|]. by repeat split. Qed.

(** C1 fails when the chain is wired from the top: wiring C to B runs B and
    A while both are up to date, which leaves both marked running.  The
    push into A and the call of [run] on A then only enter [A.run] twice on
    its re-entrant branch; neither B nor C is recomputed, and the output of
    C stays what it was instead of becoming [[12]], which is what the chain
    computes from [[5]]. *)
Theorem chain_wired_from_top_is_stuck :
  ∃ s1 s',
    exec_all 20 wire_upstream_first three = Ok s1
    ∧ exec_all 20 push_and_run s1 = Ok s'
    ∧ (_running <$> node 0 s1) = Some true
    ∧ (_running <$> node 1 s1) = Some true
    ∧ slot_data 0 "input" s' = Some (Some [5%Z])
    ∧ trace s' = [EvRun 0; EvRun 0] ++ trace s1
    ∧ output_of 1 s' = output_of 1 s1
    ∧ output_of 2 s' = Some (Some [])
    ∧ output_of 2 s' ≠ Some (Some [12%Z]).
Proof.
  eexists _, _. split; [vm_compute; reflexivity|].
  split; [vm_compute; reflexivity|].
  repeat split; try reflexivity. discriminate.
Qed.

(** Wired from the bottom, with [updateOnSource] of A off, the same push
    and [run] recompute A, B and C in this order, and C ends with [[12]]. *)
Example chain_wired_from_bottom_propagates :
  ∃ s',
    exec_all 20 push_and_run chain_manual = Ok s'
    ∧ processed (trace s') = processed (trace chain_manual) ++ [0; 1; 2]
    ∧ output_of 0 s' = Some (Some [5%Z])
    ∧ output_of 1 s' = Some (Some [6%Z])
    ∧ output_of 2 s' = Some (Some [12%Z]).
Proof. eexists. split; [vm_compute; reflexivity|]. by repeat split. Qed.

(** C7 fails for a node with two sources [a] and [b]: the slot object
    [setAData] made by [__init__] stores into the source its closure reads
    when called, which is [b]; after [setSource('a', U)] the source [a]
    still holds no data while the upstream's output sits in [b]. *)
Theorem setSource_fills_last_source :
  ∃ s1 s',
    exec_all 20 [CallSetSourceData 0 "input" (Some [7%Z])] pair = Ok s1
    ∧ output_of 0 s1 = Some (Some [7%Z])
    ∧ setSource 20 1 "a" (Some 0) s1 = Ok s'
    ∧ (dataProcessed <$> node 0 s') = Some [(1, "A")]
    ∧ output_of 0 s' = Some (Some [7%Z])
    ∧ slot_data 1 "a" s' = Some None
    ∧ slot_data 1 "b" s' = Some (Some [7%Z]).
Proof.
  eexists _, _. split; [vm_compute; reflexivity|].
  split; [reflexivity|]. split; [vm_compute; reflexivity|].
  repeat split; reflexivity.
Qed.

Abbreviation setSourceData := (setSourceData [] processData).
Abbreviation exec := (exec [] processData).

Lemma three_wired : wired three.
Proof.
  apply wired_unwired. intros n nd Hn.
  destruct n as [|[|[|n]]]; simpl in Hn; inversion Hn; subst; (split; [done|]);
    intros k src Hk; simpl in Hk; destruct (String.eqb k "input");
    by inversion Hk.
Qed.

Lemma three_acyclic : acyclic three.
Proof.
  exists (λ n, n). intros P U (nd & attr & Hn & Hin).
  destruct P as [|[|[|P]]]; simpl in Hn; inversion Hn; subst;
    by apply not_elem_of_nil in Hin.
Qed.

Lemma processData_total m (nd0 : @Node D Z) : ∃ v, processData m nd0 = PReturn v.
Proof. unfold processData. destruct m as [|[|m]]; eauto. Qed.

Lemma setSourceData_unrecognized_witness :
  ("output" ∉ keys (_sources fresh))
  ∧ setSourceData 5 0 "output" (Some [1%Z]) three = Raise ValueError three.
Proof.
  assert ("output" ∉ keys (_sources fresh)) as H.
  { intros Hin. apply list_elem_of_singleton in Hin. discriminate. }
  split; [exact H|].
  exact (setSourceData_unrecognized [] processData 5 0 "output" (Some [1%Z])
           three fresh eq_refl H).
Defined.

Lemma setSourceData_manual_witness :
  _updateOnSource (set_updateOnSource false fresh) = false
  ∧ ∃ s' nd',
      setSourceData 5 0 "input" (Some [5%Z]) hand_fed = Ok s'
      ∧ node 0 s' = Some nd'
      ∧ lookup_source "input" (_sources nd') = Some (mkSource None (Some [5%Z]))
      ∧ _uptodate nd' = false
      ∧ trace s' = trace hand_fed.
Proof.
  split; [reflexivity|].
  destruct (setSourceData_manual [] processData 5 0 "input" (Some [5%Z]) hand_fed
              (set_updateOnSource false fresh) (mkSource None None)
              eq_refl eq_refl eq_refl)
    as (s' & nd' & H1 & H2 & H3 & _ & _ & H4 & _ & _ & _ & H5).
  exists s', nd'. repeat split; assumption.
Defined.

Lemma data_calls_preserve_wiring_witness :
  @moves_data_only D Z (CallRun 1) = true
  ∧ final (exec 20 (CallRun 1) chain) = Some chain_rerun
  ∧ ∃ new, trace chain_rerun = new ++ trace chain.
Proof.
  split; [reflexivity|]. split; [vm_compute; reflexivity|].
  exact (proj2 (proj2 (data_calls_preserve_wiring [] processData 20 (CallRun 1)
                         chain chain_rerun eq_refl
                         ltac:(vm_compute; reflexivity)))).
Defined.

Lemma run_terminates_witness :
  idle ring < 3 ∧ run 3 0 ring ≠ OutOfFuel.
Proof.
  assert (idle ring < 3) as H by (vm_compute; lia).
  split; [exact H|].
  exact (proj1 (run_terminates [] processData 3 0 ring H)).
Defined.

(** On the sample ring [run] returns: it has recomputed the second node,
    then the first, then the second once more. *)
Example ring_run_returns :
  ∃ s', run 3 0 ring = Ok s'
    ∧ processed (trace s') = [1; 0; 1].
Proof. eexists. split; [vm_compute; reflexivity|]. reflexivity. Qed.

Lemma running_flag_is_never_cleared_witness :
  final (exec_all 5 poke running_one) = Some running_one_poked
  ∧ _running (set_running true fresh) = true
  ∧ ∃ nd' new,
      node 0 running_one_poked = Some nd'
      ∧ _running nd' = true
      ∧ trace running_one_poked = new ++ trace running_one
      ∧ (EvProcessData 0 ∉ new).
Proof.
  assert (final (exec_all 5 poke running_one) = Some running_one_poked) as H
    by (vm_compute; reflexivity).
  split; [exact H|]. split; [reflexivity|].
  refine (running_flag_is_never_cleared [] processData 5 poke running_one
            running_one_poked 0 (set_running true fresh) _ H eq_refl eq_refl).
  repeat constructor. by eexists.
Defined.

Lemma run_raise_leaves_running_witness :
  Engine.run [] (λ _, NodeBase_processData) 2 0 three
  = Raise NotImplementedError
      (log (EvProcessData 0) (upd 0 (set_running true) (log (EvRun 0) three)))
  ∧ ∃ nd',
      node 0 (log (EvProcessData 0)
                (upd 0 (set_running true) (log (EvRun 0) three))) = Some nd'
      ∧ _running nd' = true.
Proof.
  assert (Engine.run [] (λ _, NodeBase_processData) 2 0 three
          = Raise NotImplementedError
              (log (EvProcessData 0)
                 (upd 0 (set_running true) (log (EvRun 0) three)))) as H
    by reflexivity.
  split; [exact H|].
  exact (run_raise_leaves_running [] (λ _, NodeBase_processData) 2 0 three
           NotImplementedError _ fresh H eq_refl).
Defined.

Lemma run_recomputes_stale_node_witness :
  _running fresh = false
  ∧ _uptodate fresh = false
  ∧ ∃ s', run (S (idle three)) 0 three = Ok s'.
Proof.
  split; [reflexivity|]. split; [reflexivity|].
  exact (proj1 (run_recomputes_stale_node [] processData 0 three fresh
                  three_wired three_acyclic eq_refl eq_refl eq_refl)
           processData_total).
Defined.

Lemma setSourceData_recomputes_witness :
  (_running <$> node 0 chain) = Some false
  ∧ (_updateOnSource <$> node 0 chain) = Some true
  ∧ ∃ fuel s', setSourceData fuel 0 "input" (Some [7%Z]) chain = Ok s'.
Proof.
  split; [reflexivity|]. split; [reflexivity|].
  exact (proj1 (setSourceData_recomputes [] processData 0 "input" (Some [7%Z])
                  chain (default fresh (node 0 chain))
                  (mkSource None (Some [5%Z]))
                  chain_wired chain_acyclic eq_refl eq_refl eq_refl eq_refl)
           processData_total).
Defined.

(** On the sample chain: pushing [[7]] into A recomputes A, B and C. *)
Example chain_push :
  ∃ s', setSourceData 20 0 "input" (Some [7%Z]) chain = Ok s'
    ∧ output_of 0 s' = Some (Some [7%Z])
    ∧ output_of 1 s' = Some (Some [8%Z])
    ∧ output_of 2 s' = Some (Some [16%Z]).
Proof. eexists. split; [vm_compute; reflexivity|]. by repeat split. Qed.

Lemma run_again_is_quiet_witness :
  run 20 1 chain = Ok chain_rerun
  ∧ run 20 1 chain_rerun = Ok chain_rerun_twice
  ∧ ∃ nd2, node 1 chain_rerun_twice = Some nd2 ∧ _running nd2 = true.
Proof.
  assert (run 20 1 chain = Ok chain_rerun) as H1 by (vm_compute; reflexivity).
  assert (run 20 1 chain_rerun = Ok chain_rerun_twice) as H2
    by (vm_compute; reflexivity).
  split; [exact H1|]. split; [exact H2|].
  exact (proj2 (proj2 (run_again_is_quiet [] processData 20 20 1 chain
                         chain_rerun chain_rerun_twice
                         chain_wired chain_acyclic H1 H2))).
Defined.

Lemma run_changes_are_logged_witness :
  final (run 20 1 chain) = Some chain_rerun
  ∧ tracks chain chain_rerun.
Proof.
  assert (final (run 20 1 chain) = Some chain_rerun) as H
    by (vm_compute; reflexivity).
  split; [exact H|].
  exact (run_changes_are_logged [] processData 20 1 chain chain_rerun H).
Defined.

Lemma setSource_connects_witness :
  setSource 20 1 "input" (Some 0) three = Ok linked
  ∧ ∃ nd' src' ndu,
      node 1 linked = Some nd'
      ∧ lookup_source "input" (_sources nd') = Some src'
      ∧ ref src' = Some 0
      ∧ node 0 linked = Some ndu
      ∧ ((1, "Input") ∈ dataProcessed ndu).
Proof.
  assert (setSource 20 1 "input" (Some 0) three = Ok linked) as H
    by (vm_compute; reflexivity).
  split; [exact H|].
  destruct (setSource_connects [] processData 20 1 "input" 0 three linked H)
    as (nd' & src' & ndu & H1 & H2 & H3 & _ & H4 & H5 & _).
  exists nd', src', ndu. repeat split; assumption.
Defined.

Lemma setSource_None_witness :
  node 0 three = Some fresh
  ∧ (∀ s', setSource 5 0 "input" None three ≠ Ok s')
  ∧ setSource 5 0 "input" None three = Raise AttributeError three.
Proof.
  split; [reflexivity|].
  destruct (setSource_None [] processData 5 0 "input" three fresh
              (mkSource None None) eq_refl eq_refl) as (H1 & H2 & _).
  split; [exact H1|exact (H2 eq_refl)].
Defined.

Lemma first_wiring_is_consistent_witness :
  setSource 20 1 "input" (Some 0) three = Ok linked
  ∧ wired linked.
Proof.
  assert (setSource 20 1 "input" (Some 0) three = Ok linked) as H
    by (vm_compute; reflexivity).
  split; [exact H|].
  exact (first_wiring_is_consistent [] processData 20 1 "input" 0 three linked
           fresh (mkSource None None) three_wired eq_refl eq_refl eq_refl H).
Defined.

Lemma signals_fill_only_the_last_source_witness :
  final (exec 20 (CallSetSource 1 "a" (Some 0)) pair) = Some pair_linked
  ∧ closure_k two_slot ≠ Some "a"
  ∧ ∃ nd', node 1 pair_linked = Some nd'
      ∧ data <$> lookup_source "a" (_sources nd')
        = data <$> lookup_source "a" (_sources two_slot).
Proof.
  assert (final (exec 20 (CallSetSource 1 "a" (Some 0)) pair) = Some pair_linked)
    as H by (vm_compute; reflexivity).
  assert (closure_k two_slot ≠ Some "a") as Hk by discriminate.
  split; [exact H|]. split; [exact Hk|].
  destruct (signals_fill_only_the_last_source [] processData 20
              (CallSetSource 1 "a" (Some 0)) pair pair_linked 1 two_slot "a"
              I H eq_refl Hk) as (nd' & H1 & _ & H2).
  exists nd'. split; assumption.
Defined.

Lemma NodeBase_run_raises_witness :
  _running fresh = false
  ∧ _uptodate fresh = false
  ∧ ∀ s', Engine.run [] (λ _, NodeBase_processData) 5 0 three ≠ Ok s'.
Proof.
  split; [reflexivity|]. split; [reflexivity|].
  exact (proj1 (@NodeBase_run_raises D Z [] 5 0 three fresh
                  eq_refl eq_refl eq_refl)).
Defined.

Lemma Node_run_keeps_outputs_witness :
  final (Engine.run [] (λ _, Node_processData) 5 0 three) = Some three_plain_run
  ∧ ∃ nd', node 0 three_plain_run = Some nd'
      ∧ (_data nd' = _data fresh
         ∨ (_data fresh = None ∧ _data nd' = Some [])).
Proof.
  assert (final (Engine.run [] (λ _, Node_processData) 5 0 three)
          = Some three_plain_run) as H by (vm_compute; reflexivity).
  split; [exact H|].
  exact (@Node_run_keeps_outputs D Z [] 5 0 three three_plain_run 0 fresh
           H eq_refl).
Defined.

End EngineSamples.

(** * Properties of [asGrid] and [DataSelector] *)

Section AsGridFacts.

Import DataDicts.

Variable dependents : dataobj → list string.
Variable remove_unused_axes : dataobj → dataobj.
Variable validate : dataobj → option exn.
Variable get_grid : dataobj → grid_arg → exn + dataobj.

(** C10. For a [GridDataDict] and [names=None], [asGrid] returns [None]:
    the branch for grids returns only inside [if names is not None]. *)
Theorem asGrid_grid_no_names (items : dict) (makeCopy : bool) :
  AsGrid.asGrid dependents remove_unused_axes validate get_grid
    (Some (mkObj GridDataDict items)) None makeCopy = inr None.
Proof. reflexivity. Qed.

(** ** [asGrid] on a grid with names *)

Lemma del_all_cons (rem : list string) k v (d : dict) :
  k ∉ rem →
  AsGrid.del_all rem ((k, v) :: d)
  = match AsGrid.del_all rem d with
    | inl e => inl e
    | inr d' => inr ((k, v) :: d')
    end.
Proof.
  revert d. induction rem as [|r rest IH]; intros d Hk; simpl; [done|].
  apply not_elem_of_cons in Hk as [Hne Hk].
  destruct (String.eqb_spec r k) as [->|_]; [done|].
  destruct (dict_del r d) as [e|d'] eqn:E; simpl; [done|].
  by apply IH.
Qed.

Lemma del_all_filter (P : string → Prop) `{∀ k, Decision (P k)} (d : dict) :
  NoDup d.*1 →
  AsGrid.del_all (filter P d.*1) d = inr (filter (λ p, ¬ P p.1) d).
Proof.
  induction d as [|[k v] r IH]; [done|]. simpl.
  intros [Hk Hr]%NoDup_cons.
  rewrite (filter_cons P), (filter_cons (λ p : string * entry, ¬ P p.1)). simpl.
  change (list_fmap (string * entry)%type string fst r) with (r.*1) in *.
  destruct (decide (P k)) as [HP|HP].
  - rewrite decide_False by (by intros ?). simpl.
    rewrite String.eqb_refl. simpl. by apply IH.
  - rewrite decide_True by done. rewrite del_all_cons, IH; [done|done|].
    by intros [_ ?]%list_elem_of_filter.
Qed.

(** X18. [asGrid] on a grid with a list of names removes exactly the
    dependents that are not named: what is handed to
    [remove_unused_axes] holds, in their order, the entries that are named
    or are not dependents.  The deletions never raise; the call raises
    only what [validate] raises. *)
Theorem asGrid_grid_with_names (items : dict) (ns : list string)
    (makeCopy : bool) :
  NoDup items.*1 →
  AsGrid.asGrid dependents remove_unused_axes validate get_grid
    (Some (mkObj GridDataDict items)) (Some ns) makeCopy
  = let kept := filter (λ p, p.1 ∈ ns ∨ p.1 ∉ dependents (mkObj GridDataDict items))
                  items in
    let o' := remove_unused_axes (mkObj GridDataDict kept) in
    match validate o' with
    | Some e => inl e
    | None => inr (Some o')
    end.
Proof.
  intros Hnd. unfold AsGrid.asGrid. simpl.
  rewrite (del_all_filter
             (λ n, (n ∉ ns) ∧ (n ∈ dependents (mkObj GridDataDict items)))
             items Hnd).
  simpl.
  replace (filter (λ p : string * entry,
             ¬ ((p.1 ∉ ns) ∧ (p.1 ∈ dependents (mkObj GridDataDict items)))) items)
    with (filter (λ p : string * entry,
             p.1 ∈ ns ∨ p.1 ∉ dependents (mkObj GridDataDict items)) items); [done|].
  apply list_filter_iff. intros [k v]. simpl.
  destruct (decide (k ∈ ns)), (decide (k ∈ dependents (mkObj GridDataDict items)));
    tauto.
Qed.

End AsGridFacts.

Section AsGridSamples.

Import DataDicts SampleGrid.

Lemma asGrid_grid_with_names_witness :
  NoDup (obj_items (grid 3 4)).*1
  ∧ AsGrid.asGrid dependents remove_unused_axes validate get_grid
      (Some (grid 3 4)) (Some []) true
    = inr (Some (mkObj GridDataDict
                   [("x", rec_of [3] None); ("y", rec_of [4] None)])).
Proof.
  assert (NoDup (obj_items (grid 3 4)).*1) as H.
  { apply (bool_decide_unpack _). vm_compute. exact I. }
  split; [exact H|].
  exact (asGrid_grid_with_names dependents remove_unused_axes validate
           get_grid (obj_items (grid 3 4)) [] true H).
Defined.

End AsGridSamples.

Section DataSelectorFacts.

Import DataDicts DataSelector.

Variable grid_has_get_grid : bool.
Variable get_grid : dataobj → grid_arg → exn + dataobj.

Abbreviation processData_res := (processData_res grid_has_get_grid get_grid).

(** ** Dictionaries *)

Lemma ret_bind {A B : Type} (a : A) (f : A → exn + B) : (inr a ≫= f) = f a.
Proof. reflexivity. Qed.

Lemma dict_get_set k k' v (d : dict) :
  dict_get k' (dict_set k v d) = if String.eqb k' k then Some v else dict_get k' d.
Proof.
  induction d as [|[k1 v1] r IH]; simpl; [done|].
  destruct (String.eqb_spec k k1) as [->|Hne]; simpl.
  - by destruct (String.eqb k' k1).
  - rewrite IH. destruct (String.eqb_spec k' k1) as [->|Hne']; [|done].
    by destruct (String.eqb_spec k1 k) as [->|_].
Qed.

Lemma dict_set_keys k v e (d : dict) :
  dict_get k d = Some e → (dict_set k v d).*1 = d.*1.
Proof.
  induction d as [|[k1 v1] r IH]; simpl; [done|].
  destruct (String.eqb k k1); simpl; [done|]. intros H. f_equal. by apply IH.
Qed.

Lemma dict_get_None_keys k (d : dict) : k ∉ d.*1 → dict_get k d = None.
Proof.
  induction d as [|[k1 v1] r IH]; simpl; [done|].
  intros Hk. destruct (String.eqb_spec k k1) as [->|Hne].
  - exfalso. apply Hk. left.
  - apply IH. intros H. apply Hk. by right.
Qed.

Lemma dict_del_spec k e (d : dict) :
  dict_get k d = Some e →
  ∃ d', dict_del k d = inr d'
    ∧ (∀ k', k' ≠ k → dict_get k' d' = dict_get k' d)
    ∧ (NoDup d.*1 → dict_get k d' = None).
Proof.
  induction d as [|[k1 v1] r IH]; simpl; [done|].
  destruct (String.eqb_spec k k1) as [->|Hne].
  - intros _. exists r. split; [done|]. split.
    + intros k' Hk'. by destruct (String.eqb_spec k' k1).
    + intros Hnd. apply dict_get_None_keys. by inversion Hnd.
  - intros Hk. destruct (IH Hk) as (d' & -> & Hother & Hnd).
    exists ((k1, v1) :: d'). split; [done|]. split.
    + intros k' Hk'. simpl. rewrite Hother by done. done.
    + intros Hd. simpl. destruct (String.eqb_spec k k1); [done|].
      apply Hnd. by inversion Hd.
Qed.

Lemma full_slice_indices n :
  Np.slice_indices Np.full_slice n = Some (0%Z, 1%Z, n).
Proof.
  unfold Np.slice_indices; simpl. do 3 f_equal.
  destruct (Z.ltb_spec 0 (Z.of_nat n)); [|lia].
  rewrite Z.div_1_r. lia.
Qed.

Lemma get_record_set k k' e (d : dict) :
  get_record (dict_set k e d) k'
  = if String.eqb k' k
    then match e with ERecord f => inr f | EStr _ => inl TypeError end
    else get_record d k'.
Proof.
  unfold get_record. rewrite dict_get_set. by destruct (String.eqb k' k).
Qed.

Lemma get_values_of (d : dict) k f a :
  dict_get k d = Some (ERecord f) → values f = Some a → get_values d k = inr a.
Proof. intros H Hv. unfold get_values, get_record. by rewrite H; simpl; rewrite Hv. Qed.

Lemma get_axes_of (d : dict) k f l :
  dict_get k d = Some (ERecord f) → axes f = Some l → get_axes d k = inr l.
Proof. intros H Hv. unfold get_axes, get_record. by rewrite H; simpl; rewrite Hv. Qed.

Lemma set_values_of (d : dict) k f a :
  dict_get k d = Some (ERecord f) →
  set_values d k a = inr (dict_set k (ERecord (mkField (Some a) (axes f))) d).
Proof. intros H. unfold set_values, get_record. by rewrite H. Qed.

Lemma set_axes_of (d : dict) k f l :
  dict_get k d = Some (ERecord f) →
  set_axes d k l = inr (dict_set k (ERecord (mkField (values f) (Some l))) d).
Proof. intros H. unfold set_axes, get_record. by rewrite H. Qed.

(** ** [axesList] *)

Lemma append_new_spec (ns lst : list string) :
  NoDup lst →
  NoDup (append_new ns lst)
  ∧ ∀ n, n ∈ append_new ns lst ↔ n ∈ lst ∨ n ∈ ns.
Proof.
  revert lst. induction ns as [|a r IH]; intros lst Hnd; simpl.
  - split; [done|]. intros n. split; [by left|].
    intros [?|?%not_elem_of_nil]; done.
  - case_bool_decide as Ha.
    + destruct (IH lst Hnd) as [H1 H2]. split; [done|]. intros n.
      rewrite H2, elem_of_cons. split; [tauto|].
      intros [?|[->|?]]; auto.
    + assert (NoDup (lst ++ [a])) as Hnd'.
      { apply NoDup_app. split; [done|]. split; [|apply NoDup_singleton].
        intros x Hx ->%list_elem_of_singleton. done. }
      destruct (IH _ Hnd') as [H1 H2]. split; [done|]. intros n.
      rewrite H2, elem_of_app, list_elem_of_singleton, elem_of_cons. tauto.
Qed.

Lemma axes_loop_spec (items : dict) (lst : list string) :
  NoDup lst →
  (∀ k s, (k, EStr s) ∈ items → has_substring "axes" s = false) →
  ∃ l, axes_loop items lst = inr l
    ∧ NoDup l
    ∧ ∀ n, n ∈ l ↔
        n ∈ lst ∨ ∃ k f ax, (k, ERecord f) ∈ items ∧ axes f = Some ax ∧ n ∈ ax.
Proof.
  revert lst. induction items as [|[k v] r IH]; intros lst Hnd Hstr; simpl.
  - exists lst. split; [done|]. split; [done|]. intros n. split; [by left|].
    intros [?|(? & ? & ? & ?%not_elem_of_nil & _)]; done.
  - assert (∀ k s, (k, EStr s) ∈ r → has_substring "axes" s = false) as Hstr'.
    { intros k' s' Hin. apply (Hstr k'). by right. }
    destruct v as [f|str]; simpl.
    + destruct (axes f) as [ax|] eqn:Hax; simpl.
      * destruct (append_new_spec ax lst Hnd) as [Hnd' Hin'].
        destruct (IH _ Hnd' Hstr') as (l & -> & Hl & Hmem).
        exists l. split; [done|]. split; [done|]. intros n.
        rewrite Hmem, Hin'. split.
        -- intros [[?|?]|(k' & f' & ax' & Hin & ? & ?)]; [by left| |].
           ++ right. exists k, f, ax. split; [left|done].
           ++ right. exists k', f', ax'. split; [by right|done].
        -- intros [?|(k' & f' & ax' & Hin & Hf' & Hn)]; [by left; left|].
           apply elem_of_cons in Hin as [Heq|Hin].
           ++ inversion Heq; subst. left. right. congruence.
           ++ right. by exists k', f', ax'.
      * destruct (IH _ Hnd Hstr') as (l & -> & Hl & Hmem).
        exists l. split; [done|]. split; [done|]. intros n. rewrite Hmem.
        split.
        -- intros [?|(k' & f' & ax' & Hin & ? & ?)]; [by left|].
           right. exists k', f', ax'. split; [by right|done].
        -- intros [?|(k' & f' & ax' & Hin & Hf' & Hn)]; [by left|].
           apply elem_of_cons in Hin as [Heq|Hin].
           ++ inversion Heq; subst. congruence.
           ++ right. by exists k', f', ax'.
    + rewrite (Hstr k str) by left.
      destruct (IH _ Hnd Hstr') as (l & -> & Hl & Hmem).
      exists l. split; [done|]. split; [done|]. intros n. rewrite Hmem.
      split.
      * intros [?|(k' & f' & ax' & Hin & ? & ?)]; [by left|].
        right. exists k', f', ax'. split; [by right|done].
      * intros [?|(k' & f' & ax' & Hin & Hf' & Hn)]; [by left|].
        apply elem_of_cons in Hin as [Heq|Hin]; [done|].
        right. by exists k', f', ax'.
Qed.

Lemma dict_get_elem k (d : dict) e : dict_get k d = Some e → (k, e) ∈ d.
Proof.
  induction d as [|[k1 v1] r IH]; simpl; [done|].
  destruct (String.eqb_spec k k1) as [->|Hne].
  - intros [= ->]. left.
  - intros H. right. by apply IH.
Qed.

(** X19. [axesList(data)] without a name returns every axis of every
    field exactly once, and nothing else; [axesList(data, name)] returns
    the axes of that one field, all of which are in the list for the whole
    dataset, and the empty list for a name that is not in the data or has
    no axes.  (Entries are records, or strings that do not contain
    [axes].) *)
Theorem axesList_spec (data : dict) :
  (∀ k s, (k, EStr s) ∈ data → has_substring "axes" s = false) →
  ∃ l, axesList data None = inr l
    ∧ NoDup l
    ∧ (∀ n, n ∈ l ↔
         ∃ k f ax, (k, ERecord f) ∈ data ∧ axes f = Some ax ∧ n ∈ ax)
    ∧ ∀ name, ∃ l',
        axesList data (Some name) = inr l'
        ∧ l' = match dict_get name data with
               | Some (ERecord f) => default [] (axes f)
               | _ => []
               end
        ∧ ∀ n, n ∈ l' → n ∈ l.
Proof.
  intros Hstr.
  destruct (axes_loop_spec data [] (NoDup_nil_2) Hstr) as (l & Hl & Hnd & Hmem).
  exists l. split; [done|]. split; [done|].
  assert (∀ n, n ∈ l ↔
            ∃ k f ax, (k, ERecord f) ∈ data ∧ axes f = Some ax ∧ n ∈ ax) as Hmem'.
  { intros n. rewrite Hmem. split; [|by right].
    intros [?%not_elem_of_nil|?]; done. }
  split; [done|]. intros name. simpl.
  destruct (dict_get name data) as [[f|str]|] eqn:Hget; simpl.
  - destruct (axes f) as [ax|] eqn:Hax; simpl.
    + exists ax. split; [done|]. split; [done|]. intros n Hn.
      apply Hmem'. exists name, f, ax. split; [by apply dict_get_elem|done].
    + exists []. split; [done|]. split; [done|]. by intros n ?%not_elem_of_nil.
  - rewrite (Hstr name str) by (by apply dict_get_elem).
    exists []. split; [done|]. split; [done|]. by intros n ?%not_elem_of_nil.
  - exists []. split; [done|]. split; [done|]. by intros n ?%not_elem_of_nil.
Qed.

(** ** [processData]: nothing selected, and the path without [get_grid] *)

(** X20. [processData] returns [{}] when there is no input data and when
    no field name is selected, whatever the other options are and without
    looking at the data. *)
Theorem processData_nothing_selected (nd : DNode) (data : option dataobj) :
  getInputData nd = inr data →
  data = None ∨ _dataName (Engine._opts nd) = None →
  processData_res nd = inr empty_dict.
Proof.
  intros Hin Hcase. unfold DataSelector.processData_res. rewrite Hin. simpl.
  destruct data as [d|]; [|done]. destruct Hcase as [?|Hnone]; [done|].
  by rewrite Hnone.
Qed.

Lemma unpack2_fails key :
  String.length key ≠ 2 → unpack2 key = inl ValueError.
Proof. by destruct key as [|a [|b [|c r]]]. Qed.

Lemma unpack2_raises key e : unpack2 key = inl e → e = ValueError.
Proof. destruct key as [|a [|b [|c r]]]; simpl; congruence. Qed.

Lemma copy_axes_loop_fails ks axs (d : dict) :
  (∃ key, key ∈ ks ∧ String.length key ≠ 2) →
  copy_axes_loop ks (inr axs) d = inl ValueError.
Proof.
  revert d. induction ks as [|key r IH]; intros d (bad & Hin & Hlen).
  { by apply not_elem_of_nil in Hin. }
  simpl. destruct (unpack2 key) as [e|kv] eqn:E; simpl.
  { by rewrite (unpack2_raises _ _ E). }
  assert (∃ key', key' ∈ r ∧ String.length key' ≠ 2) as Hr.
  { apply elem_of_cons in Hin as [->|Hin]; [|by exists bad].
    by rewrite unpack2_fails in E. }
  case_bool_decide; by apply IH.
Qed.

Lemma dict_get_keys k (d : dict) e : dict_get k d = Some e → k ∈ d.*1.
Proof.
  intros H%dict_get_elem. apply list_elem_of_fmap. by exists (k, e).
Qed.

(** X21. Without [get_grid] (a plain dictionary as input, or the grid
    flag off) [processData] iterates over the input and unpacks each key
    into two variables: it raises [ValueError] as soon as some key of the
    input, the selected name included, does not have exactly two
    characters. *)
Theorem processData_plain_needs_two_character_keys (nd : DNode) input name f :
  getInputData nd = inr (Some input) →
  _dataName (Engine._opts nd) = Some name →
  hasattr_get_grid grid_has_get_grid input && Engine._grid nd = false →
  dict_get name (obj_items input) = Some (ERecord f) →
  ((∃ key, key ∈ (obj_items input).*1 ∧ String.length key ≠ 2) →
   processData_res nd = inl ValueError)
  ∧ (String.length name ≠ 2 → processData_res nd = inl ValueError).
Proof.
  intros Hin Hname Hplain Hget.
  assert ((∃ key, key ∈ (obj_items input).*1 ∧ String.length key ≠ 2) →
          processData_res nd = inl ValueError) as H.
  { intros Hbad. unfold DataSelector.processData_res. rewrite Hin. simpl.
    rewrite Hname, Hplain. unfold select_plain. rewrite Hget. simpl.
    by rewrite copy_axes_loop_fails. }
  split; [done|]. intros Hlen. apply H. exists name.
  split; [by eapply dict_get_keys|done].
Qed.

Lemma list_index_fails n (l : list string) : n ∉ l → list_index n l = inl ValueError.
Proof.
  induction l as [|y r IH]; simpl; [done|].
  intros [Hne Hr]%not_elem_of_cons.
  destruct (String.eqb_spec n y) as [->|_]; [done|]. by rewrite IH.
Qed.

Lemma list_index_finds n (l : list string) : n ∈ l → ∃ i, list_index n l = inr i.
Proof.
  induction l as [|y r IH]; simpl; [by intros ?%not_elem_of_nil|].
  intros Hin. destruct (String.eqb_spec n y) as [->|Hne]; [by eexists|].
  apply elem_of_cons in Hin as [?|Hin]; [done|].
  destruct (IH Hin) as [i ->]. by eexists.
Qed.

(** X22. When the first entry of [slices] names something that is not an
    axis of the selected field, [processData] raises [ValueError]; when it
    names an axis of the field that has no entry of its own in the data,
    [processData] raises [KeyError]. *)
Theorem processData_slice_bad_axis (nd : DNode) input g name f vals axs
    n sel rest :
  getInputData nd = inr (Some input) →
  _dataName (Engine._opts nd) = Some name →
  Engine._grid nd = true →
  hasattr_get_grid grid_has_get_grid input = true →
  get_grid input (ArgName name) = inr g →
  dict_get name (obj_items g) = Some (ERecord f) →
  values f = Some vals → axes f = Some axs →
  _slices (Engine._opts nd) = (n, sel) :: rest →
  ((n ∉ axs) → processData_res nd = inl ValueError)
  ∧ (n ∈ axs → dict_get n (obj_items g) = None →
     processData_res nd = inl KeyError).
Proof.
  intros Hin Hname Hgrid Hhas Hgg Hz Hzv Hza Hsl.
  assert (processData_res nd
          = (items ← grid_block (Engine._opts nd) name (obj_items g);
             inr (mkObj (obj_kind g) items))) as ->.
  { unfold DataSelector.processData_res. rewrite Hin. simpl.
    rewrite Hname, Hhas, Hgrid. simpl. by rewrite Hgg. }
  unfold grid_block.
  rewrite (get_values_of _ _ _ _ Hz Hzv), (get_axes_of _ _ _ _ Hz Hza), Hsl.
  simpl. split.
  - intros Hn. by rewrite list_index_fails.
  - intros Hn Hnone. destruct (list_index_finds n axs Hn) as [i ->]. simpl.
    unfold get_values, get_record. by rewrite Hnone.
Qed.

(** ** The default options, and squeezing *)

Lemma dict_set_set k v v' (d : dict) :
  dict_set k v' (dict_set k v d) = dict_set k v' d.
Proof.
  induction d as [|[k1 v1] r IH]; simpl.
  - by rewrite String.eqb_refl.
  - destruct (String.eqb k k1) eqn:E; simpl; rewrite E; [done|]. by rewrite IH.
Qed.

Lemma resolve_full (axs : list string) (sh : list nat) :
  length axs ≤ length sh →
  Np.resolve (map (λ _, Np.SelSlice Np.full_slice) axs) sh
  = inr (map (λ d, Np.Keep 0 1 d) sh).
Proof.
  revert sh. induction axs as [|a r IH]; intros sh Hlen.
  - by destruct sh.
  - destruct sh as [|d sh']; [simpl in Hlen; lia|].
    change (match Np.slice_indices Np.full_slice d with
            | None => inl ValueError
            | Some (start, step, n) =>
                match Np.resolve (map (λ _, Np.SelSlice Np.full_slice) r) sh' with
                | inl e => inl e
                | inr l => inr (Np.Keep start step n :: l)
                end
            end = inr (map (λ d, Np.Keep 0 1 d) (d :: sh'))).
    rewrite full_slice_indices, IH; [done|]. simpl in Hlen. lia.
Qed.

Lemma kept_shape_keep (sh : list nat) :
  Np.kept_shape (map (λ d, Np.Keep 0 1 d) sh) = sh.
Proof. induction sh as [|d r IH]; simpl; [done|]. by rewrite IH. Qed.

Lemma route_keep (sh idx : list nat) :
  length idx = length sh → Np.route (map (λ d, Np.Keep 0 1 d) sh) idx = idx.
Proof.
  revert idx. induction sh as [|d r IH]; intros [|i idx] Hlen; simpl in *;
    try done.
  f_equal; [lia|]. apply IH. lia.
Qed.

Lemma index_list_full (axs : list string) (vals : Np.ndarray) :
  axs ≠ [] → length axs ≤ Np.ndim vals →
  Np.index_list (map (λ _, Np.SelSlice Np.full_slice) axs) vals
  = inr (Np.mkArray (Np.shape vals)
           (λ idx, Np.at_index vals
                     (Np.route (map (λ d, Np.Keep 0 1 d) (Np.shape vals)) idx))).
Proof.
  intros Hne Hlen. unfold Np.index_list.
  assert (forallb Np.is_int (map (λ _, Np.SelSlice Np.full_slice) axs) = false)
    as -> by (by destruct axs).
  unfold Np.index_tuple. by rewrite resolve_full, kept_shape_keep.
Qed.

Lemma used_loop_none (axs : list string) (l : list nat) :
  used_loop (map (λ _, None) axs) l = l.
Proof. induction axs as [|a r IH]; simpl; done. Qed.

Lemma fill_loop_none (axs : list string) (l : list nat) :
  length axs ≤ length l →
  fill_loop (map (λ _, None) axs) l = inr (take (length axs) l).
Proof.
  revert l. induction axs as [|a r IH]; intros l Hlen; simpl; [done|].
  destruct l as [|j l']; simpl in *; [lia|]. rewrite IH by lia. done.
Qed.

Lemma list_find_seq (n k : nat) :
  k < n → list_find (λ i, i = k) (seq 0 n) = Some (k, k).
Proof.
  intros Hk. apply list_find_Some. split; [by apply lookup_seq_lt|].
  split; [done|]. intros j y Hj Hlt ->. apply lookup_seq in Hj. lia.
Qed.

Lemma transpose_identity (a : Np.ndarray) :
  ∃ a', Np.transpose (seq 0 (Np.ndim a)) a = inr a'
    ∧ Np.shape a' = Np.shape a
    ∧ ∀ idx, length idx = Np.ndim a → Np.at_index a' idx = Np.at_index a idx.
Proof.
  unfold Np.transpose. rewrite length_seq, Nat.eqb_refl. simpl.
  assert (forallb (λ i, i <? Np.ndim a) (seq 0 (Np.ndim a)) = true) as ->.
  { apply forallb_forall. intros x Hx%in_seq. apply Nat.ltb_lt. lia. }
  assert (Np.no_dup_nat (seq 0 (Np.ndim a)) = true) as ->.
  { apply bool_decide_eq_true_2, NoDup_seq. }
  simpl. eexists. split; [done|]. simpl. split.
  - unfold Np.ndim. apply list_eq. intros i.
    change (map ?f ?l) with (f <$> l). rewrite list_lookup_fmap.
    destruct (Np.shape a !! i) as [d|] eqn:E.
    + rewrite lookup_seq_lt by (by eapply lookup_lt_Some). simpl.
      by rewrite (nth_lookup_Some _ _ _ _ E).
    + rewrite lookup_ge_None_2; [done|]. rewrite length_seq.
      by apply lookup_ge_None.
  - intros idx Hlen. f_equal. apply list_eq. intros i.
    change (map ?f ?l) with (f <$> l). rewrite list_lookup_fmap.
    destruct (idx !! i) as [x|] eqn:E.
    + assert (i < Np.ndim a) as Hi by (rewrite <-Hlen; by eapply lookup_lt_Some).
      rewrite lookup_seq_lt by done. simpl. rewrite list_find_seq by done.
      by rewrite (nth_lookup_Some _ _ _ _ E).
    + rewrite lookup_ge_None_2; [done|]. rewrite length_seq, <-Hlen.
      by apply lookup_ge_None.
Qed.

Lemma pick_names_seq (axs : list string) k m :
  k + m = length axs → pick_names axs (seq k m) = inr (drop k axs).
Proof.
  revert k. induction m as [|m IH]; intros k Hlen; simpl.
  - rewrite drop_ge; [done|lia].
  - destruct (axs !! k) as [x|] eqn:E.
    + rewrite IH by lia. simpl. by rewrite (drop_S _ _ _ E).
    + apply lookup_ge_None in E. lia.
Qed.

Lemma unsqueeze_same (sh idx : list nat) :
  (∀ d, d ∈ sh → d ≠ 1) → length idx = length sh → Np.unsqueeze sh idx = idx.
Proof.
  revert idx. induction sh as [|d r IH]; intros [|i idx] Hall Hlen; simpl in *;
    try done.
  assert (d ≠ 1) as Hd by (apply Hall; left).
  destruct (Nat.eqb_spec d 1); [done|]. f_equal. apply IH; [|lia].
  intros d' Hd'. apply Hall. by right.
Qed.

Lemma squeeze_loop_none fuel j (L : list string) (sh : list nat) name data :
  (∀ j' d, j ≤ j' → sh !! j' = Some d → 2 ≤ d) →
  length L ≤ length sh →
  squeeze_loop fuel j L sh name data = inr data.
Proof.
  revert j. induction fuel as [|fuel IH]; intros j Hall Hlen; simpl; [done|].
  destruct (L !! j) as [n|] eqn:E; [|done].
  destruct (sh !! j) as [d|] eqn:E2.
  - assert ((d <? 2) = false) as ->.
    { apply Nat.ltb_ge. by apply (Hall j). }
    apply IH; [|done]. intros j' d' Hj'. apply Hall. lia.
  - apply lookup_lt_Some in E. apply lookup_ge_None in E2. lia.
Qed.

Lemma squeeze_loop_one fuel j i (L : list string) (sh : list nat) name data
    a d f0 e :
  j ≤ i → i - j < fuel →
  L !! i = Some a → sh !! i = Some d → d < 2 →
  (∀ j' d', j' ≠ i → sh !! j' = Some d' → 2 ≤ d') →
  length L = length sh →
  dict_get name data = Some (ERecord f0) →
  dict_get a data = Some e → a ≠ name →
  squeeze_loop fuel j L sh name data
  = dict_del a (dict_set name
                  (ERecord (mkField (values f0) (Some (delete i L)))) data).
Proof.
  intros Hji Hfuel Ha Hd Hlt Hall Hlen Hname Hget Hne.
  revert j Hji Hfuel. induction fuel as [|fuel IH]; intros j Hji Hfuel; [lia|].
  simpl. destruct (decide (j = i)) as [->|Hneq].
  - rewrite Ha, Hd. assert ((d <? 2) = true) as -> by (by apply Nat.ltb_lt).
    rewrite (set_axes_of _ _ _ _ Hname). simpl.
    destruct (dict_del_spec a e
                (dict_set name (ERecord (mkField (values f0) (Some (delete i L))))
                   data)) as (d' & Hdel & _).
    { rewrite dict_get_set. by destruct (String.eqb_spec a name). }
    rewrite Hdel. simpl. apply squeeze_loop_none.
    + intros j' d0 Hj'. apply Hall. lia.
    + rewrite length_delete by (by eexists). lia.
  - destruct (L !! j) as [n|] eqn:E.
    2: { apply lookup_ge_None in E. apply lookup_lt_Some in Ha. lia. }
    destruct (sh !! j) as [dj|] eqn:E2.
    2: { apply lookup_ge_None in E2. apply lookup_lt_Some in E. lia. }
    assert ((dj <? 2) = false) as ->.
    { apply Nat.ltb_ge. by apply (Hall j). }
    apply IH; lia.
Qed.

Lemma filter_ne1_same (sh : list nat) :
  (∀ d, d ∈ sh → 2 ≤ d) → filter (λ d, d ≠ 1) sh = sh.
Proof.
  induction sh as [|d r IH]; intros Hall; [done|].
  rewrite filter_cons. rewrite decide_True.
  - f_equal. apply IH. intros d' Hd'. apply Hall. by right.
  - assert (2 ≤ d) by (apply Hall; left). lia.
Qed.

Lemma filter_ne1_delete (sh : list nat) i :
  sh !! i = Some 1 →
  (∀ j d, j ≠ i → sh !! j = Some d → 2 ≤ d) →
  filter (λ d, d ≠ 1) sh = delete i sh.
Proof.
  revert i. induction sh as [|d r IH]; intros i Hi Hall; [done|].
  rewrite filter_cons. destruct i as [|i]; simpl in *.
  - inversion Hi; subst. rewrite decide_False by (by intros ?).
    apply filter_ne1_same. intros d Hd.
    apply list_elem_of_lookup in Hd as [j Hj]. by apply (Hall (S j)).
  - assert (2 ≤ d) by (by apply (Hall 0)). rewrite decide_True by lia.
    f_equal. apply IH; [done|]. intros j d' Hj. apply (Hall (S j)). lia.
Qed.

(** The block of [processData] up to the squeeze, with no slices and no
    axes order: the values go through [a[slices]] and [transpose]
    unchanged. *)
Lemma grid_block_defaults (o : Options) (items : dict) name f vals axs :
  _slices o = [] → _axesOrder o = [] →
  dict_get name items = Some (ERecord f) →
  values f = Some vals → axes f = Some axs →
  axs ≠ [] → length axs = Np.ndim vals →
  ∃ vals',
    Np.shape vals' = Np.shape vals
    ∧ (∀ idx, length idx = Np.ndim vals →
         Np.at_index vals' idx = Np.at_index vals idx)
    ∧ grid_block o name items
      = if _squeeze o then
          squeeze_loop (length axs) 0 axs (Np.shape vals') name
            (dict_set name
               (ERecord (mkField (Some (Np.squeeze vals')) (Some axs))) items)
        else inr (dict_set name (ERecord (mkField (Some vals') (Some axs))) items).
Proof.
  intros Hsl Hao Hz Hzv Hza Hne Hlen.
  unfold grid_block. rewrite Hsl, Hao.
  rewrite (get_values_of _ _ _ _ Hz Hzv), (get_axes_of _ _ _ _ Hz Hza).
  simpl. rewrite index_list_full by (done || lia). simpl.
  rewrite (set_values_of _ _ _ _ Hz). simpl.
  rewrite used_loop_none, fill_loop_none by (rewrite length_seq; lia).
  rewrite take_ge by (rewrite length_seq; lia). simpl.
  set (v1 := Np.mkArray _ _).
  destruct (transpose_identity v1) as (v2 & Ht & Hsh & Hel).
  replace (length axs) with (Np.ndim v1) by (by rewrite Hlen).
  rewrite Ht. simpl.
  erewrite set_values_of by (rewrite dict_get_set, String.eqb_refl; done).
  simpl. rewrite dict_set_set.
  replace (Np.ndim v1) with (length axs) by (by rewrite Hlen).
  rewrite (pick_names_seq axs 0 (length axs)) by done. simpl.
  erewrite set_axes_of by (rewrite dict_get_set, String.eqb_refl; done).
  simpl. rewrite dict_set_set.
  exists v2. split; [by rewrite Hsh|]. split.
  { intros idx Hidx. rewrite Hel by exact Hidx.
    subst v1. simpl. by rewrite route_keep. }
  destruct (_squeeze o); [|done].
  erewrite set_values_of by (rewrite dict_get_set, String.eqb_refl; done).
  simpl. by rewrite dict_set_set.
Qed.

Lemma processData_res_grid (nd : DNode) input g name :
  getInputData nd = inr (Some input) →
  _dataName (Engine._opts nd) = Some name →
  Engine._grid nd = true →
  hasattr_get_grid grid_has_get_grid input = true →
  get_grid input (ArgName name) = inr g →
  processData_res nd
  = (items ← grid_block (Engine._opts nd) name (obj_items g);
     inr (mkObj (obj_kind g) items)).
Proof.
  intros Hin Hname Hgrid Hhas Hgg. unfold DataSelector.processData_res.
  rewrite Hin. simpl. rewrite Hname, Hhas, Hgrid. simpl. by rewrite Hgg.
Qed.

(** X23. With no slices and no axes order, [processData] hands the
    re-gridded data on with the selected field unchanged: the same axes,
    values of the same shape with the same elements, and every other entry
    as it was.  This holds with [squeeze] off, and with [squeeze] on when
    no axis of the field has fewer than two points. *)
Theorem processData_defaults (nd : DNode) input g name f vals axs :
  getInputData nd = inr (Some input) →
  _dataName (Engine._opts nd) = Some name →
  _slices (Engine._opts nd) = [] →
  _axesOrder (Engine._opts nd) = [] →
  Engine._grid nd = true →
  hasattr_get_grid grid_has_get_grid input = true →
  get_grid input (ArgName name) = inr g →
  dict_get name (obj_items g) = Some (ERecord f) →
  values f = Some vals → axes f = Some axs →
  axs ≠ [] → length axs = Np.ndim vals →
  (_squeeze (Engine._opts nd) = true → ∀ d, d ∈ Np.shape vals → 2 ≤ d) →
  ∃ vals',
    processData_res nd
    = inr (mkObj (obj_kind g)
             (dict_set name (ERecord (mkField (Some vals') (Some axs)))
                (obj_items g)))
    ∧ Np.shape vals' = Np.shape vals
    ∧ ∀ idx, length idx = Np.ndim vals →
        Np.at_index vals' idx = Np.at_index vals idx.
Proof.
  intros Hin Hname Hsl Hao Hgrid Hhas Hgg Hz Hzv Hza Hne Hlen Hsq.
  rewrite (processData_res_grid nd input g name) by done.
  destruct (grid_block_defaults (Engine._opts nd) (obj_items g) name f vals axs)
    as (v & Hsh & Hel & ->); try done.
  destruct (_squeeze (Engine._opts nd)) eqn:Esq.
  - specialize (Hsq eq_refl).
    rewrite squeeze_loop_none; simpl.
    + exists (Np.squeeze v). split; [done|]. unfold Np.squeeze. simpl.
      rewrite Hsh. split; [by apply filter_ne1_same|].
      intros idx Hidx. rewrite unsqueeze_same; [by apply Hel| |done].
      intros d Hd. apply Hsq in Hd. lia.
    + intros j' d _ Hd. apply Hsq. rewrite <-Hsh. by eapply list_elem_of_lookup_2.
    + rewrite Hsh. unfold Np.ndim in Hlen. lia.
  - simpl. by exists v.
Qed.

(** X24. Squeezing a field of which exactly one axis has a single point,
    with no slices and no axes order: whatever the number of axes and the
    position of that axis, the result no longer lists the axis among the
    axes of the field, no longer has the entry of the axis, keeps every
    other entry, and the values have lost that one dimension. *)
Theorem processData_squeeze_one_axis (nd : DNode) input g name f vals axs
    i a e :
  getInputData nd = inr (Some input) →
  _dataName (Engine._opts nd) = Some name →
  _slices (Engine._opts nd) = [] →
  _axesOrder (Engine._opts nd) = [] →
  _squeeze (Engine._opts nd) = true →
  Engine._grid nd = true →
  hasattr_get_grid grid_has_get_grid input = true →
  get_grid input (ArgName name) = inr g →
  dict_get name (obj_items g) = Some (ERecord f) →
  values f = Some vals → axes f = Some axs →
  length axs = Np.ndim vals →
  axs !! i = Some a →
  Np.shape vals !! i = Some 1 →
  (∀ j d, j ≠ i → Np.shape vals !! j = Some d → 2 ≤ d) →
  dict_get a (obj_items g) = Some e →
  a ≠ name →
  NoDup (obj_items g).*1 →
  ∃ items' vals',
    processData_res nd = inr (mkObj (obj_kind g) items')
    ∧ get_axes items' name = inr (delete i axs)
    ∧ dict_get a items' = None
    ∧ (∀ k, k ≠ a → k ≠ name → dict_get k items' = dict_get k (obj_items g))
    ∧ get_values items' name = inr vals'
    ∧ Np.shape vals' = delete i (Np.shape vals).
Proof.
  intros Hin Hname Hsl Hao Hsq Hgrid Hhas Hgg Hz Hzv Hza Hlen Ha Hone Hall
    Hae Hne Hnd.
  rewrite (processData_res_grid nd input g name) by done.
  assert (axs ≠ []) as Hnil by (intros ->; done).
  destruct (grid_block_defaults (Engine._opts nd) (obj_items g) name f vals axs)
    as (v & Hsh & Hel & ->); try done.
  rewrite Hsq.
  set (D := dict_set name _ (obj_items g)).
  assert (dict_get name D = Some (ERecord (mkField (Some (Np.squeeze v)) (Some axs))))
    as HDn by (subst D; by rewrite dict_get_set, String.eqb_refl).
  assert (dict_get a D = Some e) as HDa.
  { subst D. rewrite dict_get_set. by destruct (String.eqb_spec a name). }
  rewrite (squeeze_loop_one (length axs) 0 i axs (Np.shape v) name D a 1
             (mkField (Some (Np.squeeze v)) (Some axs)) e);
    [|lia|apply lookup_lt_Some in Ha; lia|done|by rewrite Hsh|lia
     |rewrite Hsh; exact Hall|rewrite Hsh; exact Hlen|done|done|done].
  simpl. subst D. rewrite dict_set_set.
  set (D' := dict_set name _ (obj_items g)).
  destruct (dict_del_spec a e D') as (d' & Hdel & Hother & Hgone).
  { subst D'. rewrite dict_get_set. by destruct (String.eqb_spec a name). }
  rewrite Hdel. simpl. exists d', (Np.squeeze v).
  split; [done|].
  assert (dict_get name d'
          = Some (ERecord (mkField (Some (Np.squeeze v)) (Some (delete i axs)))))
    as Hn'.
  { rewrite Hother by done. subst D'. by rewrite dict_get_set, String.eqb_refl. }
  split; [by apply (get_axes_of _ _ _ _ Hn')|].
  split.
  { apply Hgone. subst D'. by erewrite dict_set_keys. }
  split.
  { intros k Hka Hkn. rewrite Hother by done. subst D'.
    rewrite dict_get_set. by destruct (String.eqb_spec k name). }
  split; [by apply (get_values_of _ _ _ _ Hn')|].
  unfold Np.squeeze. simpl. rewrite Hsh. by apply filter_ne1_delete.
Qed.

Lemma squeeze_loop_step fuel i (L : list string) (sh : list nat) name data n d :
  L !! i = Some n → sh !! i = Some d →
  squeeze_loop (S fuel) i L sh name data
  = if (d <? 2)%nat then
      data ← set_axes data name (delete i L);
      data ← dict_del n data;
      squeeze_loop fuel (S i) (delete i L) sh name data
    else squeeze_loop fuel (S i) L sh name data.
Proof. intros H1 H2. simpl. by rewrite H1, H2. Qed.

(** X25. The loop of the squeeze block deletes from the list it is
    enumerating.  When the first two axes of the selected field both have
    a single point, the second one is skipped and the third is deleted in
    its place: the result still lists the second axis although its
    dimension is gone from the values, and the third axis has lost its
    name and its entry although its dimension is still there. *)
Theorem processData_squeeze_two_leading_axes (nd : DNode) input g name f vals
    a b c rest dc shrest ea ec :
  getInputData nd = inr (Some input) →
  _dataName (Engine._opts nd) = Some name →
  _slices (Engine._opts nd) = [] →
  _axesOrder (Engine._opts nd) = [] →
  _squeeze (Engine._opts nd) = true →
  Engine._grid nd = true →
  hasattr_get_grid grid_has_get_grid input = true →
  get_grid input (ArgName name) = inr g →
  dict_get name (obj_items g) = Some (ERecord f) →
  values f = Some vals →
  axes f = Some (a :: b :: c :: rest) →
  Np.shape vals = 1 :: 1 :: dc :: shrest →
  length rest = length shrest →
  (∀ d, d ∈ dc :: shrest → 2 ≤ d) →
  dict_get a (obj_items g) = Some ea →
  dict_get c (obj_items g) = Some ec →
  a ≠ name → c ≠ name → a ≠ c →
  NoDup (obj_items g).*1 →
  ∃ items' vals',
    processData_res nd = inr (mkObj (obj_kind g) items')
    ∧ get_axes items' name = inr (b :: rest)
    ∧ dict_get a items' = None
    ∧ dict_get c items' = None
    ∧ (∀ k, k ≠ a → k ≠ c → k ≠ name →
         dict_get k items' = dict_get k (obj_items g))
    ∧ get_values items' name = inr vals'
    ∧ Np.shape vals' = dc :: shrest.
Proof.
  intros Hin Hname Hsl Hao Hsq Hgrid Hhas Hgg Hz Hzv Hza Hshape Hlen Hall
    Hea Hec Han Hcn Hac Hnd.
  rewrite (processData_res_grid nd input g name) by done.
  destruct (grid_block_defaults (Engine._opts nd) (obj_items g) name f vals
              (a :: b :: c :: rest)) as (v & Hsh & Hel & ->); try done.
  { unfold Np.ndim. rewrite Hshape. simpl. by rewrite Hlen. }
  rewrite Hsq, Hsh, Hshape.
  set (sh := 1 :: 1 :: dc :: shrest).
  set (D0 := dict_set name _ (obj_items g)).
  change (length (a :: b :: c :: rest)) with (S (S (S (length rest)))).
  rewrite (squeeze_loop_step _ 0 _ sh name D0 a 1) by done.
  change (1 <? 2) with true. cbv iota.
  erewrite set_axes_of by (subst D0; rewrite dict_get_set, String.eqb_refl; done).
  rewrite ret_bind. subst D0. rewrite dict_set_set.
  set (D1 := dict_set name _ (obj_items g)).
  assert (NoDup D1.*1) as Hnd1 by (subst D1; by erewrite dict_set_keys).
  destruct (dict_del_spec a ea D1) as (d1 & Hdel1 & Hother1 & Hgone1).
  { subst D1. rewrite dict_get_set. by destruct (String.eqb_spec a name). }
  rewrite Hdel1, ret_bind.
  change (delete 0 (a :: b :: c :: rest)) with (b :: c :: rest).
  rewrite (squeeze_loop_step _ 1 _ sh name d1 c 1) by done.
  change (1 <? 2) with true. cbv iota.
  assert (dict_get name d1
          = Some (ERecord (mkField (Some (Np.squeeze v)) (Some (b :: c :: rest)))))
    as Hn1.
  { rewrite Hother1 by done. subst D1. by rewrite dict_get_set, String.eqb_refl. }
  rewrite (set_axes_of _ _ _ _ Hn1), ret_bind.
  change (delete 1 (b :: c :: rest)) with (b :: rest).
  set (D2 := dict_set name _ d1).
  destruct (dict_del_spec c ec D2) as (d2 & Hdel2 & Hother2 & Hgone2).
  { subst D2. rewrite dict_get_set. destruct (String.eqb_spec c name); [done|].
    rewrite Hother1 by done. subst D1. rewrite dict_get_set.
    by destruct (String.eqb_spec c name). }
  rewrite Hdel2, ret_bind.
  rewrite squeeze_loop_none.
  2: { intros j' d Hj' Hd. destruct j' as [|[|j']]; [lia..|].
       apply Hall. subst sh. simpl in Hd. by eapply list_elem_of_lookup_2. }
  2: { subst sh. simpl. lia. }
  rewrite ret_bind. exists d2, (Np.squeeze v). split; [done|].
  assert (dict_get name d2
          = Some (ERecord (mkField (Some (Np.squeeze v)) (Some (b :: rest)))))
    as Hn2.
  { rewrite Hother2 by done. subst D2. by rewrite dict_get_set, String.eqb_refl. }
  assert (NoDup d1.*1) as Hndd1.
  { clear -Hdel1 Hnd1. revert d1 Hdel1 Hnd1.
    induction D1 as [|[k1 v1] r IH]; intros d1 Hdel Hnd; simpl in *; [done|].
    apply NoDup_cons in Hnd as [Hk Hr].
    destruct (String.eqb a k1); [by inversion Hdel; subst|].
    destruct (dict_del a r) as [e|r'] eqn:E; [done|]. inversion Hdel; subst.
    simpl. apply NoDup_cons. split; [|by apply IH].
    intros Hin. apply Hk. clear -E Hin. revert r' E Hin.
    induction r as [|[k2 v2] r IH]; intros r' E Hin; simpl in *; [done|].
    destruct (String.eqb a k2); [inversion E; subst; by right|].
    destruct (dict_del a r) as [e|r''] eqn:E'; [done|]. inversion E; subst.
    simpl in Hin. apply elem_of_cons in Hin as [->|Hin]; [left|].
    right. by eapply IH. }
  split; [by apply (get_axes_of _ _ _ _ Hn2)|].
  split.
  { rewrite Hother2 by done. subst D2. rewrite dict_get_set.
    destruct (String.eqb_spec a name); [done|]. by apply Hgone1. }
  split.
  { apply Hgone2. subst D2. by erewrite dict_set_keys. }
  split.
  { intros k Hka Hkc Hkn. rewrite Hother2 by done. subst D2.
    rewrite dict_get_set. destruct (String.eqb_spec k name); [done|].
    rewrite Hother1 by done. subst D1. rewrite dict_get_set.
    by destruct (String.eqb_spec k name). }
  split; [by apply (get_values_of _ _ _ _ Hn2)|].
  unfold Np.squeeze. simpl. rewrite Hsh, Hshape.
  rewrite !filter_cons. rewrite !decide_False by (by intros ?).
  assert (2 ≤ dc) by (apply Hall; left). rewrite decide_True by lia.
  f_equal. apply filter_ne1_same. intros d Hd. apply Hall. by right.
Qed.

(** ** Reordering axes, and integer selectors *)

Lemma resolve_cons_slice sl r d sh' :
  Np.resolve (Np.SelSlice sl :: r) (d :: sh')
  = match Np.slice_indices sl d with
    | None => inl ValueError
    | Some (start, step, n) =>
        match Np.resolve r sh' with
        | inl e => inl e
        | inr l => inr (Np.Keep start step n :: l)
        end
    end.
Proof. reflexivity. Qed.

Lemma resolve_cons_int i r d sh' :
  Np.resolve (Np.SelInt i :: r) (d :: sh')
  = if ((- Z.of_nat d <=? i) && (i <? Z.of_nat d))%Z then
      match Np.resolve r sh' with
      | inl e => inl e
      | inr l => inr (Np.Fix (Z.to_nat (i mod Z.of_nat d)) :: l)
      end
    else inl IndexError.
Proof. reflexivity. Qed.

Lemma in_range_true (k : Z) (d : nat) :
  (- Z.of_nat d ≤ k < Z.of_nat d)%Z →
  ((- Z.of_nat d <=? k) && (k <? Z.of_nat d))%Z = true.
Proof.
  intros [H1 H2]. apply andb_true_intro. split.
  - by apply Z.leb_le.
  - by apply Z.ltb_lt.
Qed.

Lemma in_range_false (k : Z) (d : nat) :
  (k < - Z.of_nat d ∨ Z.of_nat d ≤ k)%Z →
  ((- Z.of_nat d <=? k) && (k <? Z.of_nat d))%Z = false.
Proof.
  intros H. apply andb_false_iff. destruct H as [H|H].
  - left. by apply Z.leb_gt.
  - right. by apply Z.ltb_ge.
Qed.

(** X26. [axesOrder] on a field over two axes: asking for the second axis
    at position 0, or for the first at position 1, hands the field on
    transposed, with the axes listed in the new order and every other
    entry as it was. *)
Theorem processData_axesOrder_swap (nd : DNode) input g name f vals x y nx ny
    n p :
  getInputData nd = inr (Some input) →
  _dataName (Engine._opts nd) = Some name →
  _slices (Engine._opts nd) = [] →
  _axesOrder (Engine._opts nd) = [(n, p)] →
  _squeeze (Engine._opts nd) = false →
  Engine._grid nd = true →
  hasattr_get_grid grid_has_get_grid input = true →
  get_grid input (ArgName name) = inr g →
  dict_get name (obj_items g) = Some (ERecord f) →
  values f = Some vals → axes f = Some [x; y] →
  Np.shape vals = [nx; ny] →
  x ≠ y →
  (n = y ∧ p = 0%Z) ∨ (n = x ∧ p = 1%Z) →
  ∃ vals',
    processData_res nd
    = inr (mkObj (obj_kind g)
             (dict_set name (ERecord (mkField (Some vals') (Some [y; x])))
                (obj_items g)))
    ∧ Np.shape vals' = [ny; nx]
    ∧ ∀ i j, Np.at_index vals' [j; i] = Np.at_index vals [i; j].
Proof.
  intros Hin Hname Hsl Hao Hsq Hgrid Hhas Hgg Hz Hzv Hza Hsh Hxy Hcase.
  rewrite (processData_res_grid nd input g name) by done.
  assert (String.eqb y x = false) as Eyx by (by apply String.eqb_neq).
  unfold grid_block. rewrite Hsl, Hao, Hsq.
  rewrite (get_values_of _ _ _ _ Hz Hzv), (get_axes_of _ _ _ _ Hz Hza).
  simpl slices_loop. rewrite !ret_bind. simpl fst; simpl snd.
  assert (length [x; y] ≤ Np.ndim vals) as Hle
    by (unfold Np.ndim; rewrite Hsh; simpl; lia).
  pose proof (index_list_full [x; y] vals ltac:(done) Hle) as Hil.
  simpl map in Hil. rewrite Hil. clear Hil.
  rewrite ret_bind, (set_values_of _ _ _ _ Hz), ret_bind. rewrite Hsh.
  set (v1 := Np.mkArray [nx; ny] _).
  assert (order_loop [(n, p)] [x; y] (map (λ _, None) [x; y])
          ≫= (λ neworder,
                fill_loop neworder (used_loop neworder (seq 0 (length [x; y]))))
          = inr [1; 0]) as Hord.
  { destruct Hcase as [[-> ->]|[-> ->]]; simpl.
    - by rewrite Eyx, String.eqb_refl.
    - by rewrite String.eqb_refl. }
  destruct (order_loop [(n, p)] [x; y] (map (λ _, None) [x; y]))
    as [e|neworder]; [done|].
  rewrite ret_bind in Hord. rewrite ret_bind, Hord, ret_bind.
  assert (Np.transpose [1; 0] v1
          = inr (Np.mkArray [ny; nx]
                   (λ idx, Np.at_index v1 [nth 1 idx 0; nth 0 idx 0]))) as ->.
  { unfold Np.transpose.
    assert (Np.no_dup_nat [1; 0] = true) as ->; [|reflexivity].
    apply bool_decide_eq_true_2. apply (bool_decide_unpack _). vm_compute.
    exact I. }
  rewrite ret_bind.
  erewrite set_values_of by (rewrite dict_get_set, String.eqb_refl; done).
  rewrite ret_bind, dict_set_set. simpl pick_names. rewrite ret_bind.
  erewrite set_axes_of by (rewrite dict_get_set, String.eqb_refl; done).
  rewrite ret_bind, dict_set_set. simpl.
  eexists. split; [done|]. split; [done|].
  intros i j. simpl. subst v1. simpl. f_equal. f_equal; [lia|f_equal; lia].
Qed.

(** X27. An integer in [slices] is not a way to pick one index.  For a
    field over two axes and an integer given for the second: the values of
    the field lose the dimension while the list of axes keeps its length,
    so [transpose] raises [ValueError] (with [squeeze] on or off).  An
    integer outside the axis raises [IndexError] before that. *)
Theorem processData_integer_index_raises (nd : DNode) input g name f fy vals
    yvals x y nx ny k :
  getInputData nd = inr (Some input) →
  _dataName (Engine._opts nd) = Some name →
  _slices (Engine._opts nd) = [(y, Np.SelInt k)] →
  _axesOrder (Engine._opts nd) = [] →
  Engine._grid nd = true →
  hasattr_get_grid grid_has_get_grid input = true →
  get_grid input (ArgName name) = inr g →
  dict_get name (obj_items g) = Some (ERecord f) →
  values f = Some vals → axes f = Some [x; y] →
  Np.shape vals = [nx; ny] →
  dict_get y (obj_items g) = Some (ERecord fy) →
  values fy = Some yvals → Np.shape yvals = [ny] →
  x ≠ y → name ≠ y →
  ((- Z.of_nat ny ≤ k < Z.of_nat ny)%Z → processData_res nd = inl ValueError)
  ∧ ((k < - Z.of_nat ny ∨ Z.of_nat ny ≤ k)%Z →
     processData_res nd = inl IndexError).
Proof.
  intros Hin Hname Hsl Hao Hgrid Hhas Hgg Hz Hzv Hza Hsh Hy Hyv Hysh Hxy Hny.
  rewrite (processData_res_grid nd input g name) by done.
  assert (String.eqb y x = false) as Eyx by (by apply String.eqb_neq).
  assert (String.eqb name y = false) as Eny by (by apply String.eqb_neq).
  unfold grid_block. rewrite Hsl, Hao.
  rewrite (get_values_of _ _ _ _ Hz Hzv), (get_axes_of _ _ _ _ Hz Hza).
  rewrite !ret_bind.
  assert (list_index y [x; y] = inr 1) as Hidx.
  { simpl. by rewrite Eyx, String.eqb_refl. }
  unfold slices_loop. rewrite Hidx, ret_bind.
  rewrite (get_values_of _ _ _ _ Hy Hyv), ret_bind.
  split; intros Hk; unfold Np.index_tuple at 1; rewrite Hysh, resolve_cons_int.
  - rewrite (in_range_true k ny Hk). simpl Np.resolve.
    cbv beta iota.
    rewrite ret_bind, (set_values_of _ _ _ _ Hy), !ret_bind.
    cbn [fst snd].
    unfold Np.index_list.
    change (forallb Np.is_int
              (<[1:=Np.SelInt k]> (map (λ _, Np.SelSlice Np.full_slice) [x; y])))
      with false.
    cbv iota. unfold Np.index_tuple. rewrite Hsh.
    change (<[1:=Np.SelInt k]> (map (λ _, Np.SelSlice Np.full_slice) [x; y]))
      with [Np.SelSlice Np.full_slice; Np.SelInt k].
    rewrite resolve_cons_slice, full_slice_indices, resolve_cons_int.
    rewrite (in_range_true k ny Hk). simpl Np.resolve. cbv beta iota.
    rewrite ret_bind.
    erewrite set_values_of by (rewrite dict_get_set, Eny; exact Hz).
    rewrite ret_bind. simpl order_loop. rewrite !ret_bind.
    simpl used_loop. simpl fill_loop. rewrite ret_bind.
    reflexivity.
  - by rewrite (in_range_false k ny Hk).
Qed.

(** ** Slicing one of two axes to a single index, and squeezing *)

Lemma slices_loop_cons n s r ax slices (d : dict) :
  slices_loop ((n, s) :: r) ax slices d
  = (idx ← list_index n ax;
     old ← get_values d n;
     new ← Np.index_tuple [s] old;
     d' ← set_values d n new;
     slices_loop r ax (<[idx := s]> slices) d').
Proof. reflexivity. Qed.

Lemma slices_loop_step n sl r ax slices (d : dict) idx fa avals da st sp cnt :
  list_index n ax = inr idx →
  dict_get n d = Some (ERecord fa) →
  values fa = Some avals → Np.shape avals = [da] →
  Np.slice_indices sl da = Some (st, sp, cnt) →
  ∃ new,
    slices_loop ((n, Np.SelSlice sl) :: r) ax slices d
    = slices_loop r ax (<[idx := Np.SelSlice sl]> slices)
        (dict_set n (ERecord (mkField (Some new) (axes fa))) d).
Proof.
  intros Hidx Hget Hv Hsh Hsl. rewrite slices_loop_cons, Hidx, ret_bind.
  rewrite (get_values_of _ _ _ _ Hget Hv), ret_bind.
  unfold Np.index_tuple. rewrite Hsh, resolve_cons_slice, Hsl.
  change (Np.resolve [] []) with (@inr exn _ (@nil Np.axsel)). cbv beta iota.
  rewrite ret_bind, (set_values_of _ _ _ _ Hget), ret_bind. by eexists.
Qed.

Lemma order_of_two x y (ao : list (string * Z)) :
  x ≠ y → order_within [x; y] ao →
  ∃ no,
    (order_loop ao [x; y] (map (λ _, None) [x; y])
     ≫= λ neworder,
          fill_loop neworder (used_loop neworder (seq 0 (length [x; y]))))
    = inr no
    ∧ (no = [0; 1] ∨ no = [1; 0]).
Proof.
  intros Hxy [Hnd Hall].
  assert (String.eqb x y = false) as Exy by (by apply String.eqb_neq).
  assert (String.eqb y x = false) as Eyx by (by apply String.eqb_neq).
  assert (∀ n p, (n, p) ∈ ao →
            (n = x ∨ n = y) ∧ (p = -2 ∨ p = -1 ∨ p = 0 ∨ p = 1)%Z) as Hent.
  { intros n p Hin. destruct (Hall n p Hin) as [Hn Hp]. split.
    - apply elem_of_cons in Hn as [?|Hn]; [by left|].
      apply list_elem_of_singleton in Hn. by right.
    - simpl in Hp. lia. }
  clear Hall.
  destruct ao as [|[n1 p1] [|[n2 p2] [|[n3 p3] r]]].
  - exists [0; 1]. split; [reflexivity|by left].
  - destruct (Hent n1 p1 ltac:(left)) as [[-> | ->] [->|[->|[->| ->]]]];
      simpl; rewrite ?String.eqb_refl, ?Exy, ?Eyx; simpl;
      eexists; (split; [reflexivity|]); first [by left|by right].
  - assert (n1 ≠ n2) as Hne.
    { apply NoDup_cons in Hnd as [H1 _]. intros ->. apply H1. left. }
    destruct (Hent n1 p1 ltac:(left)) as [[-> | ->] [->|[->|[->| ->]]]];
      destruct (Hent n2 p2 ltac:(right; left)) as [[-> | ->] [->|[->|[->| ->]]]];
      try done;
      simpl; rewrite ?String.eqb_refl, ?Exy, ?Eyx; simpl;
      eexists; (split; [reflexivity|]); first [by left|by right].
  - exfalso. simpl in Hnd.
    apply NoDup_cons in Hnd as [H1 Hnd]. apply NoDup_cons in Hnd as [H2 _].
    destruct (Hent n1 p1 ltac:(left)) as [[-> | ->] _];
      destruct (Hent n2 p2 ltac:(right; left)) as [[-> | ->] _];
      destruct (Hent n3 p3 ltac:(right; right; left)) as [[-> | ->] _];
      first [apply H1; left | apply H1; right; left | apply H2; left].
Qed.

Lemma squeeze_after_order (d : dict) name x y v1 mx no f1 ey :
  Np.shape v1 = [mx; 1] →
  no = [0; 1] ∨ no = [1; 0] →
  dict_get name d = Some (ERecord f1) →
  dict_get y d = Some ey →
  name ≠ y → NoDup d.*1 → 2 ≤ mx →
  ∃ items' vals',
    (vals ← Np.transpose no v1;
     data ← set_values d name vals;
     names ← pick_names [x; y] no;
     data ← set_axes data name names;
     data ← set_values data name (Np.squeeze vals);
     squeeze_loop (length names) 0 names (Np.shape vals) name data)
    = inr items'
    ∧ get_axes items' name = inr [x]
    ∧ dict_get y items' = None
    ∧ (∀ k, k ≠ y → k ≠ name → dict_get k items' = dict_get k d)
    ∧ get_values items' name = inr vals'
    ∧ Np.shape vals' = [mx].
Proof.
  intros Hsh Hno Hname Hy Hny Hnd Hmx.
  assert (String.eqb y name = false) as Eyn by (by apply String.eqb_neq).
  assert (∃ v2 names i,
            Np.transpose no v1 = inr v2
            ∧ pick_names [x; y] no = inr names
            ∧ names !! i = Some y
            ∧ delete i names = [x]
            ∧ Np.shape v2 !! i = Some 1
            ∧ (∀ j d', j ≠ i → Np.shape v2 !! j = Some d' → 2 ≤ d')
            ∧ length names = length (Np.shape v2)
            ∧ filter (λ d, d ≠ 1) (Np.shape v2) = [mx])
    as (v2 & names & i & Ht & Hp & Hi & Hdel & Hone & Hall & Hlen & Hfil).
  { assert (filter (λ d, d ≠ 1) [mx; 1] = [mx]
            ∧ filter (λ d, d ≠ 1) [1; mx] = [mx]) as [Hf1 Hf2].
    { rewrite !filter_cons, filter_nil.
      rewrite !(decide_True (P := mx ≠ 1)) by lia.
      by rewrite !(decide_False (P := 1 ≠ 1)) by (by intros ?). }
    destruct Hno as [-> | ->].
    - eexists _, [x; y], 1. split.
      { unfold Np.transpose. unfold Np.ndim. rewrite Hsh.
        assert (Np.no_dup_nat [0; 1] = true) as ->; [|reflexivity].
        apply bool_decide_eq_true_2. apply (bool_decide_unpack _). vm_compute.
        exact I. }
      simpl. rewrite ?Hsh. simpl. repeat split; try done.
      intros [|[|j]] d' Hj Hd'; simpl in Hd'; inversion Hd'; subst; (lia || done).
    - eexists _, [y; x], 0. split.
      { unfold Np.transpose. unfold Np.ndim. rewrite Hsh.
        assert (Np.no_dup_nat [1; 0] = true) as ->; [|reflexivity].
        apply bool_decide_eq_true_2. apply (bool_decide_unpack _). vm_compute.
        exact I. }
      simpl. rewrite ?Hsh. simpl. repeat split; try done.
      intros [|[|j]] d' Hj Hd'; simpl in Hd'; inversion Hd'; subst; (lia || done). }
  rewrite Ht, ret_bind, (set_values_of _ _ _ _ Hname), ret_bind, Hp, ret_bind.
  erewrite set_axes_of by (rewrite dict_get_set, String.eqb_refl; done).
  rewrite ret_bind, dict_set_set.
  erewrite set_values_of by (rewrite dict_get_set, String.eqb_refl; done).
  rewrite ret_bind, dict_set_set. cbn [values axes].
  set (D := dict_set name _ d).
  assert (dict_get name D
          = Some (ERecord (mkField (Some (Np.squeeze v2)) (Some names)))) as HDn
    by (subst D; by rewrite dict_get_set, String.eqb_refl).
  assert (dict_get y D = Some ey) as HDy
    by (subst D; by rewrite dict_get_set, Eyn).
  rewrite (squeeze_loop_one (length names) 0 i names (Np.shape v2) name D y 1
             (mkField (Some (Np.squeeze v2)) (Some names)) ey);
    [|lia|apply lookup_lt_Some in Hi; lia|done|done|lia|done|done|done|done
     |by intros ->].
  cbn [values]. rewrite Hdel. subst D. rewrite dict_set_set.
  set (D' := dict_set name _ d).
  destruct (dict_del_spec y ey D') as (d' & Hdl & Hother & Hgone).
  { subst D'. by rewrite dict_get_set, Eyn. }
  exists d', (Np.squeeze v2). split; [done|].
  assert (dict_get name d'
          = Some (ERecord (mkField (Some (Np.squeeze v2)) (Some [x])))) as Hn'.
  { rewrite Hother by done. subst D'. by rewrite dict_get_set, String.eqb_refl. }
  split; [by apply (get_axes_of _ _ _ _ Hn')|].
  split; [apply Hgone; subst D'; by erewrite dict_set_keys|].
  split.
  { intros k Hky Hkn. rewrite Hother by done. subst D'. rewrite dict_get_set.
    by destruct (String.eqb_spec k name). }
  split; [by apply (get_values_of _ _ _ _ Hn')|].
  done.
Qed.

Lemma grid_block_slice_xy (o : Options) (items : dict) name x y xsel sly fz fy
    vals yvals nx ny mx start step :
  slices_xy x y xsel sly (_slices o) →
  order_within [x; y] (_axesOrder o) →
  _squeeze o = true →
  dict_get name items = Some (ERecord fz) →
  values fz = Some vals → axes fz = Some [x; y] →
  Np.shape vals = [nx; ny] →
  dict_get y items = Some (ERecord fy) →
  values fy = Some yvals → Np.shape yvals = [ny] →
  Np.slice_indices sly ny = Some (start, step, 1) →
  match xsel with
  | None => mx = nx
  | Some slx =>
      ∃ fx xvals sx stx,
        dict_get x items = Some (ERecord fx)
        ∧ values fx = Some xvals ∧ Np.shape xvals = [nx]
        ∧ Np.slice_indices slx nx = Some (sx, stx, mx)
  end →
  x ≠ y → name ≠ y → NoDup items.*1 →
  2 ≤ mx →
  ∃ items' vals',
    grid_block o name items = inr items'
    ∧ get_axes items' name = inr [x]
    ∧ dict_get y items' = None
    ∧ get_values items' name = inr vals'
    ∧ Np.shape vals' = [mx].
Proof.
  intros Hsl Hao Hsq Hz Hzv Hza Hsh Hy Hyv Hysh Hidx Hx Hxy Hny Hnd Hmx.
  assert (String.eqb x y = false) as Exy by (by apply String.eqb_neq).
  assert (String.eqb y x = false) as Eyx by (by apply String.eqb_neq).
  assert (String.eqb name y = false) as Eny by (by apply String.eqb_neq).
  assert (String.eqb y name = false) as Eyn by (by apply String.eqb_neq).
  assert (list_index x [x; y] = inr 0) as Hix
    by (simpl; by rewrite String.eqb_refl).
  assert (list_index y [x; y] = inr 1) as Hiy
    by (simpl; by rewrite Eyx, String.eqb_refl).
  assert (∃ slxe ax bx d',
            slices_loop (_slices o) [x; y]
              (map (λ _, Np.SelSlice Np.full_slice) [x; y]) items
            = inr ([Np.SelSlice slxe; Np.SelSlice sly], d')
            ∧ Np.slice_indices slxe nx = Some (ax, bx, mx)
            ∧ dict_get name d' = Some (ERecord fz)
            ∧ (∃ ey, dict_get y d' = Some ey)
            ∧ d'.*1 = items.*1)
    as (slxe & ax & bx & d' & Hloop & Hslx & Hz' & [ey Hy'] & Hkeys).
  { destruct xsel as [slx|].
    - destruct Hx as (fx & xvals & sx & stx & Hgx & Hxv & Hxsh & Hxi).
      assert (name ≠ x) as Hnx.
      { intros ->. rewrite Hz in Hgx. inversion Hgx; subst fx.
        rewrite Hzv in Hxv. inversion Hxv; subst xvals.
        rewrite Hsh in Hxsh. discriminate. }
      assert (String.eqb name x = false) as Enx by (by apply String.eqb_neq).
      exists slx, sx, stx.
      destruct Hsl as [-> | ->].
      + destruct (slices_loop_step x slx [(y, Np.SelSlice sly)] [x; y]
                    (map (λ _, Np.SelSlice Np.full_slice) [x; y]) items 0
                    fx xvals nx sx stx mx Hix Hgx Hxv Hxsh Hxi) as [newx ->].
        set (d1 := dict_set x _ items).
        assert (dict_get y d1 = Some (ERecord fy)) as Hy1
          by (subst d1; by rewrite dict_get_set, Eyx).
        destruct (slices_loop_step y sly [] [x; y]
                    (<[0:=Np.SelSlice slx]>
                       (map (λ _, Np.SelSlice Np.full_slice) [x; y])) d1 1
                    fy yvals ny start step 1 Hiy Hy1 Hyv Hysh Hidx) as [newy ->].
        eexists. split; [reflexivity|]. split; [done|].
        split; [subst d1; by rewrite !dict_get_set, Eny, Enx|].
        split; [rewrite dict_get_set, String.eqb_refl; by eexists|].
        subst d1. by rewrite (dict_set_keys _ _ _ _ Hy1), (dict_set_keys _ _ _ _ Hgx).
      + destruct (slices_loop_step y sly [(x, Np.SelSlice slx)] [x; y]
                    (map (λ _, Np.SelSlice Np.full_slice) [x; y]) items 1
                    fy yvals ny start step 1 Hiy Hy Hyv Hysh Hidx) as [newy ->].
        set (d1 := dict_set y _ items).
        assert (dict_get x d1 = Some (ERecord fx)) as Hx1
          by (subst d1; by rewrite dict_get_set, Exy).
        destruct (slices_loop_step x slx [] [x; y]
                    (<[1:=Np.SelSlice sly]>
                       (map (λ _, Np.SelSlice Np.full_slice) [x; y])) d1 0
                    fx xvals nx sx stx mx Hix Hx1 Hxv Hxsh Hxi) as [newx ->].
        eexists. split; [reflexivity|]. split; [done|].
        split; [subst d1; by rewrite !dict_get_set, Enx, Eny|].
        split; [subst d1; rewrite !dict_get_set, Eyx, String.eqb_refl; by eexists|].
        subst d1. by rewrite (dict_set_keys _ _ _ _ Hx1), (dict_set_keys _ _ _ _ Hy).
    - simpl in Hsl. subst mx. rewrite Hsl.
      exists Np.full_slice, 0%Z, 1%Z.
      destruct (slices_loop_step y sly [] [x; y]
                  (map (λ _, Np.SelSlice Np.full_slice) [x; y]) items 1
                  fy yvals ny start step 1 Hiy Hy Hyv Hysh Hidx) as [newy ->].
      eexists. split; [reflexivity|]. split; [apply full_slice_indices|].
      split; [by rewrite dict_get_set, Eny|].
      split; [rewrite dict_get_set, String.eqb_refl; by eexists|].
      by rewrite (dict_set_keys _ _ _ _ Hy). }
  unfold grid_block. rewrite Hsq.
  rewrite (get_values_of _ _ _ _ Hz Hzv), (get_axes_of _ _ _ _ Hz Hza), !ret_bind.
  rewrite Hloop, ret_bind. cbn [fst snd].
  unfold Np.index_list.
  change (forallb Np.is_int [Np.SelSlice slxe; Np.SelSlice sly]) with false.
  cbv iota. unfold Np.index_tuple. rewrite Hsh.
  rewrite resolve_cons_slice, Hslx, resolve_cons_slice, Hidx.
  change (Np.resolve [] []) with (@inr exn _ (@nil Np.axsel)). cbv beta iota.
  rewrite ret_bind, (set_values_of _ _ _ _ Hz'), ret_bind.
  set (v1 := Np.mkArray _ _).
  set (D1 := dict_set name _ d').
  destruct (order_of_two x y (_axesOrder o) Hxy Hao) as (no & Hord & Hno).
  destruct (order_loop (_axesOrder o) [x; y] (map (λ _, None) [x; y]))
    as [e|neworder]; [done|].
  rewrite ret_bind in Hord. rewrite ret_bind, Hord, ret_bind.
  destruct (squeeze_after_order D1 name x y v1 mx no
              (mkField (Some v1) (axes fz)) ey)
    as (items' & vals' & Heq & Hax & Hgone & _ & Hval & Hshape); try done.
  { subst D1. by rewrite dict_get_set, String.eqb_refl. }
  { subst D1. by rewrite dict_get_set, Eyn. }
  { subst D1. by rewrite (dict_set_keys _ _ _ _ Hz'), Hkeys. }
  exists items', vals'. split; [exact Heq|done].
Qed.

(** C9, amended.  The data handed to the node re-grids (by [get_grid]) to a
    dataset in which the selected field has axes [x, y] and values of shape
    [nx, ny]; [slices] restricts [y] to one index by a slice and may
    restrict [x] by a slice as well; [axesOrder] is any dictionary that
    places axes of the field at positions of the list (none, one or both);
    [squeeze] is on.  If at least two points remain along [x], the result
    keeps [x] as the only axis of the field, no longer has an entry [y],
    and the values have one dimension less. *)
Theorem processData_slice_squeeze (nd : DNode) input g name x y xsel sly fz fy
    vals yvals nx ny mx start step :
  getInputData nd = inr (Some input) →
  _dataName (Engine._opts nd) = Some name →
  slices_xy x y xsel sly (_slices (Engine._opts nd)) →
  order_within [x; y] (_axesOrder (Engine._opts nd)) →
  _squeeze (Engine._opts nd) = true →
  Engine._grid nd = true →
  hasattr_get_grid grid_has_get_grid input = true →
  get_grid input (ArgName name) = inr g →
  dict_get name (obj_items g) = Some (ERecord fz) →
  values fz = Some vals → axes fz = Some [x; y] →
  Np.shape vals = [nx; ny] →
  dict_get y (obj_items g) = Some (ERecord fy) →
  values fy = Some yvals → Np.shape yvals = [ny] →
  Np.slice_indices sly ny = Some (start, step, 1) →
  match xsel with
  | None => mx = nx
  | Some slx =>
      ∃ fx xvals sx stx,
        dict_get x (obj_items g) = Some (ERecord fx)
        ∧ values fx = Some xvals ∧ Np.shape xvals = [nx]
        ∧ Np.slice_indices slx nx = Some (sx, stx, mx)
  end →
  x ≠ y → name ≠ y → NoDup (obj_items g).*1 →
  2 ≤ mx →
  ∃ items' vals',
    processData_res nd = inr (mkObj (obj_kind g) items')
    ∧ get_axes items' name = inr [x]
    ∧ dict_get y items' = None
    ∧ get_values items' name = inr vals'
    ∧ Np.ndim vals' = Np.ndim vals - 1
    ∧ Np.shape vals' = [mx].
Proof.
  intros Hin Hname Hsl Hao Hsq Hgrid Hhas Hgg Hz Hzv Hza Hsh Hy Hyv Hysh Hidx
    Hx Hxy Hny Hnd Hmx.
  destruct (grid_block_slice_xy (Engine._opts nd) (obj_items g) name x y xsel sly
              fz fy vals yvals nx ny mx start step)
    as (items' & vals' & Hgb & Ha & Hg & Hv & Hs); try done.
  exists items', vals'. split.
  - rewrite (processData_res_grid nd input g name) by done. by rewrite Hgb.
  - repeat split; try done. unfold Np.ndim. by rewrite Hs, Hsh.
Qed.

End DataSelectorFacts.

Section DataSelectorSamples.

Import DataDicts DataSelector SampleGrid.

Lemma processData_slice_squeeze_witness :
  2 ≤ 2
  ∧ ∃ items' vals',
      DataSelector.processData_res true get_grid
        (selector_node (grid 3 4) pick_x2_y1_swapped)
      = inr (mkObj GridDataDict items')
      ∧ get_axes items' "z" = inr ["x"]
      ∧ dict_get "y" items' = None
      ∧ get_values items' "z" = inr vals'
      ∧ Np.ndim vals' = Np.ndim (arr [3; 4]) - 1
      ∧ Np.shape vals' = [2].
Proof.
  split; [lia|].
  apply (processData_slice_squeeze true get_grid
           (selector_node (grid 3 4) pick_x2_y1_swapped) (grid 3 4) (grid 3 4)
           "z" "x" "y"
           (Some (Np.mkSlice None (Some 2%Z) None))
           (Np.mkSlice (Some 1%Z) (Some 2%Z) None)
           (mkField (Some (arr [3; 4])) (Some ["x"; "y"]))
           (mkField (Some (arr [4])) None)
           (arr [3; 4]) (arr [4]) 3 4 2 1%Z 1%Z);
    try reflexivity; try done.
  - by right.
  - split; [apply (bool_decide_unpack _); vm_compute; exact I|].
    intros n p Hin. apply list_elem_of_singleton in Hin.
    inversion Hin; subst n p. split; [|simpl; lia].
    apply (bool_decide_unpack _). vm_compute. exact I.
  - exists (mkField (Some (arr [3])) None), (arr [3]), 0%Z, 1%Z.
    repeat split; reflexivity.
  - apply (bool_decide_unpack _). vm_compute. exact I.
Defined.

(** C9 as stated fails when [x] has a single point: the loop of the squeeze
    block then drops [x] instead, leaves [y] as the axis of the field, and
    the values lose two dimensions. *)
Lemma processData_slice_squeeze_single_x :
  ∃ items' vals',
    DataSelector.processData_res true get_grid (selector_node (grid 1 4) pick_y1)
    = inr (mkObj GridDataDict items')
    ∧ get_axes items' "z" = inr ["y"]
    ∧ get_axes items' "z" ≠ inr ["x"]
    ∧ dict_get "x" items' = None
    ∧ is_Some (dict_get "y" items')
    ∧ get_values items' "z" = inr vals'
    ∧ Np.ndim vals' = Np.ndim (arr [1; 4]) - 2.
Proof.
  eexists _, _. split; [vm_compute; reflexivity|].
  split; [reflexivity|]. split; [discriminate|]. split; [reflexivity|].
  split; [by eexists|]. split; reflexivity.
Qed.

(** The same happens when [x] has two or more points in the input but a
    slice of [x] leaves one: what counts is the number of points left. *)
Example processData_slice_squeeze_x_sliced_to_one :
  ∃ items',
    DataSelector.processData_res true get_grid
      (selector_node (grid 3 4)
         (mkOptions (Some "z")
            [("x", Np.SelSlice (Np.mkSlice None (Some 1%Z) None));
             ("y", Np.SelSlice (Np.mkSlice (Some 1%Z) (Some 2%Z) None))]
            [] true))
    = inr (mkObj GridDataDict items')
    ∧ get_axes items' "z" = inr ["y"]
    ∧ dict_get "x" items' = None
    ∧ is_Some (dict_get "y" items').
Proof.
  eexists. split; [vm_compute; reflexivity|].
  split; [reflexivity|]. split; [reflexivity|]. by eexists.
Qed.

(** With no point along [x] the axis [x] is dropped as well. *)
Example processData_slice_squeeze_empty_x :
  ∃ items',
    DataSelector.processData_res true get_grid (selector_node (grid 0 4) pick_y1)
    = inr (mkObj GridDataDict items')
    ∧ get_axes items' "z" = inr ["y"]
    ∧ dict_get "x" items' = None
    ∧ is_Some (dict_get "y" items').
Proof.
  eexists. split; [vm_compute; reflexivity|].
  split; [reflexivity|]. split; [reflexivity|]. by eexists.
Qed.

(** Orders of the axes other than the default one: the field keeps [x] and
    loses [y] under each of them. *)
Example processData_slice_squeeze_orders :
  Forall (λ ao,
    ∃ items',
      DataSelector.processData_res true get_grid
        (selector_node (grid 3 4)
           (mkOptions (Some "z")
              [("y", Np.SelSlice (Np.mkSlice (Some 1%Z) (Some 2%Z) None))]
              ao true))
      = inr (mkObj GridDataDict items')
      ∧ get_axes items' "z" = inr ["x"]
      ∧ dict_get "y" items' = None
      ∧ match get_values items' "z" with
        | inr vals' => Np.shape vals' = [3]
        | inl _ => False
        end)
    [[("y", 0%Z)]; [("x", 1%Z)]; [("x", 0%Z)]; [("y", (-1)%Z)];
     [("x", 0%Z); ("y", 0%Z)]].
Proof.
  repeat constructor;
    (eexists; split; [vm_compute; reflexivity|];
     split; [reflexivity|]; split; reflexivity).
Qed.

(** Options outside the statement do not produce a dataset: an integer for
    [x] next to the slice of [y], a slice for a name that is not an axis of
    the field, a position outside the list of axes, and an order for a name
    that is not an axis all raise. *)
Example processData_slice_squeeze_invalid_options :
  Forall (λ o,
    ∃ e, DataSelector.processData_res true get_grid (selector_node (grid 3 4) o)
         = inl e)
    [mkOptions (Some "z")
       [("y", Np.SelSlice (Np.mkSlice (Some 1%Z) (Some 2%Z) None));
        ("x", Np.SelInt 0%Z)] [] true;
     mkOptions (Some "z")
       [("y", Np.SelSlice (Np.mkSlice (Some 1%Z) (Some 2%Z) None));
        ("z", Np.SelSlice Np.full_slice)] [] true;
     mkOptions (Some "z")
       [("y", Np.SelSlice (Np.mkSlice (Some 1%Z) (Some 2%Z) None))]
       [("x", 2%Z)] true;
     mkOptions (Some "z")
       [("y", Np.SelSlice (Np.mkSlice (Some 1%Z) (Some 2%Z) None))]
       [("z", 0%Z)] true].
Proof. repeat constructor; eexists; vm_compute; reflexivity. Qed.

Lemma grid_keys_NoDup nx ny : NoDup (obj_items (grid nx ny)).*1.
Proof. apply (bool_decide_unpack _). vm_compute. exact I. Qed.

Lemma cube_keys_NoDup nx ny nt : NoDup (obj_items (cube nx ny nt)).*1.
Proof. apply (bool_decide_unpack _). vm_compute. exact I. Qed.

Lemma axesList_spec_witness :
  ∃ l, axesList (obj_items (grid 3 4)) None = inr l
    ∧ NoDup l
    ∧ ∃ l', axesList (obj_items (grid 3 4)) (Some "z") = inr l'
        ∧ ∀ n, n ∈ l' → n ∈ l.
Proof.
  destruct (axesList_spec (obj_items (grid 3 4))) as (l & H1 & H2 & _ & H3).
  { intros k s Hin.
    repeat (apply elem_of_cons in Hin as [Hin|Hin]; [discriminate|]).
    by apply not_elem_of_nil in Hin. }
  exists l. split; [exact H1|]. split; [exact H2|].
  destruct (H3 "z") as (l' & H4 & _ & H5). exists l'. by split.
Defined.

(** On the sample grid the axes are [x] and [y], for the whole dataset and
    for the field [z] alike. *)
Example axesList_grid :
  axesList (obj_items (grid 3 4)) None = inr ["x"; "y"]
  ∧ axesList (obj_items (grid 3 4)) (Some "z") = inr ["x"; "y"]
  ∧ axesList (obj_items (grid 3 4)) (Some "x") = inr []
  ∧ axesList (obj_items (grid 3 4)) (Some "u") = inr [].
Proof. by repeat split. Qed.

Lemma processData_nothing_selected_witness :
  getInputData (selector_node (grid 3 4) (mkOptions None [] [] true))
  = inr (Some (grid 3 4))
  ∧ DataSelector.processData_res true get_grid
      (selector_node (grid 3 4) (mkOptions None [] [] true))
    = inr empty_dict.
Proof.
  split; [reflexivity|].
  exact (processData_nothing_selected true get_grid
           (selector_node (grid 3 4) (mkOptions None [] [] true))
           (Some (grid 3 4)) eq_refl (or_intror eq_refl)).
Defined.

Lemma processData_plain_needs_two_character_keys_witness :
  String.length "z" ≠ 2
  ∧ DataSelector.processData_res false get_grid
      (selector_node (grid 3 4) (pick "z" true))
    = inl ValueError.
Proof.
  assert (String.length "z" ≠ 2) as H by (simpl; lia).
  split; [exact H|].
  exact (proj2 (processData_plain_needs_two_character_keys false get_grid
                  (selector_node (grid 3 4) (pick "z" true)) (grid 3 4) "z"
                  (mkField (Some (arr [3; 4])) (Some ["x"; "y"]))
                  eq_refl eq_refl eq_refl eq_refl) H).
Defined.

Lemma processData_slice_bad_axis_witness :
  ("t" ∉ ["x"; "y"])
  ∧ DataSelector.processData_res true get_grid (selector_node (grid 3 4) pick_t0)
    = inl ValueError.
Proof.
  assert ("t" ∉ ["x"; "y"]) as H.
  { apply (bool_decide_unpack _). vm_compute. exact I. }
  split; [exact H|].
  exact (proj1 (processData_slice_bad_axis true get_grid
                  (selector_node (grid 3 4) pick_t0) (grid 3 4) (grid 3 4) "z"
                  (mkField (Some (arr [3; 4])) (Some ["x"; "y"]))
                  (arr [3; 4]) ["x"; "y"] "t" (Np.SelInt 0%Z) []
                  eq_refl eq_refl eq_refl eq_refl eq_refl eq_refl eq_refl
                  eq_refl eq_refl) H).
Defined.

Lemma processData_defaults_witness :
  length ["x"; "y"] = Np.ndim (arr [3; 4])
  ∧ ∃ vals',
      DataSelector.processData_res true get_grid
        (selector_node (grid 3 4) (pick "z" false))
      = inr (mkObj GridDataDict
               (dict_set "z" (ERecord (mkField (Some vals') (Some ["x"; "y"])))
                  (obj_items (grid 3 4))))
      ∧ Np.shape vals' = [3; 4].
Proof.
  split; [reflexivity|].
  destruct (processData_defaults true get_grid
              (selector_node (grid 3 4) (pick "z" false)) (grid 3 4) (grid 3 4)
              "z" (mkField (Some (arr [3; 4])) (Some ["x"; "y"]))
              (arr [3; 4]) ["x"; "y"]
              eq_refl eq_refl eq_refl eq_refl eq_refl eq_refl eq_refl eq_refl
              eq_refl eq_refl ltac:(discriminate) eq_refl ltac:(discriminate))
    as (vals' & H1 & H2 & _).
  exists vals'. by split.
Defined.

Lemma processData_squeeze_one_axis_witness :
  Np.shape (arr [1; 4]) !! 0 = Some 1
  ∧ ∃ items' vals',
      DataSelector.processData_res true get_grid
        (selector_node (grid 1 4) (pick "z" true))
      = inr (mkObj GridDataDict items')
      ∧ get_axes items' "z" = inr ["y"]
      ∧ dict_get "x" items' = None
      ∧ get_values items' "z" = inr vals'
      ∧ Np.shape vals' = [4].
Proof.
  split; [reflexivity|].
  destruct (processData_squeeze_one_axis true get_grid
              (selector_node (grid 1 4) (pick "z" true)) (grid 1 4) (grid 1 4)
              "z" (mkField (Some (arr [1; 4])) (Some ["x"; "y"]))
              (arr [1; 4]) ["x"; "y"] 0 "x" (rec_of [1] None))
    as (items' & vals' & H1 & H2 & H3 & _ & H4 & H5);
    try reflexivity; try discriminate.
  - intros [|[|j]] d Hj Hd; simpl in Hd; inversion Hd; subst; lia.
  - apply grid_keys_NoDup.
  - exists items', vals'. by repeat split.
Defined.

Lemma processData_squeeze_two_leading_axes_witness :
  Np.shape (arr [1; 1; 5]) = [1; 1; 5]
  ∧ ∃ items' vals',
      DataSelector.processData_res true get_grid
        (selector_node (cube 1 1 5) (pick "w" true))
      = inr (mkObj GridDataDict items')
      ∧ get_axes items' "w" = inr ["y"]
      ∧ dict_get "t" items' = None
      ∧ get_values items' "w" = inr vals'
      ∧ Np.shape vals' = [5].
Proof.
  split; [reflexivity|].
  destruct (processData_squeeze_two_leading_axes true get_grid
              (selector_node (cube 1 1 5) (pick "w" true)) (cube 1 1 5)
              (cube 1 1 5) "w"
              (mkField (Some (arr [1; 1; 5])) (Some ["x"; "y"; "t"]))
              (arr [1; 1; 5]) "x" "y" "t" [] 5 []
              (rec_of [1] None) (rec_of [5] None))
    as (items' & vals' & H1 & H2 & _ & H3 & _ & H4 & H5);
    try reflexivity; try discriminate.
  - intros d Hd. apply list_elem_of_singleton in Hd. lia.
  - apply cube_keys_NoDup.
  - exists items', vals'. by repeat split.
Defined.

Lemma processData_axesOrder_swap_witness :
  ("x" : string) ≠ "y"
  ∧ ∃ vals',
      DataSelector.processData_res true get_grid
        (selector_node (grid 3 4) (mkOptions (Some "z") [] [("y", 0%Z)] false))
      = inr (mkObj GridDataDict
               (dict_set "z" (ERecord (mkField (Some vals') (Some ["y"; "x"])))
                  (obj_items (grid 3 4))))
      ∧ Np.shape vals' = [4; 3].
Proof.
  split; [discriminate|].
  destruct (processData_axesOrder_swap true get_grid
              (selector_node (grid 3 4)
                 (mkOptions (Some "z") [] [("y", 0%Z)] false))
              (grid 3 4) (grid 3 4) "z"
              (mkField (Some (arr [3; 4])) (Some ["x"; "y"]))
              (arr [3; 4]) "x" "y" 3 4 "y" 0%Z
              eq_refl eq_refl eq_refl eq_refl eq_refl eq_refl eq_refl eq_refl
              eq_refl eq_refl eq_refl eq_refl ltac:(discriminate)
              (or_introl (conj eq_refl eq_refl)))
    as (vals' & H1 & H2 & _).
  exists vals'. by split.
Defined.

Lemma processData_integer_index_raises_witness :
  (- Z.of_nat 4 ≤ 1 < Z.of_nat 4)%Z
  ∧ DataSelector.processData_res true get_grid
      (selector_node (grid 3 4)
         (mkOptions (Some "z") [("y", Np.SelInt 1%Z)] [] true))
    = inl ValueError.
Proof.
  assert (- Z.of_nat 4 ≤ 1 < Z.of_nat 4)%Z as H by (simpl; lia).
  split; [exact H|].
  exact (proj1 (processData_integer_index_raises true get_grid
                  (selector_node (grid 3 4)
                     (mkOptions (Some "z") [("y", Np.SelInt 1%Z)] [] true))
                  (grid 3 4) (grid 3 4) "z"
                  (mkField (Some (arr [3; 4])) (Some ["x"; "y"]))
                  (mkField (Some (arr [4])) None)
                  (arr [3; 4]) (arr [4]) "x" "y" 3 4 1%Z
                  eq_refl eq_refl eq_refl eq_refl eq_refl eq_refl eq_refl
                  eq_refl eq_refl eq_refl eq_refl eq_refl eq_refl eq_refl
                  ltac:(discriminate) ltac:(discriminate)) H).
Defined.

End DataSelectorSamples.
